(** * LTAR_Display.ino: a shallow embedding of the two-digit health / shield
      counter for the ATtiny4313, and the properties of its control loop.

    The sketch is a single thread of control that polls three input pins,
    reads the millisecond clock, and drives fourteen segment lines.  It is
    embedded as a state-and-outcome monad over a record [World] that holds
    the globals of the sketch, the EEPROM, the clock and a timestamped log
    of every effect.

    The environment is a pair [(level, jitter)].  [level pin t] is the
    electrical level of an input pin at millisecond [t].  Time passes only
    in primitive calls: [jitter k] says whether the millisecond counter
    advances (by one) while the [k]-th call of digitalRead, digitalWrite,
    pinMode, millis, delay or EEPROM runs, and [delay n] takes [n]
    milliseconds on top of that.  [now] is the time since power-on;
    [millis()] returns it through the 32-bit types of the source.

    Loops that the source leaves unbounded take a fuel argument; running
    out of fuel is the outcome [Spin] (still polling), distinct from [Halt]
    (powered down by shutdown_now, which never returns).  Line numbers
    refer to LTAR_Display.ino. *)

From Stdlib Require Import ZArith List Bool Lia.
Import ListNotations.
Local Open Scope Z_scope.

(* ===================================================================== *)
(** ** Machine integers of the AVR target *)
(* ===================================================================== *)

(** [byte] is 8 bits unsigned, [int] is 16 bits signed, [long] is 32 bits
    signed and [unsigned long] (the type of [millis()]) is 32 bits unsigned. *)
Definition u8 (x : Z) : Z := x mod 2 ^ 8.
Definition u32 (x : Z) : Z := x mod 2 ^ 32.
Definition s16 (x : Z) : Z := (x + 2 ^ 15) mod 2 ^ 16 - 2 ^ 15.
Definition s32 (x : Z) : Z := (x + 2 ^ 31) mod 2 ^ 32 - 2 ^ 31.

(* ===================================================================== *)
(** ** Globals and constants *)
(* ===================================================================== *)

Definition ADVANCED_HEALTH_ADDRESS : Z := 46.
Definition ADVANCED_SHIELD_ADDRESS : Z := 47.

Definition Hit_Beacon_Pin : Z := 12.
Definition Shield_Pin : Z := 13.
Definition Fire_Pin : Z := 7.

Definition pinMap_digit1 : list Z := [10; 11; 4; 5; 6; 8; 9].
Definition pinMap_digit2 : list Z := [15; 16; 0; 2; 3; 14; 1].

(** The look-up table local to [display_num]. *)
Definition seg_array : list Z :=
  [ 63   (* 0b00111111, 0 *)
  ; 6    (* 0b00000110, 1 *)
  ; 91   (* 0b01011011, 2 *)
  ; 79   (* 0b01001111, 3 *)
  ; 102  (* 0b01100110, 4 *)
  ; 109  (* 0b01101101, 5 *)
  ; 125  (* 0b01111101, 6 *)
  ; 7    (* 0b00000111, 7 *)
  ; 127  (* 0b01111111, 8 *)
  ; 103  (* 0b01100111, 9 *)
  ; 119  (* 0b01110111, A *)
  ; 124  (* 0b01111100, B *)
  ; 57   (* 0b00111001, C *)
  ; 94   (* 0b01011110, D *)
  ; 121  (* 0b01111001, E *)
  ; 113  (* 0b01110001, F *) ].

(** C array indexing, for indices the code keeps in range. *)
Definition idx (l : list Z) (i : Z) : Z := nth (Z.to_nat i) l 0.

(** The index values of [for (i = 0; i < 7; i = i + 1)]. *)
Definition seven : list Z := [0; 1; 2; 3; 4; 5; 6].

(** The index values of [for (i = 10; i > 0; i--)]. *)
Definition ten_down : list Z := [10; 9; 8; 7; 6; 5; 4; 3; 2; 1].

(* ===================================================================== *)
(** ** The world: sketch globals, hardware state and the effect log *)
(* ===================================================================== *)

Inductive Event : Type :=
| PinMode (pin : Z) (output : bool)
| DigitalWrite (pin : Z) (high : bool)
| DigitalRead (pin : Z) (high : bool)
| Delay (ms : Z)
| EepromWrite (addr value : Z)
| Sleep
| Shown (n : Z)         (* bookkeeping: display_num was entered with n *)
| HealthSet (v : Z)     (* bookkeeping: health was assigned v *)
| ShieldsSet (v : Z)    (* bookkeeping: shields_remaining was assigned v *)
| HealthRead (v : Z)    (* bookkeeping: health = EEPROM.read(..) gave v *)
| ShieldsRead (v : Z).  (* bookkeeping: shields_remaining = EEPROM.read(..) *)

Record World : Type := mkWorld {
  now : Z;                 (* milliseconds since power-on *)
  ops : nat;               (* primitive calls made so far *)
  eeprom : Z -> Z;         (* contents of the EEPROM, by address *)
  health : Z;
  shields_remaining : Z;
  shield_timing : Z;
  startup_timeout : Z;     (* local of setup, updated inside its loop *)
  timeout_max : Z;         (* local of setup, updated inside its loop *)
  trace : list (Z * Event) (* every effect with its time, latest first *)
}.

Definition emit (e : Event) (w : World) : World :=
  mkWorld (now w) (ops w) (eeprom w) (health w) (shields_remaining w)
          (shield_timing w) (startup_timeout w) (timeout_max w)
          ((now w, e) :: trace w).

Definition elapse (d : Z) (w : World) : World :=
  mkWorld (now w + d) (ops w) (eeprom w) (health w) (shields_remaining w)
          (shield_timing w) (startup_timeout w) (timeout_max w) (trace w).

Definition count_op (w : World) : World :=
  mkWorld (now w) (S (ops w)) (eeprom w) (health w) (shields_remaining w)
          (shield_timing w) (startup_timeout w) (timeout_max w) (trace w).

Definition store (a v : Z) (w : World) : World :=
  mkWorld (now w) (ops w) (fun a' => if a' =? a then v else eeprom w a')
          (health w) (shields_remaining w)
          (shield_timing w) (startup_timeout w) (timeout_max w) (trace w).

Definition put_health (v : Z) (w : World) : World :=
  mkWorld (now w) (ops w) (eeprom w) v (shields_remaining w)
          (shield_timing w) (startup_timeout w) (timeout_max w)
          ((now w, HealthSet v) :: trace w).

Definition put_shields (v : Z) (w : World) : World :=
  mkWorld (now w) (ops w) (eeprom w) (health w) v
          (shield_timing w) (startup_timeout w) (timeout_max w)
          ((now w, ShieldsSet v) :: trace w).

(** [health = EEPROM.read(ADVANCED_HEALTH_ADDRESS)]: the same assignment,
    logged apart because the byte is not validated yet. *)
Definition load_health (v : Z) (w : World) : World :=
  mkWorld (now w) (ops w) (eeprom w) v (shields_remaining w)
          (shield_timing w) (startup_timeout w) (timeout_max w)
          ((now w, HealthRead v) :: trace w).

Definition load_shields (v : Z) (w : World) : World :=
  mkWorld (now w) (ops w) (eeprom w) (health w) v
          (shield_timing w) (startup_timeout w) (timeout_max w)
          ((now w, ShieldsRead v) :: trace w).

Definition put_shield_timing (v : Z) (w : World) : World :=
  mkWorld (now w) (ops w) (eeprom w) (health w) (shields_remaining w)
          v (startup_timeout w) (timeout_max w) (trace w).

Definition put_startup_timeout (v : Z) (w : World) : World :=
  mkWorld (now w) (ops w) (eeprom w) (health w) (shields_remaining w)
          (shield_timing w) v (timeout_max w) (trace w).

Definition put_timeout_max (v : Z) (w : World) : World :=
  mkWorld (now w) (ops w) (eeprom w) (health w) (shields_remaining w)
          (shield_timing w) (startup_timeout w) v (trace w).

(** The level last written to an output pin (low before any write). *)
Fixpoint pin_level (l : list (Z * Event)) (p : Z) : bool :=
  match l with
  | [] => false
  | (_, DigitalWrite q v) :: l' => if q =? p then v else pin_level l' p
  | _ :: l' => pin_level l' p
  end.

(** The state at power-on: globals zero-initialised, clock at zero. *)
Definition boot (e : Z -> Z) : World := mkWorld 0 0 e 0 0 0 0 0 [].

(* ===================================================================== *)
(** ** Outcomes and the monad *)
(* ===================================================================== *)

Inductive Res (A : Type) : Type :=
| Ret (a : A) (w : World)   (* the call returned *)
| Halt (w : World)          (* shutdown_now was reached: never returns *)
| Spin (w : World).         (* still inside a polling loop, fuel spent *)
Arguments Ret {A} a w.
Arguments Halt {A} w.
Arguments Spin {A} w.

Definition M (A : Type) : Type := World -> Res A.

Definition ret {A} (a : A) : M A := fun w => Ret a w.

Definition bind {A B} (m : M A) (f : A -> M B) : M B :=
  fun w => match m w with
           | Ret a w' => f a w'
           | Halt w' => Halt w'
           | Spin w' => Spin w'
           end.

Notation "x <- m ;; k" := (bind m (fun x => k))
  (at level 61, m at next level, right associativity).
Notation "m ;; k" := (bind m (fun _ => k))
  (at level 61, right associativity).

Definition final {A} (r : Res A) : World :=
  match r with Ret _ w => w | Halt w => w | Spin w => w end.

Definition get (f : World -> Z) : M Z := fun w => Ret (f w) w.
Definition modify (f : World -> World) : M unit := fun w => Ret tt (f w).
Definition skip : M unit := ret tt.

(** [while (cond) body] with at most [fuel] evaluations of the condition. *)
Fixpoint while (fuel : nat) (cond : M bool) (body : M unit) : M unit :=
  match fuel with
  | O => fun w => Spin w
  | S k => b <- cond ;; if (b : bool) then body ;; while k cond body else skip
  end.

(** A counted [for] loop over the values its index takes. *)
Fixpoint for_each (l : list Z) (body : Z -> M unit) : M unit :=
  match l with
  | [] => skip
  | i :: l' => body i ;; for_each l' body
  end.

(* ===================================================================== *)
(** ** The sketch *)
(* ===================================================================== *)

Section Sketch.

Variable level : Z -> Z -> bool.
Variable jitter : nat -> bool.

(** *** Arduino primitives *)

(** Every primitive call may see the millisecond counter advance by one. *)
Definition jit (k : nat) : Z := if jitter k then 1 else 0.

Definition tick (w : World) : World :=
  count_op (elapse (jit (ops w)) w).

Definition pinMode (p : Z) (output : bool) : M unit :=
  fun w => Ret tt (tick (emit (PinMode p output) w)).

Definition digitalRead (p : Z) : M bool :=
  fun w => let v := level p (now w) in Ret v (tick (emit (DigitalRead p v) w)).

Definition digitalWrite (p : Z) (v : Z) : M unit :=
  fun w => Ret tt (tick (emit (DigitalWrite p (negb (v =? 0))) w)).

Definition millis : M Z :=
  fun w => Ret (u32 (now w)) (tick w).

Definition delay (n : Z) : M unit :=
  fun w => Ret tt (tick (elapse n (emit (Delay n) w))).

Definition EEPROM_read (a : Z) : M Z :=
  fun w => Ret (u8 (eeprom w a)) (tick w).

Definition EEPROM_write (a v : Z) : M unit :=
  fun w => Ret tt (tick (store a (u8 v) (emit (EepromWrite a (u8 v)) w))).

(** [set_sleep_mode(..); sleep_enable(); sleep_mode(); while(1);]: the
    device sleeps and control never comes back. *)
Definition power_down : M unit :=
  fun w => Halt (emit Sleep w).

(** *** Display subroutines *)

(** [(disp_output / 10) * 16 + (disp_output % 10)], in [int] arithmetic. *)
Definition bcd_of (disp_output : Z) : Z :=
  s16 (Z.quot disp_output 10 * 16 + Z.rem disp_output 10).

Definition display_num (disp_output : Z) : M unit :=
  modify (emit (Shown disp_output)) ;;
  let disp_output := bcd_of disp_output in
  let digit1 := Z.land (Z.shiftr disp_output 4) 15 in
  let digit2 := Z.land disp_output 15 in
  for_each seven (fun i =>
    digitalWrite (idx pinMap_digit1 i)
                 (Z.land (Z.shiftr (idx seg_array digit1) i) 1) ;;
    digitalWrite (idx pinMap_digit2 i)
                 (Z.land (Z.shiftr (idx seg_array digit2) i) 1)).

(** *** Button subroutines *)

Definition button_is_pressed (button : Z) : M bool :=
  a <- digitalRead button ;;
  if (a : bool) then
    delay 55 ;;
    b <- digitalRead button ;;
    if (b : bool) then ret true else ret false
  else ret false.

(** *** Shutdown subroutine *)

Definition shutdown_now : M unit :=
  for_each seven (fun i =>
    digitalWrite (idx pinMap_digit1 i) 0 ;;
    digitalWrite (idx pinMap_digit2 i) 0) ;;
  power_down.

(** *** Advanced mode *)

Definition inc_health : M unit :=
  h <- get health ;;
  (if h <? 99 then modify (put_health (s16 (h + 1)))
   else modify (put_health 1)) ;;
  h' <- get health ;;
  display_num h'.

Definition inc_shield : M unit :=
  s <- get shields_remaining ;;
  (if s <? 99 then modify (put_shields (s16 (s + 1)))
   else modify (put_shields 1)) ;;
  s' <- get shields_remaining ;;
  display_num s'.

(** The body of the inner [while (button_is_pressed(Fire_Pin))] loops
    (lines 352-357 and 388-393). *)
Definition fast_select (button_down_time : Z) (inc : M unit) : M unit :=
  t <- millis ;;
  if u32 (s32 (button_down_time + 1000)) <? t then inc ;; delay 100 else skip.

(** The body of the two [while (!button_is_pressed(Shield_Pin))] loops
    (lines 341-361 and 378-395); [inc] is [inc_health] or [inc_shield]. *)
Definition entry_poll (fuel : nat) (inc : M unit) : M unit :=
  f <- button_is_pressed Fire_Pin ;;
  if (f : bool) then
    inc ;;
    t <- millis ;;
    let button_down_time := s32 t in
    while fuel (button_is_pressed Fire_Pin)
               (fast_select button_down_time inc)
  else skip.

(** One of the two number-entry loops of [advanced_mode]. *)
Definition number_entry (fuel : nat) (inc : M unit) : M unit :=
  while fuel (b <- button_is_pressed Shield_Pin ;; ret (negb b))
             (entry_poll fuel inc).

Definition advanced_mode (fuel : nat) : M unit :=
  number_entry fuel inc_health ;;
  while fuel (button_is_pressed Shield_Pin) skip ;;
  h <- get health ;;
  EEPROM_write ADVANCED_HEALTH_ADDRESS h ;;
  s <- get shields_remaining ;;
  display_num s ;;
  number_entry fuel inc_shield ;;
  while fuel (button_is_pressed Shield_Pin) skip ;;
  s' <- get shields_remaining ;;
  EEPROM_write ADVANCED_SHIELD_ADDRESS s'.

(** *** Shield subroutines *)

Definition update_shield : M unit :=
  t1 <- millis ;;
  st <- get shield_timing ;;
  if u32 (s32 (st + 999)) <=? t1 then
    t2 <- millis ;;
    s <- get shields_remaining ;;
    modify (put_shields (s16 (u32 (s - u32 (t2 - st) / 999)))) ;;
    t3 <- millis ;;
    modify (put_shield_timing (s32 t3)) ;;
    s' <- get shields_remaining ;;
    display_num s'
  else skip.

(** [button_is_pressed(Shield_Pin) && (shields_remaining > shield_min)]
    (lines 492 and 507, [want = true]) and
    [!button_is_pressed(Shield_Pin) && (shields_remaining > shield_min)]
    (line 498, [want = false]); the right operand is only evaluated when
    the left one holds. *)
Definition held_above (want : bool) (shield_min : Z) : M bool :=
  b <- button_is_pressed Shield_Pin ;;
  if Bool.eqb b want then
    s <- get shields_remaining ;; ret (s >? shield_min)
  else ret false.

Definition shield_handler (fuel : nat) : M unit :=
  p <- button_is_pressed Shield_Pin ;;
  if (p : bool) then
    t <- millis ;;
    modify (put_shield_timing (s32 t)) ;;
    s <- get shields_remaining ;;
    display_num s ;;
    let shield_min := if s16 (s - 10) >? 0 then s16 (s - 10) else 0 in
    while fuel (held_above true shield_min) update_shield ;;
    while fuel (held_above false shield_min) update_shield ;;
    t' <- millis ;;
    st <- get shield_timing ;;
    s1 <- get shields_remaining ;;
    modify (put_shields (s16 (u32 (s1 - u32 (t' - st) / 999)))) ;;
    while fuel (held_above true shield_min) skip ;;
    h <- get health ;;
    display_num h ;;
    s2 <- get shields_remaining ;;
    if s2 >? shield_min then modify (put_shields (s16 (s2 - 1))) else skip
  else skip.

(** *** setup *)

(** Lines 192-196:
    [for (i...) digitalWrite(pinMap_digitN[i], (0b01000000 >> i) & 1)]. *)
Definition show_dashes : M unit :=
  for_each seven (fun i =>
    digitalWrite (idx pinMap_digit1 i) (Z.land (Z.shiftr 64 i) 1) ;;
    digitalWrite (idx pinMap_digit2 i) (Z.land (Z.shiftr 64 i) 1)).

(** Lines 203-215: fetch the last used numbers, reset them if unknown. *)
Definition load_settings : M unit :=
  h <- EEPROM_read ADVANCED_HEALTH_ADDRESS ;;
  modify (load_health h) ;;
  s <- EEPROM_read ADVANCED_SHIELD_ADDRESS ;;
  modify (load_shields s) ;;
  if (h >? 99) || (s >? 99) then
    EEPROM_write ADVANCED_HEALTH_ADDRESS 30 ;;
    EEPROM_write ADVANCED_SHIELD_ADDRESS 10 ;;
    modify (put_health 30) ;;
    modify (put_shields 10)
  else skip.

(** The advanced-mode branch of [setup] (lines 187-222). *)
Definition advanced_setup (fuel : nat) : M unit :=
  show_dashes ;;
  while fuel (button_is_pressed Shield_Pin) skip ;;
  modify (put_timeout_max 110000) ;;
  load_settings ;;
  h <- get health ;;
  display_num h ;;
  advanced_mode fuel ;;
  h' <- get health ;;
  display_num h'.

(** The body of [while (!button_is_pressed(Fire_Pin))] in normal mode
    (lines 240-269). *)
Definition normal_poll (fuel : nat) : M unit :=
  b <- button_is_pressed Shield_Pin ;;
  if (b : bool) then
    h <- get health ;;
    (if h =? 10 then
       modify (put_health 25) ;; modify (put_shields 30)
     else
       modify (put_health 10) ;; modify (put_shields 15)) ;;
    h' <- get health ;;
    display_num h' ;;
    t <- millis ;;
    modify (put_startup_timeout (s32 t)) ;;
    modify (put_timeout_max 110000) ;;
    while fuel (button_is_pressed Shield_Pin) skip
  else
    st <- get startup_timeout ;;
    tm <- get timeout_max ;;
    t <- millis ;;
    if u32 (s32 (st + tm)) <=? t then shutdown_now else skip.

(** The normal-mode branch of [setup] (lines 232-270). *)
Definition normal_setup (fuel : nat) : M unit :=
  modify (put_health 10) ;;
  modify (put_shields 15) ;;
  h <- get health ;;
  display_num h ;;
  while fuel (b <- button_is_pressed Fire_Pin ;; ret (negb b))
             (normal_poll fuel).

(** The end of [setup] (lines 278-289). *)
Definition startup_animation (fuel : nat) : M unit :=
  while fuel (button_is_pressed Hit_Beacon_Pin) skip ;;
  for_each ten_down (fun i => display_num i ;; delay 1000) ;;
  display_num 0 ;;
  delay 1000 ;;
  h <- get health ;;
  display_num h.

Definition setup (fuel : nat) : M unit :=
  modify (put_startup_timeout 0) ;;
  modify (put_timeout_max 61000) ;;
  for_each seven (fun segment =>
    pinMode (idx pinMap_digit1 segment) true ;;
    pinMode (idx pinMap_digit2 segment) true) ;;
  pinMode Hit_Beacon_Pin false ;;
  pinMode Shield_Pin false ;;
  pinMode Fire_Pin false ;;
  b <- button_is_pressed Shield_Pin ;;
  (if (b : bool) then advanced_setup fuel else normal_setup fuel) ;;
  startup_animation fuel.

(** *** loop *)

(** The [else] branch of [loop] (lines 319-326): no health remaining. *)
Definition depleted : M unit :=
  display_num 0 ;;
  delay 60000 ;;
  shutdown_now.

(** Lines 300-304:
    [while (!button_is_pressed(Hit_Beacon_Pin)) shield_handler();] *)
Definition await_beacon (fuel : nat) : M unit :=
  while fuel (b <- button_is_pressed Hit_Beacon_Pin ;; ret (negb b))
             (shield_handler fuel).

Definition loop (fuel : nat) : M unit :=
  await_beacon fuel ;;
  h <- get health ;;
  if h >? 0 then
    modify (put_health (s16 (h - 1))) ;;
    h' <- get health ;;
    display_num h' ;;
    while fuel (button_is_pressed Hit_Beacon_Pin) skip
  else depleted.

(** The Arduino core runs [setup()] once and then [loop()] for ever. *)
Definition sketch (fuel : nat) : M unit :=
  setup fuel ;;
  while fuel (ret true) (loop fuel).

End Sketch.

(* ===================================================================== *)
(** ** Vocabulary of the specifications *)
(* ===================================================================== *)

(** The value a call returned, if it did. *)
Definition returned {A} (r : Res A) : option A :=
  match r with Ret a _ => Some a | _ => None end.

(** The run ended powered down. *)
Definition halted {A} (r : Res A) : bool :=
  match r with Halt _ => true | _ => false end.

(** The run is still inside a polling loop. *)
Definition spinning {A} (r : Res A) : bool :=
  match r with Spin _ => true | _ => false end.

(** [after ev dt k w]: the world once [k] primitive calls have logged the
    events [ev] and taken [dt] milliseconds, the sketch variables and the
    EEPROM being untouched. *)
Definition after (ev : list (Z * Event)) (dt : Z) (k : nat) (w : World) : World :=
  mkWorld (now w + dt) (k + ops w) (eeprom w) (health w) (shields_remaining w)
          (shield_timing w) (startup_timeout w) (timeout_max w) (ev ++ trace w).

(** Weakest precondition, one postcondition per outcome. *)
Definition wp {A} (m : M A) (Q : A -> World -> Prop) (QH QS : World -> Prop)
  (w : World) : Prop :=
  match m w with Ret a w' => Q a w' | Halt w' => QH w' | Spin w' => QS w' end.

(** A call that always returns, touches only pins and the clock, takes at
    most [c] milliseconds and logs only events satisfying [P]. *)
Definition io_call {A} (c : Z) (P : Event -> Prop) (m : M A) : Prop :=
  forall w, exists a ev dt k,
    m w = Ret a (after ev dt k w) /\ 0 <= dt <= c /\
    Forall (fun te => P (snd te)) ev.

(** Pin traffic and delays: nothing that concerns the counters. *)
Definition is_pin_io (e : Event) : Prop :=
  match e with
  | PinMode _ _ | DigitalWrite _ _ | DigitalRead _ _ | Delay _ => True
  | _ => False
  end.

(** The events of one [display_num n]. *)
Definition shows (n : Z) (e : Event) : Prop := e = Shown n \/ is_pin_io e.

(** The clock is read through 32-bit types; the timing results are stated
    for runs that end before it reaches [horizon] (about twelve days). *)
Definition horizon : Z := 2 ^ 30.

(** *** Shield activations *)

(** The values assigned to [shields_remaining], latest first. *)
Fixpoint shield_values (l : list (Z * Event)) : list Z :=
  match l with
  | [] => []
  | (_, ShieldsSet v) :: l' => v :: shield_values l'
  | _ :: l' => shield_values l'
  end.

(** [chain f p vs]: read from the oldest value to the latest, every value
    of [vs] is at most the one assigned before it ([p] for the first) and
    at least [f]. *)
Fixpoint chain (f p : Z) (vs : list Z) : Prop :=
  match vs with
  | [] => True
  | v :: vs' => f <= v <= hd p vs' /\ chain f p vs'
  end.

(** What one activation may log: shield values between the floor [f] and
    the prior value [p], and renderings of those or of the health [h]. *)
Definition act_ok (f p h : Z) (e : Event) : Prop :=
  match e with
  | Shown n => f <= n <= p \/ n = h
  | ShieldsSet v => f <= v <= p
  | PinMode _ _ | DigitalWrite _ _ | DigitalRead _ _ | Delay _ => True
  | _ => False
  end.

(** Health untouched, shields between floor and prior value, and a log
    that extends the one at the start by an admissible, descending record. *)
Definition Logged' (tr0 : list (Z * Event)) (f p h : Z)
  (hh s : Z) (tr : list (Z * Event)) : Prop :=
  hh = h /\ f <= s <= p /\
  exists ev, tr = ev ++ tr0 /\
    Forall (fun te => act_ok f p h (snd te)) ev /\
    chain f p (shield_values ev) /\ s = hd p (shield_values ev).

(** The record of an activation that started in [w0]. *)
Definition Logged (w0 : World) (f p : Z) (w : World) : Prop :=
  now w0 <= now w /\
  Logged' (trace w0) f p (health w0) (health w) (shields_remaining w) (trace w).

(** The anchor is at most [999 + d] ms old, and at most [15 + d] ms old
    once the floor is reached. *)
Definition Timed (f d : Z) (w : World) : Prop :=
  0 <= shield_timing w <= now w /\
  now w - shield_timing w <= 999 + d /\
  (shields_remaining w = f -> now w - shield_timing w <= 15 + d).

(** The invariant of the two countdown loops, and what is left of it once
    the timing is no longer needed; both asked only before the horizon. *)
Definition Act (w0 : World) (f p d : Z) (w : World) : Prop :=
  now w < horizon -> Logged w0 f p w /\ Timed f d w.

Definition Fin (w0 : World) (f p : Z) (w : World) : Prop :=
  now w < horizon -> Logged w0 f p w.

(** *** The range invariant of the counters *)






(** *** Rendering *)

(** The fourteen writes of one rendering, in the order they are made:
    bit [i] of each pattern goes to entry [i] of that digit's pin map. *)
Definition digit_writes (pat1 pat2 : Z) : list Event :=
  flat_map (fun i => [DigitalWrite (idx pinMap_digit1 i) (Z.testbit pat1 i);
                      DigitalWrite (idx pinMap_digit2 i) (Z.testbit pat2 i)])
           seven.

(** A straight-line call: it returns after between [lo] and [hi]
    milliseconds, leaves the sketch variables alone, and logs exactly the
    events [evs] (latest first). *)
Definition runs {A} (lo hi : Z) (evs : list Event) (m : M A) : Prop :=
  forall w, exists a ev dt k,
    m w = Ret a (after ev dt k w) /\ lo <= dt <= hi /\ map snd ev = evs.

(** The level last written to a pin by a list of events, if any. *)
Fixpoint pin_written (l : list Event) (p : Z) : option bool :=
  match l with
  | [] => None
  | DigitalWrite q v :: l' => if q =? p then Some v else pin_written l' p
  | _ :: l' => pin_written l' p
  end.

(** *** Staying powered *)

(** A call that never reaches [shutdown_now]: its outcome is not [Halt],
    what it adds to the log contains no [Sleep], and (as for every call)
    the clock does not run backwards. *)
Definition stays_up {A} (m : M A) : Prop :=
  forall w,
    halted (m w) = false /\
    (exists ev, trace (final (m w)) = ev ++ trace w /\
                Forall (fun te => snd te <> Sleep) ev) /\
    now w <= now (final (m w)).

(** The milliseconds that [n] primitive calls take, from call number [k]. *)
Fixpoint ticks (jitter : nat -> bool) (k n : nat) : Z :=
  match n with
  | O => 0
  | S n' => (if jitter k then 1 else 0) + ticks jitter (S k) n'
  end.

(** *** Number entry *)

(** The value after one increment: one more, and 1 after 99. *)
Definition next_count (c : Z) : Z := if c <? 99 then c + 1 else 1.

(** *** Environments used in the concrete runs *)

(** No input is ever asserted. *)
Definition quiet : Z -> Z -> bool := fun _ _ => false.

(** The millisecond counter advances during every primitive call. *)
Definition busy : nat -> bool := fun _ => true.

(** The millisecond counter only advances inside [delay]. *)
Definition calm : nat -> bool := fun _ => false.

(** Shield is held from power-on for 3.5 s and pressed again at 5 s. *)
Definition shield_twice : Z -> Z -> bool :=
  fun p t => (p =? Shield_Pin)
             && (((0 <=? t) && (t <? 3500)) || ((5000 <=? t) && (t <? 5300))).

(** A game in progress: health 10, shields 15. *)
Definition mid_game : World := mkWorld 0 0 (fun _ => 255) 10 15 0 0 0 [].

(** Shield is pressed once, from 1.0 s to 1.2 s. *)
Definition shield_once : Z -> Z -> bool :=
  fun p t => (p =? Shield_Pin) && (1000 <=? t) && (t <? 1200).

(** Shield is held at power-on for half a second. *)
Definition shield_at_boot : Z -> Z -> bool :=
  fun p t => (p =? Shield_Pin) && (0 <=? t) && (t <? 500).

(** Fire is held for the first two seconds. *)
Definition fire_held : Z -> Z -> bool :=
  fun p t => (p =? Fire_Pin) && (0 <=? t) && (t <? 2000).

(** Number entry about to start, with health 30 and shields 10. *)
Definition entering : World := mkWorld 0 0 (fun _ => 255) 30 10 0 0 0 [].

(** Fire starts the game, then the beacon lights ten times, 200 ms each,
    one second apart, and nothing happens after that. *)
Definition ten_hits : Z -> Z -> bool :=
  fun p t =>
    if p =? Fire_Pin then (100 <=? t) && (t <? 300)
    else if p =? Hit_Beacon_Pin then
      (12000 <=? t) && (t <? 22000) && (t mod 1000 <? 200)
    else false.

(** The beacon is lit for the first half second. *)
Definition beacon_lit : Z -> Z -> bool :=
  fun p t => (p =? Hit_Beacon_Pin) && (0 <=? t) && (t <? 500).

(** A game in which health has reached 0. *)
Definition spent : World := mkWorld 0 0 (fun _ => 255) 0 15 0 0 0 [].


(** The times and arguments of the calls of [display_num], latest first. *)
Definition shown_log (l : list (Z * Event)) : list (Z * Z) :=
  flat_map (fun te => match snd te with Shown n => [(fst te, n)] | _ => [] end) l.

(** The times at which [health] was assigned 0. *)
Definition zero_health_times (l : list (Z * Event)) : list Z :=
  flat_map (fun te => match snd te with HealthSet 0 => [fst te] | _ => [] end) l.



(** *** The standard seven-segment encoding *)

(** The seven segments of a digit, in the order of the bits of a pattern
    byte: A is bit 0 and G is bit 6. *)
Inductive Segment : Type :=
| SegA | SegB | SegC | SegD | SegE | SegF | SegG.

Definition segment_bit (s : Segment) : Z :=
  match s with
  | SegA => 0 | SegB => 1 | SegC => 2 | SegD => 3
  | SegE => 4 | SegF => 5 | SegG => 6
  end.

(** The pattern byte in which exactly the segments of [l] are lit. *)
Definition pattern_of (l : list Segment) : Z :=
  fold_right (fun s p => Z.lor (Z.shiftl 1 (segment_bit s)) p) 0 l.

(** The segments of the decimal digits in the standard seven-segment
    encoding; as pattern bytes they are the usual hex table
    3F 06 5B 4F 66 6D 7D 07 7F 6F. *)
Definition standard_segments (d : Z) : list Segment :=
  match d with
  | 0 => [SegA; SegB; SegC; SegD; SegE; SegF]
  | 1 => [SegB; SegC]
  | 2 => [SegA; SegB; SegD; SegE; SegG]
  | 3 => [SegA; SegB; SegC; SegD; SegG]
  | 4 => [SegB; SegC; SegF; SegG]
  | 5 => [SegA; SegC; SegD; SegF; SegG]
  | 6 => [SegA; SegC; SegD; SegE; SegF; SegG]
  | 7 => [SegA; SegB; SegC]
  | 8 => [SegA; SegB; SegC; SegD; SegE; SegF; SegG]
  | 9 => [SegA; SegB; SegC; SegD; SegF; SegG]
  | _ => []
  end.

Definition standard_pattern (d : Z) : Z := pattern_of (standard_segments d).

(** What the sketch draws for a decimal digit: the standard segments, except
    that its 9 has no bottom segment (D). *)
Definition drawn_segments (d : Z) : list Segment :=
  if d =? 9 then [SegA; SegB; SegC; SegF; SegG] else standard_segments d.

Definition drawn_pattern (d : Z) : Z := pattern_of (drawn_segments d).

(* ===================================================================== *)
(** ** Vocabulary of the results on the sketch as a whole *)
(* ===================================================================== *)

(** *** What a call may change *)

(** [respects R m]: whatever the outcome of [m], the world it ends in is
    related by [R] to the world it started in. *)
Definition respects {A} (R : World -> World -> Prop) (m : M A) : Prop :=
  forall w, R w (final (m w)).

(** A relation that chains along a run: no step is a step, and steps
    compose. *)
Class Chains (R : World -> World -> Prop) : Prop := {
  chains_refl : forall w, R w w;
  chains_trans : forall w1 w2 w3, R w1 w2 -> R w2 w3 -> R w1 w3
}.

(** The log grew, and only by events that pass the test [P]. *)
Definition logs_only (P : Event -> bool) (w w' : World) : Prop :=
  exists ev, trace w' = ev ++ trace w /\ forallb (fun te => P (snd te)) ev = true.

(** [x] is one of the numbers of [l]. *)
Definition mem (x : Z) (l : list Z) : bool := existsb (Z.eqb x) l.

(** The EEPROM is as it was, except perhaps in [cells]. *)
Definition rom_kept (cells : list Z) (w w' : World) : Prop :=
  forall a, mem a cells = false -> eeprom w' a = eeprom w a.

(** *** The wiring of the board *)

Definition segment_pins : list Z := pinMap_digit1 ++ pinMap_digit2.
Definition input_pins : list Z := [Hit_Beacon_Pin; Shield_Pin; Fire_Pin].
Definition setting_cells : list Z :=
  [ADVANCED_HEALTH_ADDRESS; ADVANCED_SHIELD_ADDRESS].

(** An effect that fits the wiring: segment pins are outputs and are only
    written, the three button pins are inputs and are only read, and the
    EEPROM is only written in the two setting cells. *)
Definition wired (e : Event) : bool :=
  match e with
  | PinMode p output => if output then mem p segment_pins else mem p input_pins
  | DigitalWrite p _ => mem p segment_pins
  | DigitalRead p _ => mem p input_pins
  | EepromWrite a _ => mem a setting_cells
  | _ => true
  end.

(** No traffic with the EEPROM: no write, and no counter loaded from it. *)
Definition off_rom (e : Event) : bool :=
  match e with
  | EepromWrite _ _ | HealthRead _ | ShieldsRead _ => false
  | _ => true
  end.

(** A call that leaves every cell of the EEPROM as it was and has no
    traffic with it. *)
Definition leaves_rom {A} (m : M A) : Prop :=
  forall w,
    (forall a, eeprom (final (m w)) a = eeprom w a) /\
    exists ev, trace (final (m w)) = ev ++ trace w /\
               forallb (fun te => off_rom (snd te)) ev = true.

(** Anything but a change of pin direction. *)
Definition not_pin_mode (e : Event) : bool :=
  match e with PinMode _ _ => false | _ => true end.

(** The seventeen calls of [pinMode] at the top of [setup], in order. *)
Definition pin_directions : list Event :=
  flat_map (fun i => [PinMode (idx pinMap_digit1 i) true;
                      PinMode (idx pinMap_digit2 i) true]) seven
  ++ [PinMode Hit_Beacon_Pin false; PinMode Shield_Pin false;
      PinMode Fire_Pin false].

(** *** Game types *)

(** The two unhosted game types of normal mode: 10 health with 15 shield
    seconds, or 25 health with 30 shield seconds. *)
Definition game_type (w : World) : Prop :=
  (health w = 10 /\ shields_remaining w = 15) \/
  (health w = 25 /\ shields_remaining w = 30).

(** *** What the display shows *)

(** The levels of the output pins are as they were. *)
Definition pins_kept (w w' : World) : Prop :=
  forall p, pin_level (trace w') p = pin_level (trace w) p.

(** The fourteen segment lines carry the patterns [pat1] and [pat2]. *)
Definition lit (pat1 pat2 : Z) (w : World) : Prop :=
  forall i, 0 <= i < 7 ->
    pin_level (trace w) (idx pinMap_digit1 i) = Z.testbit pat1 i /\
    pin_level (trace w) (idx pinMap_digit2 i) = Z.testbit pat2 i.

(** The display shows the two decimal digits of [n]. *)
Definition displays (n : Z) (w : World) : Prop :=
  lit (idx seg_array (n / 10)) (idx seg_array (n mod 10)) w.

(** The renderings and the pauses of a log, in the order they were made. *)
Definition on_screen (e : Event) : bool :=
  match e with Shown _ | Delay _ => true | _ => false end.

Definition screen_log (l : list (Z * Event)) : list Event :=
  filter on_screen (rev (map snd l)).

(** What one step of the countdown logs: the rendering of [i] and a pause
    of one second. *)
Definition frame (i : Z) : list Event :=
  Shown i ::
  digit_writes (idx seg_array (Z.land (Z.shiftr (bcd_of i) 4) 15))
               (idx seg_array (Z.land (bcd_of i) 15)) ++
  [Delay 1000].

(** The pre-game countdown as the player sees it: 10 down to 0, one second
    each, and then the health. *)
Definition countdown_log (h : Z) : list Event :=
  flat_map (fun i => [Shown i; Delay 1000]) (ten_down ++ [0]) ++ [Shown h].

(** *** Power-down *)

(** All fourteen segment lines are low. *)
Definition blank (w : World) : Prop :=
  forall i, 0 <= i < 7 ->
    pin_level (trace w) (idx pinMap_digit1 i) = false /\
    pin_level (trace w) (idx pinMap_digit2 i) = false.

(** The device is asleep with the display off: the sleep request is the
    last effect, and the display is blank. *)
Definition dark (w : World) : Prop :=
  hd_error (map snd (trace w)) = Some Sleep /\ blank w.

(** A call that cannot end powered down with a segment still lit. *)
Definition halts_dark {A} (m : M A) : Prop :=
  forall w, wp m (fun _ _ => True) dark (fun _ => True) w.

(** *** Play *)

(** Neither counter is above the given bound, and the shield count is not
    negative; asked, as every result on the shield timing, before the
    clock horizon. *)
Definition capped (H S : Z) (w : World) : Prop :=
  now w < horizon ->
  0 <= now w /\ health w <= H /\ 0 <= shields_remaining w <= S.

(** *** Settings *)

(** Both counters are in the range that number entry offers. *)
Definition in_range (w : World) : Prop :=
  0 <= health w <= 99 /\ 0 <= shields_remaining w <= 99.

(** The two setting cells hold the counters. *)
Definition saved (w : World) : Prop :=
  eeprom w ADVANCED_HEALTH_ADDRESS = health w /\
  eeprom w ADVANCED_SHIELD_ADDRESS = shields_remaining w.

(** The counters and the EEPROM are as they were. *)
Definition settled (w w' : World) : Prop :=
  health w' = health w /\ shields_remaining w' = shields_remaining w /\
  forall a, eeprom w' a = eeprom w a.

(** *** What a shield activation leaves alone *)

(** What a shield activation may log: it reads no pin but Shield's,
    assigns nothing to health, and has no business with pin directions,
    the EEPROM or sleep. *)
Definition shield_only (e : Event) : bool :=
  match e with
  | DigitalRead p _ => p =? Shield_Pin
  | HealthSet _ | HealthRead _ | ShieldsRead _ | EepromWrite _ _ | Sleep
  | PinMode _ _ => false
  | _ => true
  end.

(** Health is what it was. *)
Definition health_kept (w w' : World) : Prop := health w' = health w.

(** *** EEPROM wear *)

Definition is_rom_write (e : Event) : bool :=
  match e with EepromWrite _ _ => true | _ => false end.

(** The number of EEPROM writes made so far. *)
Definition rom_writes (w : World) : nat :=
  length (filter (fun te => is_rom_write (snd te)) (trace w)).

Definition no_write (w w' : World) : Prop := rom_writes w' = rom_writes w.

(** A call that makes at most [n] EEPROM writes, whatever its outcome. *)
Definition writes_at_most {A} (n : nat) (m : M A) : Prop :=
  forall w, (rom_writes (final (m w)) <= rom_writes w + n)%nat.

(** *** The display in play *)

(** Health and the levels of the output pins are what they were. *)
Definition screen_kept (w w' : World) : Prop :=
  health w' = health w /\ pins_kept w w'.

(** Health is in [0,99] and is what the display shows. *)
Definition shows_health (w : World) : Prop :=
  0 <= health w <= 99 /\ displays (health w) w.

(** *** A held button *)

(** The state of the first countdown loop while Shield stays down: the
    count is between floor and prior value, the anchor is at most 999 ms
    old (15 ms once the floor is reached) and has moved by at most 1060 ms
    per point taken since [a]. *)
Definition draining (a h f p : Z) (w : World) : Prop :=
  health w = h /\ f <= shields_remaining w <= p /\
  0 <= shield_timing w <= now w /\ now w - shield_timing w <= 999 /\
  (shields_remaining w = f -> now w - shield_timing w <= 15) /\
  a <= shield_timing w <= a + (p - shields_remaining w) * 1060.

(** The passes the first countdown loop can still make: one takes at least
    55 ms, and the loop is over 11 s after the first anchor. *)
Definition passes_left (a : Z) (w : World) : nat :=
  Z.to_nat ((a + 11000 - now w) / 55).

(** *** The rate of the countdown *)

(** Every point taken from [p] so far has moved the anchor by 999 ms or
    more since the first anchor [a]; asked before the clock horizon. *)
Definition paid (a p : Z) (w : World) : Prop :=
  now w < horizon ->
  a <= shield_timing w /\
  999 * (p - shields_remaining w) <= shield_timing w - a.

(** The same, measured on the clock once the anchor is no longer renewed. *)
Definition paid_by_now (a p : Z) (w : World) : Prop :=
  now w < horizon -> 999 * (p - shields_remaining w) <= now w - a.

(** *** Buttons that play does not look at *)

(** Anything but a read of the Fire pin. *)
Definition not_fire (e : Event) : bool :=
  match e with DigitalRead p _ => negb (p =? Fire_Pin) | _ => true end.

(** *** Repeated presses *)

(** [n] calls of [m] in a row. *)
Fixpoint repeat_call (n : nat) (m : M unit) : M unit :=
  match n with
  | O => skip
  | S k => m ;; repeat_call k m
  end.

(** The counter value [n] increments after [c] (with [n] at least 1). *)
Definition count_after (c : Z) (n : nat) : Z := (c - 1 + Z.of_nat n) mod 99 + 1.

(** *** The wrap of the millisecond clock *)

(** [millis()] is a 32-bit counter: it is back at 0 after [clock_wrap]
    milliseconds, 49.7 days after power-on. *)
Definition clock_wrap : Z := 2 ^ 32.

(** Button [p] is pressed at time [a] for [d] milliseconds. *)
Definition pressed (p a d : Z) : Z -> Z -> bool :=
  fun q t => (q =? p) && (a <=? t) && (t <? a + d).

(** A game in progress 1069 ms before the clock wraps: health 10, shields
    15. *)
Definition late_game : World :=
  mkWorld (clock_wrap - 1069) 0 (fun _ => 255) 10 15 0 0 0 [].

(** A game left switched on for 49.7 days.  Fire starts it at power-on;
    1069 ms before the clock wraps Shield is pressed for 30 s, and again
    100 ms later for 300 ms; the beacon lights 31 s after the first press,
    for 300 ms. *)
Definition play_over_wrap : Z -> Z -> bool :=
  fun p t =>
    let a := clock_wrap - 1069 in
    if p =? Fire_Pin then t <? 200
    else if p =? Shield_Pin then
      ((a <=? t) && (t <? a + 30000)) || ((a + 30100 <=? t) && (t <? a + 30400))
    else (a + 31000 <=? t) && (t <? a + 31300).




(** Normal set-up at clock [t], the last Shield toggle 100 s in the
    past. *)
Definition choosing_at (t : Z) : World :=
  mkWorld t 0 (fun _ => 255) 10 15 0 (s32 (t - 100000)) 110000 [].

(** Number entry at clock [t], with health 30 and shields 10. *)
Definition entering_at (t : Z) : World :=
  mkWorld t 0 (fun _ => 255) 30 10 0 0 0 [].

(** *** Further environments and states for the concrete runs *)

(** Shield is held down for ever. *)
Definition shield_down : Z -> Z -> bool := fun p _ => p =? Shield_Pin.

(** Number entry: Shield is pressed from 0.1 to 0.3 s and from 1.0 to
    1.2 s, and Fire from 0.5 to 0.6 s in between. *)
Definition pick_shield : Z -> Z -> bool :=
  fun p t =>
    if p =? Shield_Pin then
      ((100 <=? t) && (t <? 300)) || ((1000 <=? t) && (t <? 1200))
    else if p =? Fire_Pin then (500 <=? t) && (t <? 600)
    else false.

(** A game in progress whose display shows the health, 10. *)
Definition showing_ten : World := final (display_num busy 10 mid_game).

(** Normal set-up one second after power-on, nothing selected yet. *)
Definition choosing : World :=
  mkWorld 1000 0 (fun _ => 255) 10 15 0 0 61000 [].

(* ===================================================================== *)
(** ** Machine arithmetic inside its range *)
(* ===================================================================== *)

Lemma u32_id x : 0 <= x < 2 ^ 32 -> u32 x = x.
Proof. intros H. unfold u32. apply Z.mod_small, H. Qed.
Lemma s32_id x : - 2 ^ 31 <= x < 2 ^ 31 -> s32 x = x.
Proof. intros H. unfold s32. rewrite Z.mod_small; lia. Qed.
Lemma s16_id x : - 2 ^ 15 <= x < 2 ^ 15 -> s16 x = x.
Proof. intros H. unfold s16. rewrite Z.mod_small; lia. Qed.
Lemma div999_small x : 0 <= x < 999 -> x / 999 = 0.
Proof. intros H. apply Z.div_small, H. Qed.
Lemma div999_one x : 999 <= x < 1998 -> x / 999 = 1.
Proof. intros H. symmetry. apply (Z.div_unique x 999 1 (x - 999)); lia. Qed.

(* ===================================================================== *)
(** ** Rules of the program logic *)
(* ===================================================================== *)

Lemma after_nil w : after [] 0 0 w = w.
Proof. destruct w; unfold after; simpl. f_equal. lia. Qed.

Lemma after_after ev1 dt1 k1 ev2 dt2 k2 w :
  after ev2 dt2 k2 (after ev1 dt1 k1 w) = after (ev2 ++ ev1) (dt1 + dt2) (k2 + k1) w.
Proof.
  unfold after; simpl. f_equal; [lia | lia | now rewrite app_assoc].
Qed.

Lemma bind_ret {A B} (m : M A) (f : A -> M B) w a w' :
  m w = Ret a w' -> bind m f w = f a w'.
Proof. intros E. unfold bind. rewrite E. reflexivity. Qed.

Lemma wp_bind {A B} (m : M A) (f : A -> M B) Q QH QS w :
  wp m (fun a w' => wp (f a) Q QH QS w') QH QS w -> wp (bind m f) Q QH QS w.
Proof. unfold wp, bind. destruct (m w); auto. Qed.

Lemma wp_weaken {A} (m : M A) (Q Q' : A -> World -> Prop) (QH QH' QS QS' : World -> Prop) w :
  wp m Q QH QS w ->
  (forall a w', Q a w' -> Q' a w') -> (forall w', QH w' -> QH' w') ->
  (forall w', QS w' -> QS' w') -> wp m Q' QH' QS' w.
Proof. unfold wp. destruct (m w); auto. Qed.

Lemma wp_post {A} (m : M A) (Q Q' : A -> World -> Prop) QH QS w :
  wp m Q QH QS w -> (forall a w', Q a w' -> Q' a w') -> wp m Q' QH QS w.
Proof. intros H HQ. eapply wp_weaken; eauto. Qed.

Lemma wp_while (I : World -> Prop) cond body Q QH QS :
  (forall w, I w -> QS w) ->
  (forall w, I w ->
     wp cond (fun b w' => if (b : bool) then wp body (fun _ => I) QH QS w'
                          else Q tt w') QH QS w) ->
  forall fuel w, I w -> wp (while fuel cond body) Q QH QS w.
Proof.
  intros HS Hstep. induction fuel as [|k IH]; intros w Hw.
  - apply HS, Hw.
  - simpl. apply wp_bind. eapply wp_weaken; [apply Hstep, Hw | | auto | auto].
    intros [|] w1 H1; simpl in H1.
    + apply wp_bind. eapply wp_weaken; [apply H1 | | auto | auto].
      intros u w2 H2. apply IH, H2.
    + exact H1.
Qed.

Lemma wp_io {A} c P (m : M A) (Q : A -> World -> Prop) QH QS w :
  io_call c P m ->
  (forall a ev dt k, 0 <= dt <= c -> Forall (fun te => P (snd te)) ev ->
     Q a (after ev dt k w)) ->
  wp m Q QH QS w.
Proof.
  intros Hio HQ. destruct (Hio w) as (a & ev & dt & k & E & Hdt & Hev).
  unfold wp. rewrite E. auto.
Qed.

Lemma io_ret {A} P (a : A) : io_call 0 P (ret a).
Proof.
  intros w. exists a, [], 0, 0%nat. rewrite after_nil. repeat split; try lia. constructor.
Qed.

Lemma io_bind {A B} c1 c2 P (m : M A) (f : A -> M B) :
  io_call c1 P m -> (forall a, io_call c2 P (f a)) -> io_call (c1 + c2) P (bind m f).
Proof.
  intros Hm Hf w. destruct (Hm w) as (a & ev1 & dt1 & k1 & E1 & Hd1 & He1).
  destruct (Hf a (after ev1 dt1 k1 w)) as (b & ev2 & dt2 & k2 & E2 & Hd2 & He2).
  exists b, (ev2 ++ ev1), (dt1 + dt2), (k2 + k1)%nat.
  unfold bind. rewrite E1, E2, after_after. repeat split; try lia.
  apply Forall_app; auto.
Qed.

Lemma io_weaken {A} c c' (P P' : Event -> Prop) (m : M A) :
  io_call c P m -> c <= c' -> (forall e, P e -> P' e) -> io_call c' P' m.
Proof.
  intros Hm Hc HP w. destruct (Hm w) as (a & ev & dt & k & E & Hd & He).
  exists a, ev, dt, k. repeat split; auto; try lia.
  eapply Forall_impl; [|exact He]. intros te; apply HP.
Qed.

Lemma wp_get f (Q : Z -> World -> Prop) QH QS w : Q (f w) w -> wp (get f) Q QH QS w.
Proof. exact (fun H => H). Qed.
Lemma wp_modify f (Q : unit -> World -> Prop) QH QS w : Q tt (f w) -> wp (modify f) Q QH QS w.
Proof. exact (fun H => H). Qed.
Lemma wp_ret {A} (a : A) (Q : A -> World -> Prop) QH QS w : Q a w -> wp (ret a) Q QH QS w.
Proof. exact (fun H => H). Qed.

(* ===================================================================== *)
(** ** Records of a shield activation *)
(* ===================================================================== *)

Lemma shield_values_quiet ev l :
  Forall (fun te : Z * Event => match snd te with ShieldsSet _ => False | _ => True end) ev ->
  shield_values (ev ++ l) = shield_values l.
Proof.
  induction 1 as [| [t e] ev He _ IH]; simpl; [reflexivity|].
  destruct e; simpl in He; auto; contradiction.
Qed.

Lemma Logged'_io tr0 f p h hh s tr ev n :
  Logged' tr0 f p h hh s tr ->
  Forall (fun te => shows n (snd te)) ev ->
  (f <= n <= p \/ n = h) ->
  Logged' tr0 f p h hh s (ev ++ tr).
Proof.
  intros (Hh & Hs & ev0 & E & Hok & Hch & Hhd) Hev Hn.
  split; [exact Hh|]. split; [exact Hs|].
  assert (Hq : shield_values (ev ++ ev0) = shield_values ev0).
  { apply shield_values_quiet. eapply Forall_impl; [|exact Hev].
    intros [t e] [-> | Hio]; simpl; auto; destruct e; simpl in *; auto; contradiction. }
  exists (ev ++ ev0). split; [rewrite E; apply app_assoc|].
  split.
  - apply Forall_app; split; [|exact Hok].
    eapply Forall_impl; [|exact Hev].
    intros [t e] [-> | Hio]; simpl; auto; destruct e; simpl in *; auto; contradiction.
  - rewrite Hq. auto.
Qed.

Lemma Logged'_pin tr0 f p h hh s tr ev :
  Logged' tr0 f p h hh s tr ->
  Forall (fun te => is_pin_io (snd te)) ev ->
  Logged' tr0 f p h hh s (ev ++ tr).
Proof.
  intros HL Hev. apply Logged'_io with (n := h); auto.
  eapply Forall_impl; [|exact Hev]. intros te Hio; right; exact Hio.
Qed.

Lemma Logged'_set tr0 f p h hh s tr t v :
  Logged' tr0 f p h hh s tr -> f <= v <= s ->
  Logged' tr0 f p h hh v ((t, ShieldsSet v) :: tr).
Proof.
  intros (Hh & Hs & ev0 & E & Hok & Hch & Hhd) Hv.
  split; [exact Hh|]. split; [lia|].
  exists ((t, ShieldsSet v) :: ev0). split; [rewrite E; reflexivity|].
  split; [constructor; [simpl; lia | exact Hok]|].
  simpl. split; [|reflexivity]. split; [|exact Hch]. rewrite <- Hhd. lia.
Qed.

Lemma Logged'_start tr0 f p h : f <= p -> Logged' tr0 f p h h p tr0.
Proof.
  intros Hfp. split; [reflexivity|]. split; [lia|].
  exists []. repeat split; simpl; auto.
Qed.

Lemma runs_ret {A} (a : A) : runs 0 0 [] (ret a).
Proof.
  intros w. exists a, [], 0, 0%nat. rewrite after_nil.
  repeat split; lia.
Qed.

Lemma runs_bind {A B} lo1 hi1 e1 lo2 hi2 e2 (m : M A) (f : A -> M B) :
  runs lo1 hi1 e1 m -> (forall a, runs lo2 hi2 e2 (f a)) ->
  runs (lo1 + lo2) (hi1 + hi2) (e2 ++ e1) (bind m f).
Proof.
  intros Hm Hf w. destruct (Hm w) as (a & ev1 & dt1 & k1 & E1 & Hd1 & He1).
  destruct (Hf a (after ev1 dt1 k1 w)) as (b & ev2 & dt2 & k2 & E2 & Hd2 & He2).
  exists b, (ev2 ++ ev1), (dt1 + dt2), (k2 + k1)%nat.
  unfold bind. rewrite E1, E2, after_after. repeat split; try lia.
  rewrite map_app, He1, He2. reflexivity.
Qed.

Lemma runs_weaken {A} lo hi e lo' hi' e' (m : M A) :
  runs lo hi e m -> lo' <= lo -> hi <= hi' -> e = e' -> runs lo' hi' e' m.
Proof.
  intros Hm Hlo Hhi <- w. destruct (Hm w) as (a & ev & dt & k & E & Hd & He).
  exists a, ev, dt, k. repeat split; auto; lia.
Qed.

Lemma runs_emit e : runs 0 0 [e] (modify (emit e)).
Proof.
  intros w. exists tt, [(now w, e)], 0, 0%nat. split.
  - unfold modify, emit, after; simpl. f_equal. f_equal. lia.
  - split; [lia | reflexivity].
Qed.

Lemma pin_level_app ev l p :
  pin_level (ev ++ l) p =
  match pin_written (map snd ev) p with
  | Some v => v
  | None => pin_level l p
  end.
Proof.
  induction ev as [| [t e] ev IH]; simpl; [reflexivity|].
  destruct e; auto. destruct (pin =? p); auto.
Qed.

(* ===================================================================== *)
(** ** Calls that cannot power the device down *)
(* ===================================================================== *)

Lemma stays_up_bind {A B} (m : M A) (f : A -> M B) :
  stays_up m -> (forall a, stays_up (f a)) -> stays_up (bind m f).
Proof.
  intros Hm Hf w. destruct (Hm w) as (Hh & (ev1 & E1 & F1) & T1).
  unfold bind. destruct (m w) as [a w1 | w1 | w1]; simpl in *.
  - destruct (Hf a w1) as (Hh2 & (ev2 & E2 & F2) & T2). split; [exact Hh2|].
    split; [|lia].
    exists (ev2 ++ ev1). rewrite E2, E1, app_assoc. split; [reflexivity|].
    apply Forall_app; auto.
  - discriminate.
  - split; [reflexivity|]. split; [|exact T1]. exists ev1. auto.
Qed.

Lemma stays_up_here {A} (r : A) : stays_up (ret r).
Proof.
  intros w. simpl. split; [reflexivity|]. split; [|lia].
  exists []. split; [reflexivity | constructor].
Qed.

Lemma stays_up_while fuel cond body :
  stays_up cond -> stays_up body -> stays_up (while fuel cond body).
Proof.
  intros Hc Hb. induction fuel as [|k IH].
  - intros w. simpl. split; [reflexivity|]. split; [|lia].
    exists []. split; [reflexivity | constructor].
  - simpl. apply stays_up_bind; [exact Hc|]. intros [|].
    + apply stays_up_bind; [exact Hb | intros _; exact IH].
    + apply stays_up_here.
Qed.

Lemma stays_up_io {A} c (P : Event -> Prop) (m : M A) :
  (forall e, P e -> e <> Sleep) -> io_call c P m -> stays_up m.
Proof.
  intros HP Hm w. destruct (Hm w) as (a & ev & dt & k & E & Hdt & F).
  rewrite E. simpl. split; [reflexivity|]. split; [|lia].
  exists ev. split; [reflexivity|].
  eapply Forall_impl; [|exact F]. intros te; apply HP.
Qed.

Lemma stays_up_step {A} (a : World -> A) (f : World -> World) ev :
  (forall w, trace (f w) = ev w ++ trace w) ->
  (forall w, Forall (fun te : Z * Event => snd te <> Sleep) (ev w)) ->
  (forall w, now w <= now (f w)) ->
  stays_up (fun w => Ret (a w) (f w)).
Proof.
  intros Ht Hev Hn w. simpl. split; [reflexivity|]. split; [|apply Hn].
  exists (ev w). auto.
Qed.

Lemma bind_spin {A B} (m : M A) (f : A -> M B) w w' :
  m w = Spin w' -> bind m f w = Spin w'.
Proof. intros E. unfold bind. rewrite E. reflexivity. Qed.

Lemma ticks_busy k n : ticks busy k n = Z.of_nat n.
Proof.
  revert k. induction n as [|n IH]; intros k; [reflexivity|].
  cbn [ticks busy]. rewrite IH. lia.
Qed.

(* ===================================================================== *)
(** ** The range invariant *)
(* ===================================================================== *)








Arguments jit : simpl never.

Lemma jit_range jitter k : 0 <= jit jitter k <= 1.
Proof. unfold jit. destruct (jitter k); lia. Qed.

(** Bring the bounds of every jitter term of the goal into the context. *)
Ltac jits :=
  repeat match goal with
  | |- context [jit ?j ?k] =>
      lazymatch goal with
      | _ : 0 <= jit j k <= 1 |- _ => fail
      | _ => pose proof (jit_range j k)
      end
  | _ : context [jit ?j ?k] |- _ =>
      lazymatch goal with
      | _ : 0 <= jit j k <= 1 |- _ => fail
      | _ => pose proof (jit_range j k)
      end
  end.

(** Reduce the projections of an explicitly built world. *)
Ltac wsimpl :=
  cbn [now ops eeprom health shields_remaining shield_timing startup_timeout
       timeout_max trace tick count_op elapse emit after store boot
       put_health put_shields put_shield_timing put_startup_timeout
       put_timeout_max load_health load_shields].

Ltac wsimpl_in H :=
  cbn [now ops eeprom health shields_remaining shield_timing startup_timeout
       timeout_max trace tick count_op elapse emit after store boot
       put_health put_shields put_shield_timing put_startup_timeout
       put_timeout_max load_health load_shields] in H.

(** Case analysis on the test of a conditional about to be run. *)
Ltac wp_if :=
  lazymatch goal with
  | |- wp (if ?a <=? ?b then _ else _) _ _ _ _ => destruct (Z.leb_spec a b)
  | |- wp (if ?a <? ?b then _ else _) _ _ _ _ => destruct (Z.ltb_spec a b)
  | |- wp (if ?a >? ?b then _ else _) _ _ _ _ => destruct (Z.gtb_spec a b)
  | |- wp (if ?a =? ?b then _ else _) _ _ _ _ => destruct (Z.eqb_spec a b)
  | |- wp (if ?c then _ else _) _ _ _ _ => destruct c eqn:?
  end.

(* ===================================================================== *)
(** ** Primitive calls and the subroutines built from them *)
(* ===================================================================== *)

Section Proofs.

Variable level : Z -> Z -> bool.
Variable jitter : nat -> bool.

Lemma io_emit_tick (P : Event -> Prop) e {A} (a : A) :
  P e -> io_call 1 P (fun w => Ret a (tick jitter (emit e w))).
Proof.
  intros He w. exists a, [(now w, e)], (jit jitter (ops w)), 1%nat.
  split; [reflexivity|]. split; [apply (jit_range jitter)|]. repeat constructor. exact He.
Qed.

Lemma io_digitalWrite P p v : (forall b, P (DigitalWrite p b)) -> io_call 1 P (digitalWrite jitter p v).
Proof. intros H. apply io_emit_tick. apply H. Qed.

Lemma io_digitalRead P p : (forall b, P (DigitalRead p b)) -> io_call 1 P (digitalRead level jitter p).
Proof.
  intros H w. exists (level p (now w)), [(now w, DigitalRead p (level p (now w)))], (jit jitter (ops w)), 1%nat.
  split; [reflexivity|]. split; [apply (jit_range jitter)|]. repeat constructor. apply H.
Qed.

Lemma io_delay P n : 0 <= n -> P (Delay n) -> io_call (n + 1) P (delay jitter n).
Proof.
  intros Hn H w. exists tt, [(now w, Delay n)], (n + jit jitter (ops w)), 1%nat.
  split. { unfold delay, tick, after, count_op, elapse, emit; simpl. f_equal. f_equal. lia. }
  pose proof (jit_range jitter (ops w)). split; [lia|]. repeat constructor. exact H.
Qed.

Ltac io_solve :=
  lazymatch goal with
  | |- io_call _ _ (bind _ _) => eapply io_bind; [io_solve | intros ?; io_solve]
  | |- io_call _ _ (digitalWrite _ _ _) => apply io_digitalWrite; simpl; auto
  | |- io_call _ _ (digitalRead _ _ _) => apply io_digitalRead; simpl; auto
  | |- io_call _ _ (delay _ _) => apply io_delay; [lia | simpl; auto]
  | |- io_call _ _ (ret _) => apply io_ret
  | |- io_call _ _ skip => apply io_ret
  | |- io_call _ _ (if ?b then _ else _) =>
      eapply io_weaken with (c' := _);
      [destruct b; io_solve | | intros ? HH; exact HH]
  end.

Lemma io_button_is_pressed p : io_call 58 is_pin_io (button_is_pressed level jitter p).
Proof.
  unfold button_is_pressed.
  eapply io_weaken with (P := is_pin_io); [| | auto].
  - apply io_bind; [apply io_digitalRead; simpl; auto |].
    intros [|].
    + apply (io_bind 56 (1 + 0)); [apply (io_delay _ 55); simpl; auto; lia |].
      intros _. apply io_bind; [apply io_digitalRead; simpl; auto |].
      intros [|]; apply io_ret.
    + apply io_weaken with (c := 0) (P := is_pin_io); [apply io_ret | lia | auto].
  - lia.
Qed.

Lemma io_segments P (f g : Z -> Z) :
  (forall p b, P (DigitalWrite p b)) ->
  io_call 14 P (for_each seven (fun i =>
     digitalWrite jitter (idx pinMap_digit1 i) (f i) ;;
     digitalWrite jitter (idx pinMap_digit2 i) (g i))).
Proof.
  intros HP. unfold seven, for_each.
  eapply io_weaken with (P := P); [io_solve | lia | auto].
Qed.

Lemma io_modify_emit P e : P e -> io_call 0 P (modify (emit e)).
Proof.
  intros He w. exists tt, [(now w, e)], 0, 0%nat. split.
  - unfold modify, emit, after; simpl. f_equal. f_equal. lia.
  - split; [lia|]. repeat constructor. exact He.
Qed.

Lemma io_display_num n : io_call 14 (shows n) (display_num jitter n).
Proof.
  unfold display_num.
  eapply io_weaken with (c := 0 + 14) (P := shows n); [| lia | auto].
  apply io_bind; [apply io_modify_emit; left; reflexivity |].
  intros _. apply io_segments. intros; right; exact I.
Qed.

Lemma wp_millis (Q : Z -> World -> Prop) QH QS w :
  Q (u32 (now w)) (tick jitter w) -> wp (millis jitter) Q QH QS w.
Proof. exact (fun H => H). Qed.

Ltac wp_step :=
  cbv beta;
  lazymatch goal with
  | |- wp (bind _ _) _ _ _ _ => apply wp_bind
  | |- wp (millis _) _ _ _ _ => apply wp_millis
  | |- wp (get _) _ _ _ _ => apply wp_get
  | |- wp (modify _) _ _ _ _ => apply wp_modify
  | |- wp (ret _) _ _ _ _ => apply wp_ret
  | |- wp skip _ _ _ _ => apply wp_ret
  | |- wp (display_num _ _) _ _ _ _ =>
      let ev := fresh "ev" in let dt := fresh "dt" in let k := fresh "k" in
      let Hdt := fresh "Hdt" in let Hev := fresh "Hev" in
      eapply wp_io; [apply io_display_num | intros _ ev dt k Hdt Hev]
  | |- wp (button_is_pressed _ _ _) _ _ _ _ =>
      let b := fresh "b" in
      let ev := fresh "ev" in let dt := fresh "dt" in let k := fresh "k" in
      let Hdt := fresh "Hdt" in let Hev := fresh "Hev" in
      eapply wp_io; [apply io_button_is_pressed | intros b ev dt k Hdt Hev]
  end.

Ltac unwrap :=
  repeat match goal with
  | |- context [u32 ?x] => rewrite (u32_id x) by lia
  | |- context [s32 ?x] => rewrite (s32_id x) by lia
  | |- context [s16 ?x] => rewrite (s16_id x) by lia
  | |- context [?x / 999] => rewrite (div999_one x) by lia
  | |- context [?x / 999] => rewrite (div999_small x) by lia
  end.

Ltac unwrap_in H :=
  repeat match type of H with
  | context [u32 ?x] => rewrite (u32_id x) in H by lia
  | context [s32 ?x] => rewrite (s32_id x) in H by lia
  | context [s16 ?x] => rewrite (s16_id x) in H by lia
  | context [?x / 999] => rewrite (div999_one x) in H by lia
  | context [?x / 999] => rewrite (div999_small x) in H by lia
  end.

Lemma wp_update_shield w0 f p d w QH QS :
  0 <= f -> p <= 32767 -> 0 <= d <= 900 ->
  (now w < horizon -> Logged w0 f p w /\ Timed f d w /\ f < shields_remaining w) ->
  wp (update_shield jitter)
     (fun _ w' => now w' < horizon -> Logged w0 f p w' /\ Timed f 0 w') QH QS w.
Proof.
  intros Hf Hp Hd Hpre. unfold update_shield.
  repeat wp_step. cbn [shield_timing tick count_op elapse].
  lazymatch goal with |- wp (if ?c then _ else _) _ _ _ _ => destruct c eqn:C end.
  - repeat wp_step. cbn -[Z.sub Z.add Z.div horizon] in Hev |- *.
    intros Hh. jits. unfold horizon in *.
    assert (Hw : now w < 2 ^ 30) by lia.
    destruct (Hpre Hw) as ((Hm & HL) & (Ht1 & Ht2 & Ht3) & Hs).
    pose proof HL as (_ & Hsp & _).
    unwrap_in C. apply Z.leb_le in C.
    unfold Logged, Timed. cbn -[Z.sub Z.add Z.div]. unwrap. unwrap_in Hev.
    split; [split; [lia|] | lia].
    apply Logged'_io with (n := shields_remaining w - 1); [| exact Hev | left; lia].
    apply Logged'_set with (s := shields_remaining w); [exact HL | lia].
  - wp_step. cbn -[Z.sub Z.add Z.div horizon].
    intros Hh. jits. unfold horizon in *.
    assert (Hw : now w < 2 ^ 30) by lia.
    destruct (Hpre Hw) as ((Hm & HL) & (Ht1 & Ht2 & Ht3) & Hs).
    unwrap_in C. apply Z.leb_gt in C.
    unfold Logged, Timed. cbn -[Z.sub Z.add Z.div].
    split; [split; [lia | exact HL] | lia].
Qed.

Lemma wp_held_above want m (Q : bool -> World -> Prop) QH QS w :
  (forall b ev dt k, 0 <= dt <= 58 ->
     Forall (fun te => is_pin_io (snd te)) ev ->
     (b = true -> m < shields_remaining w) ->
     Q b (after ev dt k w)) ->
  wp (held_above level jitter want m) Q QH QS w.
Proof.
  intros HQ. unfold held_above. repeat wp_step.
  destruct (Bool.eqb b want).
  - repeat wp_step. apply HQ; auto. cbn. intros Hb. apply Z.gtb_lt in Hb. lia.
  - wp_step. apply HQ; auto. discriminate.
Qed.

Lemma Act_after w0 f p d c ev dt k w :
  Act w0 f p d w -> 0 <= dt <= c ->
  Forall (fun te => is_pin_io (snd te)) ev ->
  Act w0 f p (d + c) (after ev dt k w).
Proof.
  unfold Act, Logged, Timed, horizon. cbn -[Z.sub Z.add].
  intros HA Hdt Hev Hh. destruct HA as ((Hm & HL) & Ht); [lia|].
  split; [split; [lia | apply Logged'_pin; auto] | lia].
Qed.

Lemma Fin_after w0 f p ev dt k w :
  Fin w0 f p w -> 0 <= dt ->
  Forall (fun te => is_pin_io (snd te)) ev ->
  Fin w0 f p (after ev dt k w).
Proof.
  unfold Fin, Logged, horizon. cbn -[Z.sub Z.add].
  intros HA Hdt Hev Hh. destruct HA as (Hm & HL); [lia|].
  split; [lia | apply Logged'_pin; auto].
Qed.

Lemma Act_Fin w0 f p d w : Act w0 f p d w -> Fin w0 f p w.
Proof. intros HA Hh. apply HA, Hh. Qed.

Lemma Act_weaken w0 f p d d' w : d <= d' -> Act w0 f p d w -> Act w0 f p d' w.
Proof.
  unfold Act, Timed. intros Hd HA Hh. destruct (HA Hh) as (HL & Ht).
  split; [exact HL | lia].
Qed.

(** Both countdown loops of [shield_handler]: from an anchor at most
    [999 + d] ms old to one at most [999 + d + 58] ms old. *)
Lemma wp_shield_countdown w0 f p d fuel want w QH QS :
  0 <= f -> p <= 32767 -> 0 <= d <= 842 ->
  (forall w', Fin w0 f p w' -> QS w') ->
  Act w0 f p d w ->
  wp (while fuel (held_above level jitter want f) (update_shield jitter))
     (fun _ w' => Act w0 f p (d + 58) w') QH QS w.
Proof.
  intros Hf Hp Hd HS HA.
  apply wp_while with (I := Act w0 f p d); [| | exact HA].
  - intros w1 H1. apply HS. eapply Act_Fin, H1.
  - intros w1 H1. apply wp_held_above. intros b ev dt k Hdt Hev Hb.
    destruct b.
    + eapply wp_post;
        [apply (wp_update_shield w0 f p (d + 58)); auto; try lia |].
      * intros Hh.
        pose proof (Act_after _ _ _ _ 58 _ _ k _ H1 Hdt Hev Hh) as (HL & HT).
        split; [exact HL|]. split; [exact HT|]. cbn. auto.
      * intros u w2 H2. cbv beta in H2.
        apply Act_weaken with (d := 0); [lia | exact H2].
    + apply (Act_after _ _ _ _ 58); auto.
Qed.

(** The third loop: waiting for the release changes no variable. *)
Lemma wp_wait_release w0 f p fuel want w (Q : unit -> World -> Prop) QH QS :
  (forall w', Fin w0 f p w' -> QS w') ->
  (forall w', Fin w0 f p w' -> Q tt w') ->
  Fin w0 f p w ->
  wp (while fuel (held_above level jitter want f) skip) Q QH QS w.
Proof.
  intros HS HQ HF.
  apply wp_while with (I := Fin w0 f p); [exact HS | | exact HF].
  intros w1 H1. apply wp_held_above. intros b ev dt k Hdt Hev Hb.
  assert (H2 : Fin w0 f p (after ev dt k w1)) by (apply Fin_after; auto; lia).
  destruct b; [wp_step; exact H2 | apply HQ, H2].
Qed.

(** Line 504, "ensure an accurate shield count". *)
Lemma Fin_recount w0 f p w :
  0 <= f -> p <= 32767 -> Act w0 f p 116 w ->
  Fin w0 f p
    (put_shields
       (s16 (u32 (shields_remaining w -
                  u32 (u32 (now w) - shield_timing w) / 999)))
       (tick jitter w)).
Proof.
  intros Hf Hp HA. unfold Fin, horizon. cbn -[Z.sub Z.add Z.div].
  intros Hh. jits.
  destruct HA as ((Hm & HL) & Ht1 & Ht2 & Ht3); [unfold horizon; lia|].
  pose proof HL as (_ & Hsp & _).
  unfold Logged. cbn -[Z.sub Z.add Z.div]. split; [lia|].
  apply Logged'_set with (s := shields_remaining w); [exact HL|].
  destruct (Z.lt_ge_cases (now w - shield_timing w) 999) as [Hlt | Hge].
  - unwrap. lia.
  - assert (shields_remaining w <> f) by lia. unwrap. lia.
Qed.

Lemma shield_handler_logged fuel w0 :
  0 <= now w0 -> 0 <= shields_remaining w0 <= 32767 ->
  wp (shield_handler level jitter fuel)
     (fun _ => Fin w0 (Z.max (shields_remaining w0 - 10) 0) (shields_remaining w0))
     (Fin w0 (Z.max (shields_remaining w0 - 10) 0) (shields_remaining w0))
     (Fin w0 (Z.max (shields_remaining w0 - 10) 0) (shields_remaining w0)) w0.
Proof.
  intros Hnow Hp.
  set (p := shields_remaining w0) in *. set (f := Z.max (p - 10) 0).
  assert (Hf : 0 <= f <= p) by lia.
  assert (H0 : Logged w0 f p w0)
    by (split; [lia | apply Logged'_start; lia]).
  unfold shield_handler. repeat wp_step. destruct b.
  - repeat wp_step. cbn -[Z.sub Z.add Z.div horizon Z.gtb] in Hev0 |- *.
    fold p in Hev0 |- *.
    assert (Hmin : (if s16 (p - 10) >? 0 then s16 (p - 10) else 0) = f).
    { rewrite s16_id by lia. destruct (Z.gtb_spec (p - 10) 0); lia. }
    rewrite Hmin.
    eapply wp_post;
      [apply wp_shield_countdown with (w0 := w0) (p := p) (d := 0);
       auto; try lia |].
    { unfold Act, Logged, Timed, horizon. cbn -[Z.sub Z.add Z.div].
      intros Hh. jits. unwrap. split; [split; [lia|] | lia].
      apply Logged'_io with (n := p); [| exact Hev0 | left; lia].
      apply Logged'_pin; [apply H0 | exact Hev]. }
    intros u w1 H1. cbv beta in H1. wp_step.
    eapply wp_post;
      [apply wp_shield_countdown with (w0 := w0) (p := p) (d := 58);
       auto; try lia |].
    intros u' w2 H2. cbv beta in H2. repeat wp_step.
    apply wp_wait_release with (w0 := w0) (p := p); auto.
    + intros w3 H3. repeat wp_step.
      lazymatch goal with
      | |- wp (if ?c then _ else _) _ _ _ _ => destruct c eqn:C
      end.
      * wp_step. cbn in C. apply Z.gtb_lt in C.
        unfold Fin, horizon. cbn -[Z.sub Z.add Z.div]. intros Hh.
        assert (HL : Logged w0 f p w3) by (apply H3; unfold horizon; lia).
        destruct HL as (Hm & HL). pose proof HL as (Hhh & Hsp & _).
        unfold Logged. cbn -[Z.sub Z.add Z.div]. unwrap. split; [lia|].
        apply Logged'_set with (s := shields_remaining w3); [|lia].
        apply Logged'_io with (n := health w3);
          [exact HL | exact Hev1 | right; exact Hhh].
      * wp_step.
        unfold Fin, horizon. cbn -[Z.sub Z.add Z.div]. intros Hh.
        assert (HL : Logged w0 f p w3) by (apply H3; unfold horizon; lia).
        destruct HL as (Hm & HL). pose proof HL as (Hhh & Hsp & _).
        unfold Logged. cbn -[Z.sub Z.add Z.div]. split; [lia|].
        apply Logged'_io with (n := health w3);
          [exact HL | exact Hev1 | right; exact Hhh].
    + apply (Fin_recount w0 f p w2); auto; lia.
  - wp_step. apply Fin_after; auto; [|lia]. intros _. exact H0.
Qed.

Lemma runs_digitalWrite p v :
  runs 0 1 [DigitalWrite p (negb (v =? 0))] (digitalWrite jitter p v).
Proof.
  intros w.
  exists tt, [(now w, DigitalWrite p (negb (v =? 0)))], (jit jitter (ops w)), 1%nat.
  split; [reflexivity|]. split; [apply (jit_range jitter) | reflexivity].
Qed.

Lemma runs_delay n : 0 <= n -> runs n (n + 1) [Delay n] (delay jitter n).
Proof.
  intros Hn w. exists tt, [(now w, Delay n)], (n + jit jitter (ops w)), 1%nat.
  split.
  { unfold delay, tick, after, count_op, elapse, emit; simpl.
    f_equal. f_equal. lia. }
  pose proof (jit_range jitter (ops w)). split; [lia | reflexivity].
Qed.

Ltac runs_solve :=
  lazymatch goal with
  | |- runs _ _ _ (bind _ _) => eapply runs_bind; [runs_solve | intros ?; runs_solve]
  | |- runs _ _ _ (digitalWrite _ _ _) => apply runs_digitalWrite
  | |- runs _ _ _ (delay _ _) => apply runs_delay; lia
  | |- runs _ _ _ (modify (emit _)) => apply runs_emit
  | |- runs _ _ _ (ret _) => apply runs_ret
  | |- runs _ _ _ skip => apply runs_ret
  end.

(** The fourteen writes of the three display loops of the sketch. *)
Lemma runs_segments (f g : Z -> Z) :
  runs 0 14
    (rev (flat_map (fun i => [DigitalWrite (idx pinMap_digit1 i) (negb (f i =? 0));
                              DigitalWrite (idx pinMap_digit2 i) (negb (g i =? 0))])
                   seven))
    (for_each seven (fun i =>
       digitalWrite jitter (idx pinMap_digit1 i) (f i) ;;
       digitalWrite jitter (idx pinMap_digit2 i) (g i))).
Proof.
  unfold seven, for_each.
  eapply runs_weaken; [runs_solve | lia | lia | reflexivity].
Qed.

(* ===================================================================== *)
(** ** The renderer *)
(* ===================================================================== *)

Lemma bit_of_shift a i :
  0 <= i -> negb (Z.land (Z.shiftr a i) 1 =? 0) = Z.testbit a i.
Proof.
  intros Hi. change 1 with (Z.ones 1). rewrite Z.land_ones by lia.
  change (2 ^ 1) with 2.
  rewrite <- Z.bit0_mod, Z.shiftr_spec by lia. rewrite Z.add_0_l.
  destruct (Z.testbit a i); reflexivity.
Qed.

Lemma bcd_of_digits n :
  0 <= n <= 99 ->
  bcd_of n = n / 10 * 16 + n mod 10 /\
  Z.land (Z.shiftr (bcd_of n) 4) 15 = n / 10 /\
  Z.land (bcd_of n) 15 = n mod 10.
Proof.
  intros Hn.
  assert (Hq : 0 <= n / 10 < 10).
  { split; [apply Z.div_pos; lia | apply Z.div_lt_upper_bound; lia]. }
  assert (Hr : 0 <= n mod 10 < 10) by (apply Z.mod_pos_bound; lia).
  assert (E : bcd_of n = n / 10 * 16 + n mod 10).
  { unfold bcd_of. rewrite Z.quot_div_nonneg, Z.rem_mod_nonneg by lia.
    apply s16_id. lia. }
  split; [exact E|]. rewrite E.
  change 15 with (Z.ones 4). rewrite !Z.land_ones by lia.
  rewrite Z.shiftr_div_pow2 by lia. change (2 ^ 4) with 16.
  rewrite Z.div_add_l by lia. rewrite (Z.div_small (n mod 10)) by lia.
  rewrite Z.add_0_r. split; [apply Z.mod_small; lia|].
  rewrite Z.add_comm, Z.mod_add by lia. apply Z.mod_small. lia.
Qed.

Lemma digit_writes_bits a b :
  flat_map (fun i => [DigitalWrite (idx pinMap_digit1 i)
                        (negb (Z.land (Z.shiftr a i) 1 =? 0));
                      DigitalWrite (idx pinMap_digit2 i)
                        (negb (Z.land (Z.shiftr b i) 1 =? 0))]) seven
  = digit_writes a b.
Proof.
  unfold digit_writes, seven. cbn [flat_map app].
  rewrite !bit_of_shift by lia. reflexivity.
Qed.

Lemma runs_display_num n :
  runs 0 14
    (rev (digit_writes (idx seg_array (Z.land (Z.shiftr (bcd_of n) 4) 15))
                       (idx seg_array (Z.land (bcd_of n) 15))) ++ [Shown n])
    (display_num jitter n).
Proof.
  unfold display_num. cbv zeta.
  eapply runs_weaken;
    [eapply runs_bind; [apply runs_emit | intros _; apply runs_segments]
    | lia | lia |].
  cbv beta.
  rewrite (digit_writes_bits
             (idx seg_array (Z.land (Z.shiftr (bcd_of n) 4) 15))
             (idx seg_array (Z.land (bcd_of n) 15))).
  reflexivity.
Qed.

Lemma pin_written_digits a b i :
  0 <= i < 7 ->
  pin_written (rev (digit_writes a b)) (idx pinMap_digit1 i) = Some (Z.testbit a i) /\
  pin_written (rev (digit_writes a b)) (idx pinMap_digit2 i) = Some (Z.testbit b i).
Proof.
  intros Hi.
  assert (Hc : i = 0 \/ i = 1 \/ i = 2 \/ i = 3 \/ i = 4 \/ i = 5 \/ i = 6)
    by lia.
  destruct Hc as [-> | [-> | [-> | [-> | [-> | [-> | ->]]]]]];
    split; reflexivity.
Qed.

(** The table of the sketch against the standard encoding: the entries of
    the digits 0 to 8 are the standard patterns, the entry of 9 is the
    standard 9 without segment D. *)
Lemma seg_array_drawn d : 0 <= d <= 9 -> idx seg_array d = drawn_pattern d.
Proof.
  intros Hd.
  assert (Hc : d = 0 \/ d = 1 \/ d = 2 \/ d = 3 \/ d = 4 \/ d = 5 \/ d = 6 \/
               d = 7 \/ d = 8 \/ d = 9) by lia.
  destruct Hc as [-> | [-> | [-> | [-> | [-> | [-> | [-> | [-> | [-> | ->]]]]]]]]];
    reflexivity.
Qed.

(** C4 (as the code has it). For every n in [0,99], display_num n packs n
    as the BCD value (n/10)*16 + n%10 and then makes exactly fourteen
    writes: for i = 0..6, bit i of the pattern of the tens digit to entry i
    of pinMap_digit1 and bit i of the pattern of the units digit to entry i
    of pinMap_digit2; afterwards the fourteen lines carry those bits.  The
    pattern of a digit is the standard seven-segment pattern for the digits
    0 to 8; for 9 it is the standard pattern without the bottom segment D
    (0x67 instead of 0x6F). *)
Theorem display_num_renders n w :
  0 <= n <= 99 ->
  bcd_of n = n / 10 * 16 + n mod 10 /\
  exists w',
    display_num jitter n w = Ret tt w' /\
    rev (map snd (trace w')) =
      rev (map snd (trace w)) ++
      Shown n :: digit_writes (drawn_pattern (n / 10)) (drawn_pattern (n mod 10)) /\
    forall i, 0 <= i < 7 ->
      pin_level (trace w') (idx pinMap_digit1 i)
        = Z.testbit (drawn_pattern (n / 10)) i /\
      pin_level (trace w') (idx pinMap_digit2 i)
        = Z.testbit (drawn_pattern (n mod 10)) i.
Proof.
  intros Hn. destruct (bcd_of_digits n Hn) as (E & E1 & E2).
  split; [exact E|].
  assert (Hq : 0 <= n / 10 <= 9).
  { split; [apply Z.div_pos; lia |].
    assert (n / 10 < 10) by (apply Z.div_lt_upper_bound; lia). lia. }
  assert (Hr : 0 <= n mod 10 <= 9)
    by (pose proof (Z.mod_pos_bound n 10 ltac:(lia)); lia).
  rewrite <- (seg_array_drawn _ Hq), <- (seg_array_drawn _ Hr).
  destruct (runs_display_num n w) as ([] & ev & dt & k & Erun & _ & Hev).
  rewrite E1, E2 in Hev.
  exists (after ev dt k w). split; [exact Erun|].
  cbn [trace after]. split.
  - rewrite map_app, rev_app_distr, Hev, rev_app_distr, rev_involutive.
    reflexivity.
  - intros i Hi. rewrite !pin_level_app, Hev.
    destruct (pin_written_digits (idx seg_array (n / 10))
                (idx seg_array (n mod 10)) i Hi) as (P1 & P2).
    assert (Hpw : forall l p v, pin_written l p = Some v ->
                  pin_written (l ++ [Shown n]) p = Some v).
    { induction l as [| e l IH]; simpl; [discriminate|].
      intros p v. destruct e; auto. destruct (pin =? p); auto. }
    rewrite (Hpw _ _ _ P1), (Hpw _ _ _ P2). split; reflexivity.
Qed.

(* ===================================================================== *)
(** ** The shield countdown *)
(* ===================================================================== *)


(* ===================================================================== *)
(** ** The debounced input *)
(* ===================================================================== *)

(** C7. button_is_pressed samples the line at the time t0 of the call and,
    only when that sample is asserted, a second time at t1, which is the
    55 ms of the delay (and at most 2 ms of jitter) later; it returns true
    exactly when both samples are asserted.  Hence a single pulse shorter
    than 55 ms is never reported, a level held from t0 through t0 + 57 ms
    always is, and when the first sample is not asserted the call returns
    false after that one read, without calling delay. *)
Theorem button_is_pressed_debounce button w :
  let t0 := now w in
  let t1 := now w + jit jitter (ops w) + 55 + jit jitter (S (ops w)) in
  let r := button_is_pressed level jitter button w in
  55 <= t1 - t0 <= 57 /\
  returned r = Some (level button t0 && level button t1) /\
  (level button t0 = false ->
     exists w', r = Ret false w' /\
       trace w' = (now w, DigitalRead button false) :: trace w /\
       now w' <= now w + 1) /\
  (forall a b, b - a < 55 ->
     (forall t, level button t = true -> a <= t < b) ->
     returned r = Some false) /\
  ((forall t, t0 <= t <= t0 + 57 -> level button t = true) ->
     returned r = Some true).
Proof.
  intros t0 t1 r.
  pose proof (jit_range jitter (ops w)) as J0.
  pose proof (jit_range jitter (S (ops w))) as J1.
  assert (Ht : 55 <= t1 - t0 <= 57) by (unfold t0, t1; lia).
  assert (Hr : returned r = Some (level button t0 && level button t1)).
  { unfold r, button_is_pressed, bind, digitalRead, delay. fold t0.
    destruct (level button t0); [|reflexivity].
    cbn [now tick count_op elapse emit ops]. fold t1.
    destruct (level button t1); reflexivity. }
  split; [exact Ht|]. split; [exact Hr|]. split; [|split].
  - intros H0. unfold r, button_is_pressed, bind, digitalRead. fold t0.
    rewrite H0. eexists. split; [reflexivity|].
    cbn [now trace tick count_op elapse emit ops]. split; [reflexivity | lia].
  - intros a b Hab Hpulse. rewrite Hr.
    destruct (level button t0) eqn:L0; [|reflexivity].
    destruct (level button t1) eqn:L1; [|reflexivity].
    apply Hpulse in L0. apply Hpulse in L1. lia.
  - intros Hheld. rewrite Hr.
    rewrite (Hheld t0), (Hheld t1) by lia. reflexivity.
Qed.

(* ===================================================================== *)
(** ** Number entry: the increments *)
(* ===================================================================== *)

Lemma inc_health_unfold w :
  inc_health jitter w =
  let v := if health w <? 99 then s16 (health w + 1) else 1 in
  display_num jitter v (put_health v w).
Proof.
  unfold inc_health, bind, get, modify. destruct (health w <? 99); reflexivity.
Qed.

Lemma inc_shield_unfold w :
  inc_shield jitter w =
  let v := if shields_remaining w <? 99 then s16 (shields_remaining w + 1) else 1 in
  display_num jitter v (put_shields v w).
Proof.
  unfold inc_shield, bind, get, modify.
  destruct (shields_remaining w <? 99); reflexivity.
Qed.

(** C10. From any non-negative value of the counter, inc_health (and
    likewise inc_shield) returns with the counter in [1,99]; from 0 the
    result is 1, and so 100 is never reached. *)
Theorem inc_stays_in_range w :
  0 <= health w -> 0 <= shields_remaining w ->
  (exists w', inc_health jitter w = Ret tt w' /\
     1 <= health w' <= 99 /\ (health w = 0 -> health w' = 1)) /\
  (exists w', inc_shield jitter w = Ret tt w' /\
     1 <= shields_remaining w' <= 99 /\
     (shields_remaining w = 0 -> shields_remaining w' = 1)).
Proof.
  intros Hh Hs. split.
  - rewrite inc_health_unfold. cbv zeta.
    set (v := if health w <? 99 then s16 (health w + 1) else 1).
    assert (Hv : 1 <= v <= 99 /\ (health w = 0 -> v = 1)).
    { unfold v. destruct (Z.ltb_spec (health w) 99).
      - rewrite s16_id by lia. lia.
      - lia. }
    destruct (runs_display_num v (put_health v w))
      as ([] & ev & dt & k & E & _ & _).
    exists (after ev dt k (put_health v w)). split; [exact E|]. exact Hv.
  - rewrite inc_shield_unfold. cbv zeta.
    set (v := if shields_remaining w <? 99
              then s16 (shields_remaining w + 1) else 1).
    assert (Hv : 1 <= v <= 99 /\ (shields_remaining w = 0 -> v = 1)).
    { unfold v. destruct (Z.ltb_spec (shields_remaining w) 99).
      - rewrite s16_id by lia. lia.
      - lia. }
    destruct (runs_display_num v (put_shields v w))
      as ([] & ev & dt & k & E & _ & _).
    exists (after ev dt k (put_shields v w)). split; [exact E|]. exact Hv.
Qed.

(* ===================================================================== *)
(** ** The persistent store *)
(* ===================================================================== *)

Lemma u8_id x : 0 <= x < 256 -> u8 x = x.
Proof. intros H. unfold u8. apply Z.mod_small. lia. Qed.


(** C5. Writing H and S (both in [0,99]) to the two EEPROM slots and then
    running the boot-time load of advanced mode leaves the slots holding
    (H,S) and makes them the values of health and shields_remaining; and
    whenever either slot reads back above 99, the load rewrites both slots
    to 30 and 10 and sets health = 30 and shields_remaining = 10. *)
Theorem settings_round_trip H S w :
  0 <= H <= 99 -> 0 <= S <= 99 ->
  (exists w',
     (EEPROM_write jitter ADVANCED_HEALTH_ADDRESS H ;;
      EEPROM_write jitter ADVANCED_SHIELD_ADDRESS S ;;
      load_settings jitter) w = Ret tt w' /\
     health w' = H /\ shields_remaining w' = S /\
     eeprom w' ADVANCED_HEALTH_ADDRESS = H /\
     eeprom w' ADVANCED_SHIELD_ADDRESS = S) /\
  (forall w0,
     99 < u8 (eeprom w0 ADVANCED_HEALTH_ADDRESS) \/
     99 < u8 (eeprom w0 ADVANCED_SHIELD_ADDRESS) ->
     exists w',
       load_settings jitter w0 = Ret tt w' /\
       health w' = 30 /\ shields_remaining w' = 10 /\
       eeprom w' ADVANCED_HEALTH_ADDRESS = 30 /\
       eeprom w' ADVANCED_SHIELD_ADDRESS = 10).
Proof.
  intros HH HS. split.
  - eexists. split.
    + unfold load_settings, EEPROM_write, EEPROM_read, bind, modify.
      cbn [eeprom tick count_op elapse emit store put_health put_shields
           load_health load_shields
           ADVANCED_HEALTH_ADDRESS ADVANCED_SHIELD_ADDRESS Z.eqb Pos.eqb].
      rewrite !(u8_id H), !(u8_id S) by lia.
      replace (H >? 99) with false
        by (symmetry; rewrite Z.gtb_ltb; apply Z.ltb_ge; lia).
      replace (S >? 99) with false
        by (symmetry; rewrite Z.gtb_ltb; apply Z.ltb_ge; lia).
      cbn [orb]. reflexivity.
    + cbn. auto.
  - intros w0 Hbig. eexists. split.
    + unfold load_settings, EEPROM_write, EEPROM_read, bind, modify.
      cbn [eeprom tick count_op elapse emit store put_health put_shields
           load_health load_shields].
      replace ((u8 (eeprom w0 ADVANCED_HEALTH_ADDRESS) >? 99)
               || (u8 (eeprom w0 ADVANCED_SHIELD_ADDRESS) >? 99)) with true.
      * reflexivity.
      * symmetry. apply orb_true_iff.
        destruct Hbig; [left | right]; apply Z.gtb_lt; lia.
    + cbn. auto.
Qed.

(* ===================================================================== *)
(** ** Advanced mode has no timeout *)
(* ===================================================================== *)

Lemma stays_up_button p : stays_up (button_is_pressed level jitter p).
Proof.
  apply (stays_up_io 58 is_pin_io); [|apply io_button_is_pressed].
  intros e He ->. exact He.
Qed.

Lemma stays_up_display n : stays_up (display_num jitter n).
Proof.
  apply (stays_up_io 14 (shows n)); [|apply io_display_num].
  intros e [-> | He]; [discriminate | intros ->; exact He].
Qed.

Lemma stays_up_quiet {A} (a : World -> A) (f : World -> World) :
  (forall w, trace (f w) = trace w) -> (forall w, now w <= now (f w)) ->
  stays_up (fun w => Ret (a w) (f w)).
Proof.
  intros Ht Hn. apply stays_up_step with (ev := fun _ => []);
    [exact Ht | intros; constructor | exact Hn].
Qed.

Lemma stays_up_logging {A} (a : World -> A) (f : World -> World) e :
  e <> Sleep -> (forall w, trace (f w) = (now w, e) :: trace w) ->
  (forall w, now w <= now (f w)) ->
  stays_up (fun w => Ret (a w) (f w)).
Proof.
  intros He Ht Hn. apply stays_up_step with (ev := fun w => [(now w, e)]);
    [exact Ht | intros; repeat constructor; exact He | exact Hn].
Qed.

(** The clock side condition of the two lemmas above. *)
Ltac clock_on := intros; wsimpl; jits; lia.

Ltac su :=
  cbv zeta;
  lazymatch goal with
  | |- stays_up (bind _ _) => apply stays_up_bind; [su | intros ?; su]
  | |- stays_up (while _ _ _) => apply stays_up_while; [su | su]
  | |- stays_up (if ?b then _ else _) => destruct b; su
  | |- stays_up (button_is_pressed _ _ _) => apply stays_up_button
  | |- stays_up (display_num _ _) => apply stays_up_display
  | |- stays_up (modify (put_health ?v)) =>
      apply stays_up_logging with (e := HealthSet v);
      [discriminate | reflexivity | clock_on]
  | |- stays_up (modify (load_health ?v)) =>
      apply stays_up_logging with (e := HealthRead v);
      [discriminate | reflexivity | clock_on]
  | |- stays_up (modify (load_shields ?v)) =>
      apply stays_up_logging with (e := ShieldsRead v);
      [discriminate | reflexivity | clock_on]
  | |- stays_up (modify (put_shields ?v)) =>
      apply stays_up_logging with (e := ShieldsSet v);
      [discriminate | reflexivity | clock_on]
  | |- stays_up (EEPROM_write _ ?a ?v) =>
      apply stays_up_logging with (e := EepromWrite a (u8 v));
      [discriminate | reflexivity | clock_on]
  | |- stays_up (modify _) => apply stays_up_quiet; [reflexivity | clock_on]
  | |- stays_up (get _) => apply stays_up_quiet; [reflexivity | clock_on]
  | |- stays_up (ret _) => apply stays_up_here
  | |- stays_up skip => apply stays_up_here
  | |- stays_up (millis _) => apply stays_up_quiet; [reflexivity | clock_on]
  | |- stays_up (EEPROM_read _ _) => apply stays_up_quiet; [reflexivity | clock_on]
  | |- stays_up (delay _ ?n) =>
      apply stays_up_logging with (e := Delay n);
      [discriminate | reflexivity | clock_on]
  | |- _ => assumption
  end.

Lemma stays_up_inc_health : stays_up (inc_health jitter).
Proof. unfold inc_health. su. Qed.

Lemma stays_up_inc_shield : stays_up (inc_shield jitter).
Proof. unfold inc_shield. su. Qed.

Lemma stays_up_number_entry fuel inc :
  stays_up inc -> stays_up (number_entry level jitter fuel inc).
Proof. intros Hinc. unfold number_entry, entry_poll, fast_select. su. Qed.

Lemma stays_up_advanced_mode fuel : stays_up (advanced_mode level jitter fuel).
Proof.
  pose proof stays_up_inc_health. pose proof stays_up_inc_shield.
  unfold advanced_mode.
  repeat (apply stays_up_bind;
          [first [apply stays_up_number_entry; assumption | su] | intros ?]).
  su.
Qed.

Lemma stays_up_shield_handler fuel : stays_up (shield_handler level jitter fuel).
Proof. unfold shield_handler, held_above, update_shield. su. Qed.

Lemma stays_up_await_beacon fuel : stays_up (await_beacon level jitter fuel).
Proof.
  unfold await_beacon. apply stays_up_while; [su|].
  apply stays_up_shield_handler.
Qed.

Lemma shutdown_now_halts w :
  exists w', shutdown_now jitter w = Halt (emit Sleep w') /\
    exists ev dt k, w' = after ev dt k w /\ 0 <= dt <= 14 /\
      map snd ev =
      rev (flat_map (fun i => [DigitalWrite (idx pinMap_digit1 i) false;
                               DigitalWrite (idx pinMap_digit2 i) false])
                    seven).
Proof.
  unfold shutdown_now.
  pose proof (runs_segments (fun _ => 0) (fun _ => 0)) as R. cbv beta in R.
  destruct (R w) as ([] & ev & dt & k & E & Hdt & Hev).
  rewrite (bind_ret _ _ _ _ _ E). eexists. split; [reflexivity|]. exists ev, dt, k.
  split; [reflexivity|]. split; [exact Hdt | exact Hev].
Qed.

(** With no input asserted a number-entry loop polls until the fuel is
    spent: two reads per round, and nothing else. *)
Lemma number_entry_quiet j inc m n w :
  exists w',
    while n (b <- button_is_pressed quiet j Shield_Pin ;; ret (negb b))
            (entry_poll quiet j m inc) w = Spin w' /\
    now w' = now w + ticks j (ops w) (2 * n) /\
    ops w' = (2 * n + ops w)%nat.
Proof.
  revert w. induction n as [|n IH]; intros w.
  - exists w. simpl. repeat split; lia.
  - destruct (IH (tick j (emit (DigitalRead Fire_Pin false)
                    (tick j (emit (DigitalRead Shield_Pin false) w)))))
      as (w' & E & Hnow & Hops).
    exists w'. split; [exact E|].
    replace (2 * S n)%nat with (S (S (2 * n))) by lia.
    cbn [now ops tick count_op elapse emit] in Hnow, Hops.
    cbn [ticks]. unfold jit in Hnow. split; lia.
Qed.

(** C9. advanced_mode enforces no inactivity timeout: whatever the inputs
    and however long it runs, it never ends powered down and never logs
    the sleep request that shutdown_now (which always ends powered down)
    makes; with no button activity it simply keeps polling, for as long as
    the run lasts (2 ms per round when every call takes a millisecond). *)
Theorem advanced_mode_never_shuts_down fuel w :
  halted (advanced_mode level jitter fuel w) = false /\
  (exists ev,
     trace (final (advanced_mode level jitter fuel w)) = ev ++ trace w /\
     Forall (fun te => snd te <> Sleep) ev) /\
  (exists w', shutdown_now jitter w = Halt w' /\
              hd_error (map snd (trace w')) = Some Sleep) /\
  (exists w', advanced_mode quiet jitter fuel w = Spin w') /\
  (exists w', advanced_mode quiet busy fuel w = Spin w' /\
              now w' = now w + 2 * Z.of_nat fuel).
Proof.
  destruct (stays_up_advanced_mode fuel w) as (Hh & Hev & _).
  split; [exact Hh|]. split; [exact Hev|]. split; [|split].
  - destruct (shutdown_now_halts w) as (w' & E & _).
    exists (emit Sleep w'). split; [exact E | reflexivity].
  - destruct (number_entry_quiet jitter (inc_health jitter) fuel fuel w)
      as (w' & E & _).
    exists w'. unfold advanced_mode, number_entry. apply bind_spin. exact E.
  - destruct (number_entry_quiet busy (inc_health busy) fuel fuel w)
      as (w' & E & Hnow & _).
    exists w'. split.
    + unfold advanced_mode, number_entry. apply bind_spin. exact E.
    + rewrite Hnow, ticks_busy. lia.
Qed.

(* ===================================================================== *)
(** ** Depletion *)
(* ===================================================================== *)

Lemma pin_written_low i :
  0 <= i < 7 ->
  pin_written (rev (digit_writes 0 0)) (idx pinMap_digit1 i) = Some false /\
  pin_written (rev (digit_writes 0 0)) (idx pinMap_digit2 i) = Some false.
Proof.
  intros Hi.
  assert (Hc : i = 0 \/ i = 1 \/ i = 2 \/ i = 3 \/ i = 4 \/ i = 5 \/ i = 6)
    by lia.
  destruct Hc as [-> | [-> | [-> | [-> | [-> | [-> | ->]]]]]];
    split; reflexivity.
Qed.

Lemma depleted_run w :
  exists w',
    depleted jitter w = Halt w' /\
    rev (map snd (trace w')) =
      rev (map snd (trace w)) ++
      Shown 0 :: digit_writes 63 63 ++ Delay 60000 :: digit_writes 0 0 ++ [Sleep] /\
    now w + 60000 <= now w' <= now w + 60029 /\
    forall i, 0 <= i < 7 ->
      pin_level (trace w') (idx pinMap_digit1 i) = false /\
      pin_level (trace w') (idx pinMap_digit2 i) = false.
Proof.
  unfold depleted.
  destruct (runs_display_num 0 w) as ([] & ev1 & dt1 & k1 & E1 & Hd1 & He1).
  rewrite (bind_ret _ _ _ _ _ E1).
  destruct (runs_delay 60000 ltac:(lia) (after ev1 dt1 k1 w))
    as ([] & ev2 & dt2 & k2 & E2 & Hd2 & He2).
  rewrite (bind_ret _ _ _ _ _ E2).
  destruct (shutdown_now_halts (after ev2 dt2 k2 (after ev1 dt1 k1 w)))
    as (w3 & E3 & ev3 & dt3 & k3 & -> & Hd3 & He3).
  rewrite E3. eexists. split; [reflexivity|].
  change (rev (flat_map (fun i => [DigitalWrite (idx pinMap_digit1 i) false;
                                   DigitalWrite (idx pinMap_digit2 i) false])
                        seven))
    with (rev (digit_writes 0 0)) in He3.
  change (rev (digit_writes
                 (idx seg_array (Z.land (Z.shiftr (bcd_of 0) 4) 15))
                 (idx seg_array (Z.land (bcd_of 0) 15))) ++ [Shown 0])
    with (rev (digit_writes 63 63) ++ [Shown 0]) in He1.
  cbn [trace now emit after]. split; [|split].
  - cbn [map snd rev]. rewrite !map_app, !rev_app_distr, He1, He2, He3.
    rewrite !rev_app_distr, !rev_involutive. cbn [rev app].
    rewrite <- !app_assoc. reflexivity.
  - lia.
  - intros i Hi. cbn [pin_level]. rewrite !pin_level_app, He3.
    destruct (pin_written_low i Hi) as (P1 & P2). rewrite P1, P2.
    split; reflexivity.
Qed.

(** C6 (as the code has it). The main loop powers down only through its
    else branch, which it takes when HitBeacon is next seen asserted while
    health is 0 (until then it keeps polling HitBeacon and serving the
    shield handler).  That branch renders 0, calls delay(60000) without
    reading any input, then drives the fourteen segment lines low and
    requests sleep, and never returns. *)
Theorem depleted_after_next_hit fuel w :
  (forall w', loop level jitter fuel w = Halt w' ->
     exists w1, await_beacon level jitter fuel w = Ret tt w1 /\ health w1 <= 0) /\
  (forall w1,
     await_beacon level jitter fuel w = Ret tt w1 -> health w1 <= 0 ->
     exists w',
       loop level jitter fuel w = Halt w' /\
       rev (map snd (trace w')) =
         rev (map snd (trace w1)) ++
         Shown 0 :: digit_writes 63 63 ++
         Delay 60000 :: digit_writes 0 0 ++ [Sleep] /\
       now w1 + 60000 <= now w' <= now w1 + 60029 /\
       forall i, 0 <= i < 7 ->
         pin_level (trace w') (idx pinMap_digit1 i) = false /\
         pin_level (trace w') (idx pinMap_digit2 i) = false).
Proof.
  split.
  - intros w' Hhalt. unfold loop in Hhalt.
    destruct (await_beacon level jitter fuel w) as [[] w1 | w1 | w1] eqn:E.
    + rewrite (bind_ret _ _ _ _ _ E) in Hhalt.
      exists w1. split; [reflexivity|].
      rewrite (bind_ret (get health) _ w1 (health w1) w1 eq_refl) in Hhalt.
      destruct (Z.gtb_spec (health w1) 0) as [Hpos | Hle]; [|exact Hle].
      exfalso.
      assert (Hsu : stays_up
                (modify (put_health (s16 (health w1 - 1))) ;;
                 h' <- get health ;;
                 display_num jitter h' ;;
                 while fuel (button_is_pressed level jitter Hit_Beacon_Pin) skip))
        by su.
      destruct (Hsu w1) as (Hnot & _). rewrite Hhalt in Hnot. discriminate.
    + pose proof (stays_up_await_beacon fuel w) as (Hnot & _).
      rewrite E in Hnot. discriminate.
    + rewrite (bind_spin _ _ _ _ E) in Hhalt. discriminate.
  - intros w1 E Hle. unfold loop. rewrite (bind_ret _ _ _ _ _ E).
    rewrite (bind_ret (get health) _ w1 (health w1) w1 eq_refl).
    destruct (Z.gtb_spec (health w1) 0) as [Hpos | _]; [lia|].
    apply depleted_run.
Qed.

(* ===================================================================== *)
(** ** The start-up timeout of normal mode *)
(* ===================================================================== *)

Lemma io_pinMode P p o : P (PinMode p o) -> io_call 1 P (pinMode jitter p o).
Proof. intros H. apply io_emit_tick. exact H. Qed.

Lemma io_pin_directions :
  io_call 14 is_pin_io
    (for_each seven (fun segment =>
       pinMode jitter (idx pinMap_digit1 segment) true ;;
       pinMode jitter (idx pinMap_digit2 segment) true)).
Proof.
  unfold seven, for_each.
  eapply io_weaken with (P := is_pin_io); [| | auto].
  - repeat (eapply io_bind;
            [eapply io_bind; [apply io_pinMode; exact I
                             | intros _; apply io_pinMode; exact I]
            | intros _]).
    apply io_ret.
  - lia.
Qed.



Lemma wp_shutdown_now (Q : unit -> World -> Prop) (QH QS : World -> Prop) w :
  (forall ev dt k, 0 <= dt <= 14 ->
     map snd ev = rev (digit_writes 0 0) ->
     QH (emit Sleep (after ev dt k w))) ->
  wp (shutdown_now jitter) Q QH QS w.
Proof.
  intros H. unfold wp.
  destruct (shutdown_now_halts w) as (w' & E & ev & dt & k & -> & Hdt & Hev).
  rewrite E. apply H; assumption.
Qed.


(** What a debounced read leaves untouched, and how long it takes. *)
Lemma button_frame p w b w1 :
  button_is_pressed level jitter p w = Ret b w1 ->
  health w1 = health w /\ shields_remaining w1 = shields_remaining w /\
  startup_timeout w1 = startup_timeout w /\ timeout_max w1 = timeout_max w /\
  now w <= now w1 <= now w + 58 /\
  (b = true -> now w + 55 <= now w1).
Proof.
  unfold button_is_pressed, bind, digitalRead, delay.
  destruct (level p (now w)).
  - match goal with
    | |- context [level p ?t] => destruct (level p t)
    end; intros E; injection E as <- <-; wsimpl; jits;
      repeat split; try reflexivity; try lia; discriminate.
  - intros E; injection E as <- <-; wsimpl; jits;
      repeat split; try reflexivity; try lia; discriminate.
Qed.


(* ===================================================================== *)
(** ** Number entry: a Fire press and the auto-repeat *)
(* ===================================================================== *)

Lemma inc_health_run w :
  0 <= health w ->
  exists ev dt k,
    inc_health jitter w
      = Ret tt (after ev dt k (put_health (next_count (health w)) w)) /\
    0 <= dt <= 14 /\ In (Shown (next_count (health w))) (map snd ev).
Proof.
  intros Hh. rewrite inc_health_unfold. cbv zeta.
  replace (if health w <? 99 then s16 (health w + 1) else 1)
    with (next_count (health w)).
  2:{ unfold next_count. destruct (Z.ltb_spec (health w) 99);
        [rewrite s16_id by lia|]; reflexivity. }
  destruct (runs_display_num (next_count (health w))
              (put_health (next_count (health w)) w))
    as ([] & ev & dt & k & E & Hdt & Hev).
  exists ev, dt, k. split; [exact E|]. split; [exact Hdt|].
  rewrite Hev. apply in_or_app. right. left. reflexivity.
Qed.

Lemma inc_shield_run w :
  0 <= shields_remaining w ->
  exists ev dt k,
    inc_shield jitter w
      = Ret tt (after ev dt k (put_shields (next_count (shields_remaining w)) w)) /\
    0 <= dt <= 14 /\ In (Shown (next_count (shields_remaining w))) (map snd ev).
Proof.
  intros Hh. rewrite inc_shield_unfold. cbv zeta.
  replace (if shields_remaining w <? 99
           then s16 (shields_remaining w + 1) else 1)
    with (next_count (shields_remaining w)).
  2:{ unfold next_count. destruct (Z.ltb_spec (shields_remaining w) 99);
        [rewrite s16_id by lia|]; reflexivity. }
  destruct (runs_display_num (next_count (shields_remaining w))
              (put_shields (next_count (shields_remaining w)) w))
    as ([] & ev & dt & k & E & Hdt & Hev).
  exists ev, dt, k. split; [exact E|]. split; [exact Hdt|].
  rewrite Hev. apply in_or_app. right. left. reflexivity.
Qed.



(* ===================================================================== *)
(** ** Every part of the sketch keeps the counters in range *)
(* ===================================================================== *)































(* ===================================================================== *)
(** ** Relations that every call of a run respects *)
(* ===================================================================== *)

Section Chaining.

Context (R : World -> World -> Prop) `{HR : Chains R}.

Lemma respects_ret {A} (a : A) : respects R (ret a).
Proof. intros w. apply chains_refl. Qed.

Lemma respects_bind {A B} (m : M A) (f : A -> M B) :
  respects R m -> (forall a, respects R (f a)) -> respects R (bind m f).
Proof.
  intros Hm Hf w. specialize (Hm w). unfold bind.
  destruct (m w) as [a w1 | w1 | w1]; cbn [final] in *; [|exact Hm|exact Hm].
  eapply chains_trans; [exact Hm | apply Hf].
Qed.

Lemma respects_while fuel cond body :
  respects R cond -> respects R body -> respects R (while fuel cond body).
Proof.
  intros Hc Hb. induction fuel as [|k IH].
  - intros w. apply chains_refl.
  - cbn [while]. apply respects_bind; [exact Hc|]. intros [|].
    + apply respects_bind; [exact Hb | intros _; exact IH].
    + apply respects_ret.
Qed.

Lemma respects_get f : respects R (get f).
Proof. intros w. apply chains_refl. Qed.

End Chaining.

#[local] Instance logs_only_chains P : Chains (logs_only P).
Proof.
  split.
  - intros w. exists []. split; reflexivity.
  - intros w1 w2 w3 (ev1 & E1 & F1) (ev2 & E2 & F2).
    exists (ev2 ++ ev1). split; [rewrite E2, E1; apply app_assoc|].
    rewrite forallb_app, F1, F2. reflexivity.
Qed.

#[local] Instance rom_kept_chains cells : Chains (rom_kept cells).
Proof.
  split.
  - intros w a _. reflexivity.
  - intros w1 w2 w3 H1 H2 a Ha. rewrite (H2 a Ha). apply H1, Ha.
Qed.

(** A call that logs nothing, and a call that logs one event. *)
Lemma logs_nothing P {A} (m : M A) :
  (forall w, trace (final (m w)) = trace w) -> respects (logs_only P) m.
Proof. intros H w. exists []. split; [apply H | reflexivity]. Qed.

Lemma logs_one P {A} (m : M A) (e : World -> Event) :
  (forall w, trace (final (m w)) = (now w, e w) :: trace w) ->
  (forall w, P (e w) = true) -> respects (logs_only P) m.
Proof.
  intros H HP w. exists [(now w, e w)]. split; [apply H|].
  cbn. rewrite HP. reflexivity.
Qed.

Lemma rom_same cells {A} (m : M A) :
  (forall w a, eeprom (final (m w)) a = eeprom w a) -> respects (rom_kept cells) m.
Proof. intros H w a _. apply H. Qed.

(** Unfold the subroutines of the sketch down to the primitive calls. *)
Ltac open_sketch :=
  unfold sketch, setup, advanced_setup, normal_setup, normal_poll,
    startup_animation, loop, await_beacon, depleted, shield_handler,
    held_above, update_shield, advanced_mode, number_entry, entry_poll,
    fast_select, inc_health, inc_shield, load_settings, show_dashes,
    shutdown_now, display_num, button_is_pressed;
  cbn [for_each seven ten_down].

(** Split a goal [respects R m] along the structure of [m]; [leaf] closes
    the goals about primitive calls. *)
Ltac rs leaf :=
  cbv zeta;
  lazymatch goal with
  | |- respects _ (bind _ _) =>
      apply respects_bind; [typeclasses eauto | rs leaf | intros ?; rs leaf]
  | |- respects _ (while _ _ _) =>
      apply respects_while; [typeclasses eauto | rs leaf | rs leaf]
  | |- respects _ (if ?b then _ else _) => destruct b; rs leaf
  | |- respects _ (ret _) => apply respects_ret; typeclasses eauto
  | |- respects _ skip => apply respects_ret; typeclasses eauto
  | |- respects _ (get _) => apply respects_get; typeclasses eauto
  | |- _ => first [assumption | leaf]
  end.

Ltac log_leaf :=
  first
    [ apply logs_nothing; intros; reflexivity
    | eapply logs_one; [intros; reflexivity | intros; reflexivity] ].

Ltac rom_leaf :=
  first
    [ apply rom_same; intros; reflexivity
    | let w := fresh "w" in let a := fresh "a" in let Ha := fresh "Ha" in
      intros w a Ha; unfold EEPROM_write; cbn [final]; wsimpl;
      unfold mem in Ha; cbn [existsb setting_cells] in Ha;
      repeat (apply orb_false_iff in Ha; destruct Ha as [? Ha]);
      repeat match goal with
      | H : (?x =? ?y) = false |- _ => rewrite H; clear H
      end; reflexivity ].

Lemma wp_respects {A} R (m : M A) (Q : A -> World -> Prop) QH QS w :
  respects R m ->
  (forall a w', R w w' -> Q a w') -> (forall w', R w w' -> QH w') ->
  (forall w', R w w' -> QS w') -> wp m Q QH QS w.
Proof.
  intros Hm HQ HH HS. specialize (Hm w). unfold wp.
  destruct (m w); cbn [final] in Hm; auto.
Qed.

Lemma wp_pinMode p o (Q : unit -> World -> Prop) QH QS w :
  Q tt (tick jitter (emit (PinMode p o) w)) -> wp (pinMode jitter p o) Q QH QS w.
Proof. exact (fun H => H). Qed.

(* ===================================================================== *)
(** ** The wiring of the board *)
(* ===================================================================== *)

(** X1. Whatever the inputs and for as long as it runs, the sketch only
    writes to the fourteen segment pins (which it configures as outputs),
    only reads the three button pins (which it configures as inputs) and
    only writes the two setting cells of the EEPROM. *)
Theorem sketch_fits_wiring fuel w :
  exists ev,
    trace (final (sketch level jitter fuel w)) = ev ++ trace w /\
    forallb (fun te => wired (snd te)) ev = true.
Proof.
  assert (H : respects (logs_only wired) (sketch level jitter fuel))
    by (open_sketch; rs log_leaf).
  exact (H w).
Qed.

Lemma forallb_rev_map_snd (P : Event -> bool) (ev : list (Z * Event)) :
  forallb (fun te => P (snd te)) ev = true ->
  forallb P (rev (map snd ev)) = true.
Proof.
  rewrite !forallb_forall. intros H e Hin.
  apply in_rev, in_map_iff in Hin. destruct Hin as (te & <- & Hin).
  apply (H _ Hin).
Qed.

Lemma mode_choice_no_pin_mode fuel :
  respects (logs_only not_pin_mode)
    (b <- button_is_pressed level jitter Shield_Pin ;;
     (if (b : bool) then advanced_setup level jitter fuel
      else normal_setup level jitter fuel) ;;
     startup_animation level jitter fuel).
Proof. open_sketch. rs log_leaf. Qed.

Lemma play_no_pin_mode fuel :
  respects (logs_only not_pin_mode)
    (while fuel (ret true) (loop level jitter fuel)).
Proof. open_sketch. rs log_leaf. Qed.


(** X2. The first seventeen effects of the sketch are the calls of pinMode,
    segment pins as outputs and then the three button pins as inputs, and
    no pin direction is changed afterwards: every read and write happens on
    a pin that is already configured. *)
Theorem pin_directions_set_once fuel w :
  exists rest,
    rev (map snd (trace (final (sketch level jitter fuel w))))
      = rev (map snd (trace w)) ++ pin_directions ++ rest /\
    forallb not_pin_mode rest = true.
Proof.
  set (Q := fun w' : World =>
    exists rest,
      rev (map snd (trace w')) = rev (map snd (trace w)) ++ pin_directions ++ rest /\
      forallb not_pin_mode rest = true).
  assert (Hwp : wp (sketch level jitter fuel) (fun _ => Q) Q Q w).
  { unfold sketch, setup. cbn [for_each seven].
    repeat lazymatch goal with
    | |- wp (bind (bind _ _) _) _ _ _ _ => apply wp_bind
    | |- wp (bind (modify _) _) _ _ _ _ => apply wp_bind; apply wp_modify
    | |- wp (bind (pinMode _ _ _) _) _ _ _ _ => apply wp_bind; apply wp_pinMode
    | |- wp (bind skip _) _ _ _ _ => apply wp_bind; apply wp_ret
    | |- wp (pinMode _ _ _) _ _ _ _ => apply wp_pinMode
    | |- wp skip _ _ _ _ => apply wp_ret
    end.
    match goal with
    | |- wp _ _ _ _ ?W => remember W as w17 eqn:EW
    end.
    assert (HT : map snd (trace w17) = rev pin_directions ++ map snd (trace w))
      by (subst w17; reflexivity).
    assert (HQ : forall w', logs_only not_pin_mode w17 w' -> Q w').
    { intros w' (ev & E & F). exists (rev (map snd ev)).
      rewrite E, map_app, rev_app_distr, HT, rev_app_distr, rev_involutive.
      rewrite <- app_assoc. split; [reflexivity|].
      apply forallb_rev_map_snd, F. }
    clear EW HT.
    apply (wp_respects _ _ _ _ _ _ (mode_choice_no_pin_mode fuel)); auto.
    intros _ w1 H1.
    apply (wp_respects _ _ _ _ _ _ (play_no_pin_mode fuel));
      intros; apply HQ; eapply chains_trans; eauto. }
  unfold wp in Hwp.
  destruct (sketch level jitter fuel w); exact Hwp.
Qed.


(* ===================================================================== *)
(** ** The persistent store as a whole *)
(* ===================================================================== *)

(** X3. Of the whole EEPROM the sketch can only ever change the two setting
    cells, 46 and 47: every other cell holds at any point of any run what
    it held when the run started. *)
Theorem eeprom_other_cells_untouched fuel w a :
  a <> ADVANCED_HEALTH_ADDRESS -> a <> ADVANCED_SHIELD_ADDRESS ->
  eeprom (final (sketch level jitter fuel w)) a = eeprom w a.
Proof.
  intros H1 H2.
  assert (H : respects (rom_kept setting_cells) (sketch level jitter fuel))
    by (open_sketch; rs rom_leaf).
  apply H. unfold mem, setting_cells. cbn [existsb].
  apply Z.eqb_neq in H1, H2. rewrite H1, H2. reflexivity.
Qed.

Lemma leaves_rom_intro {A} (m : M A) :
  respects (rom_kept []) m -> respects (logs_only off_rom) m -> leaves_rom m.
Proof.
  intros H1 H2 w. split; [|exact (H2 w)].
  intros a. apply H1. reflexivity.
Qed.

(** X4. Only advanced-mode set-up has traffic with the EEPROM: normal-mode
    set-up, the start-up countdown and the game loop (shield handling,
    hits and the final shutdown included) never write a cell and never
    load a counter from it. *)
Theorem normal_game_leaves_eeprom fuel :
  leaves_rom (normal_setup level jitter fuel) /\
  leaves_rom (startup_animation level jitter fuel) /\
  leaves_rom (loop level jitter fuel).
Proof.
  split; [|split]; apply leaves_rom_intro; open_sketch;
    first [rs rom_leaf | rs log_leaf].
Qed.

(* ===================================================================== *)
(** ** The game types of normal mode *)
(* ===================================================================== *)

Lemma wp_wait_game_type p fuel w (Q : unit -> World -> Prop) QH QS :
  (forall w', game_type w' -> Q tt w') -> (forall w', game_type w' -> QS w') ->
  game_type w ->
  wp (while fuel (button_is_pressed level jitter p) skip) Q QH QS w.
Proof.
  intros HQ HS Hw. apply wp_while with (I := game_type); [exact HS | | exact Hw].
  intros w1 H1. wp_step. destruct b; [wp_step|apply HQ]; exact H1.
Qed.

Lemma wp_normal_poll_game_type fuel w :
  game_type w ->
  wp (normal_poll level jitter fuel) (fun _ => game_type) game_type game_type w.
Proof.
  intros Hw. unfold normal_poll. wp_step. wp_step. destruct b.
  - wp_step. wp_step. wp_step. wp_if; repeat wp_step;
      (apply wp_wait_game_type; [auto | auto |]);
      [right | left]; split; reflexivity.
  - repeat wp_step. wp_if.
    + apply wp_shutdown_now. intros. exact Hw.
    + wp_step. exact Hw.
Qed.

Lemma wp_normal_setup_game_type fuel w :
  wp (normal_setup level jitter fuel) (fun _ => game_type) game_type game_type w.
Proof.
  unfold normal_setup. repeat wp_step.
  apply wp_while with (I := game_type); [auto | |].
  - intros w1 H1. wp_step. wp_step. wp_step. destruct b; cbn [negb].
    + exact H1.
    + apply wp_normal_poll_game_type. exact H1.
  - left. split; reflexivity.
Qed.

(** X5. Normal mode offers exactly two game types.  However set-up ends
    (game started by Fire, start-up timeout, or still waiting), health and
    shields_remaining are 10 and 15 or 25 and 30; and a poll that finds
    Shield pressed switches from 10/15 to 25/30 and from anything else to
    10/15, whether or not the button is released afterwards. *)
Theorem normal_setup_game_types fuel w :
  game_type (final (normal_setup level jitter fuel w)) /\
  (forall w1,
     button_is_pressed level jitter Shield_Pin w = Ret true w1 ->
     let w' := final (normal_poll level jitter fuel w) in
     halted (normal_poll level jitter fuel w) = false /\
     health w' = (if health w =? 10 then 25 else 10) /\
     shields_remaining w' = (if health w =? 10 then 30 else 15)).
Proof.
  split.
  - pose proof (wp_normal_setup_game_type fuel w) as H. unfold wp in H.
    destruct (normal_setup level jitter fuel w); exact H.
  - intros w1 E.
    destruct (button_frame _ _ _ _ E) as (Hh & _).
    set (P := fun w' : World =>
                health w' = (if health w =? 10 then 25 else 10) /\
                shields_remaining w' = (if health w =? 10 then 30 else 15)).
    assert (Hwp : wp (normal_poll level jitter fuel)
                     (fun _ => P) (fun _ => False) P w).
    { unfold normal_poll. apply wp_bind. unfold wp at 1. rewrite E.
      wp_step. wp_step. wp_step. rewrite Hh.
      wp_if; repeat wp_step;
        (apply wp_while with (I := P);
         [ auto
         | intros w2 H2; wp_step; destruct b; [wp_step|]; exact H2
         | unfold P; wsimpl; split; reflexivity ]). }
    unfold wp in Hwp. cbv zeta.
    destruct (normal_poll level jitter fuel w); cbn [final halted];
      [|contradiction|]; split; auto.
Qed.

(* ===================================================================== *)
(** ** What the display shows *)
(* ===================================================================== *)

#[local] Instance pins_kept_chains : Chains pins_kept.
Proof.
  split.
  - intros w p. reflexivity.
  - intros w1 w2 w3 H1 H2 p. rewrite (H2 p). apply H1.
Qed.

Ltac pin_leaf := intros ? ?; reflexivity.

Lemma wait_keeps_pins fuel p :
  respects pins_kept (while fuel (button_is_pressed level jitter p) skip).
Proof. open_sketch. rs pin_leaf. Qed.

(** The two nibbles that [display_num] looks up, for any argument that is
    not negative. *)
Lemma bcd_of_nibbles n :
  0 <= n ->
  Z.land (Z.shiftr (bcd_of n) 4) 15 = (n / 10) mod 16 /\
  Z.land (bcd_of n) 15 = n mod 10.
Proof.
  intros Hn.
  assert (Hr : 0 <= n mod 10 < 10) by (apply Z.mod_pos_bound; lia).
  unfold bcd_of. rewrite Z.quot_div_nonneg, Z.rem_mod_nonneg by lia.
  set (x := n / 10 * 16 + n mod 10).
  assert (Hk : exists k, s16 x = x + 65536 * k).
  { unfold s16. exists (- ((x + 2 ^ 15) / 2 ^ 16)).
    pose proof (Z.div_mod (x + 2 ^ 15) (2 ^ 16) ltac:(lia)) as D.
    change (2 ^ 16) with 65536 in *. lia. }
  destruct Hk as (k & ->).
  change 15 with (Z.ones 4). rewrite !Z.land_ones by lia.
  rewrite Z.shiftr_div_pow2 by lia. change (2 ^ 4) with 16.
  replace (x + 65536 * k) with (n mod 10 + (n / 10 + 4096 * k) * 16)
    by (unfold x; lia).
  rewrite Z.div_add by lia. rewrite (Z.div_small (n mod 10)) by lia.
  rewrite Z.add_0_l. split.
  - replace (n / 10 + 4096 * k) with (n / 10 + (256 * k) * 16) by lia.
    apply Z.mod_add. lia.
  - rewrite Z.mod_add by lia. apply Z.mod_small. lia.
Qed.

Lemma pin_written_shown l p v n :
  pin_written l p = Some v -> pin_written (l ++ [Shown n]) p = Some v.
Proof.
  induction l as [| e l IH]; simpl; [discriminate|].
  destruct e; auto. destruct (pin =? p); auto.
Qed.

(** One rendering, with the levels it leaves on the segment lines. *)
Lemma display_num_lit n w :
  exists ev dt k,
    display_num jitter n w = Ret tt (after ev dt k w) /\ 0 <= dt <= 14 /\
    map snd ev =
      rev (digit_writes (idx seg_array (Z.land (Z.shiftr (bcd_of n) 4) 15))
                        (idx seg_array (Z.land (bcd_of n) 15))) ++ [Shown n] /\
    lit (idx seg_array (Z.land (Z.shiftr (bcd_of n) 4) 15))
        (idx seg_array (Z.land (bcd_of n) 15)) (after ev dt k w).
Proof.
  destruct (runs_display_num n w) as ([] & ev & dt & k & E & Hdt & Hev).
  exists ev, dt, k. split; [exact E|]. split; [exact Hdt|]. split; [exact Hev|].
  intros i Hi. cbn [trace after]. rewrite !pin_level_app, Hev.
  match goal with
  | |- context [digit_writes ?a ?b] =>
      destruct (pin_written_digits a b i Hi) as (P1 & P2)
  end.
  rewrite (pin_written_shown _ _ _ n P1), (pin_written_shown _ _ _ n P2).
  split; reflexivity.
Qed.

Lemma display_num_displays n w :
  0 <= n <= 99 ->
  exists ev dt k,
    display_num jitter n w = Ret tt (after ev dt k w) /\ 0 <= dt <= 14 /\
    displays n (after ev dt k w).
Proof.
  intros Hn. destruct (display_num_lit n w) as (ev & dt & k & E & Hdt & _ & L).
  destruct (bcd_of_digits n Hn) as (_ & E1 & E2). rewrite E1, E2 in L.
  exists ev, dt, k. auto.
Qed.

(** X6. display_num never looks outside its sixteen-entry table, whatever
    its argument; and for every argument from 0 to 20479 (where the BCD
    packing stays within an int) the two digits show entry (n / 10) mod 16
    and entry n mod 10 of the table, so that 100 to 159 show a letter A to
    F (and larger values a wrapped digit) in the tens place. *)
Theorem display_num_any_int n w :
  (0 <= Z.land (Z.shiftr (bcd_of n) 4) 15 < 16 /\
   0 <= Z.land (bcd_of n) 15 < 16) /\
  (0 <= n <= 20479 ->
   exists w',
     display_num jitter n w = Ret tt w' /\
     lit (idx seg_array ((n / 10) mod 16)) (idx seg_array (n mod 10)) w').
Proof.
  split.
  - change 15 with (Z.ones 4). rewrite !Z.land_ones by lia.
    split; apply Z.mod_pos_bound; lia.
  - intros Hn. destruct (display_num_lit n w) as (ev & dt & k & E & _ & _ & L).
    destruct (bcd_of_nibbles n) as (E1 & E2); [lia|]. rewrite E1, E2 in L.
    exists (after ev dt k w). split; [exact E | exact L].
Qed.

(** The table shows the ten decimal digits by ten different patterns. *)
Lemma seg_array_distinct a b :
  0 <= a <= 9 -> 0 <= b <= 9 ->
  (forall i, 0 <= i < 7 ->
     Z.testbit (idx seg_array a) i = Z.testbit (idx seg_array b) i) ->
  a = b.
Proof.
  intros Ha Hb H.
  pose proof (H 0 ltac:(lia)) as H0. pose proof (H 1 ltac:(lia)) as H1.
  pose proof (H 2 ltac:(lia)) as H2. pose proof (H 3 ltac:(lia)) as H3.
  pose proof (H 4 ltac:(lia)) as H4. pose proof (H 5 ltac:(lia)) as H5.
  pose proof (H 6 ltac:(lia)) as H6. clear H.
  assert (Ca : a = 0 \/ a = 1 \/ a = 2 \/ a = 3 \/ a = 4 \/ a = 5 \/ a = 6 \/
               a = 7 \/ a = 8 \/ a = 9) by lia.
  assert (Cb : b = 0 \/ b = 1 \/ b = 2 \/ b = 3 \/ b = 4 \/ b = 5 \/ b = 6 \/
               b = 7 \/ b = 8 \/ b = 9) by lia.
  clear Ha Hb.
  repeat (destruct Ca as [-> | Ca]);
    repeat (destruct Cb as [-> | Cb]); subst;
    first [reflexivity | discriminate].
Qed.

(** X7. The display is unambiguous on [0,99]: if two renderings leave the
    same levels on the fourteen segment lines, they were renderings of the
    same number. *)
Theorem display_num_unambiguous n m w w' :
  0 <= n <= 99 -> 0 <= m <= 99 ->
  (forall i, 0 <= i < 7 ->
     pin_level (trace (final (display_num jitter n w))) (idx pinMap_digit1 i)
     = pin_level (trace (final (display_num jitter m w'))) (idx pinMap_digit1 i) /\
     pin_level (trace (final (display_num jitter n w))) (idx pinMap_digit2 i)
     = pin_level (trace (final (display_num jitter m w'))) (idx pinMap_digit2 i)) ->
  n = m.
Proof.
  intros Hn Hm H.
  destruct (display_num_displays n w Hn) as (ev1 & dt1 & k1 & E1 & _ & L1).
  destruct (display_num_displays m w' Hm) as (ev2 & dt2 & k2 & E2 & _ & L2).
  rewrite E1, E2 in H. cbn [final] in H.
  assert (Hq : 0 <= n / 10 <= 9 /\ 0 <= m / 10 <= 9).
  { split; (split; [apply Z.div_pos; lia|]);
      apply Z.lt_succ_r, Z.div_lt_upper_bound; lia. }
  assert (Hr : 0 <= n mod 10 < 10 /\ 0 <= m mod 10 < 10)
    by (split; apply Z.mod_pos_bound; lia).
  assert (T : n / 10 = m / 10).
  { apply seg_array_distinct; try lia. intros i Hi.
    destruct (L1 i Hi) as (<- & _). destruct (L2 i Hi) as (<- & _).
    apply H, Hi. }
  assert (U : n mod 10 = m mod 10).
  { apply seg_array_distinct; try lia. intros i Hi.
    destruct (L1 i Hi) as (_ & <-). destruct (L2 i Hi) as (_ & <-).
    apply H, Hi. }
  rewrite (Z.div_mod n 10), (Z.div_mod m 10) by lia. rewrite T, U. reflexivity.
Qed.

(* ===================================================================== *)
(** ** The pre-game countdown *)
(* ===================================================================== *)

Lemma runs_frames l :
  runs (1000 * Z.of_nat (length l)) (1015 * Z.of_nat (length l))
       (rev (flat_map frame l))
       (for_each l (fun i => display_num jitter i ;; delay jitter 1000)).
Proof.
  induction l as [| i l IH].
  - apply runs_ret.
  - cbn [for_each flat_map length].
    eapply runs_weaken;
      [ eapply runs_bind;
          [ eapply runs_bind;
              [apply runs_display_num | intros _; apply (runs_delay 1000); lia]
          | intros _; exact IH ]
      | lia | lia | ].
    rewrite rev_app_distr. reflexivity.
Qed.

Lemma screen_digit_writes a b : filter on_screen (digit_writes a b) = [].
Proof. reflexivity. Qed.

Lemma screen_frames l :
  filter on_screen (flat_map frame l)
  = flat_map (fun i => [Shown i; Delay 1000]) l.
Proof.
  induction l as [| i l IH]; [reflexivity|].
  cbn [flat_map]. rewrite filter_app, IH. unfold frame.
  cbn [filter on_screen]. rewrite filter_app, screen_digit_writes.
  reflexivity.
Qed.

(** X8. Once the beacon is dark, the start-up animation renders 10, 9, ...,
    1 and 0, pausing one second after each, then renders the health and
    returns: between 11.000 and 11.179 s later, with both counters as they
    were and (for a health in [0,99]) the display showing the health. *)
Theorem startup_countdown fuel w w1 :
  while fuel (button_is_pressed level jitter Hit_Beacon_Pin) skip w = Ret tt w1 ->
  exists w' ev,
    startup_animation level jitter fuel w = Ret tt w' /\
    trace w' = ev ++ trace w1 /\
    screen_log ev = countdown_log (health w1) /\
    11000 <= now w' - now w1 <= 11179 /\
    health w' = health w1 /\ shields_remaining w' = shields_remaining w1 /\
    (0 <= health w1 <= 99 -> displays (health w1) w').
Proof.
  intros E. unfold startup_animation. rewrite (bind_ret _ _ _ _ _ E).
  destruct (runs_frames ten_down w1) as ([] & ev1 & dt1 & k1 & E1 & Hd1 & He1).
  rewrite (bind_ret _ _ _ _ _ E1).
  destruct (runs_display_num 0 (after ev1 dt1 k1 w1))
    as ([] & ev2 & dt2 & k2 & E2 & Hd2 & He2).
  rewrite (bind_ret _ _ _ _ _ E2).
  destruct (runs_delay 1000 ltac:(lia) (after ev2 dt2 k2 (after ev1 dt1 k1 w1)))
    as ([] & ev3 & dt3 & k3 & E3 & Hd3 & He3).
  rewrite (bind_ret _ _ _ _ _ E3).
  match goal with
  | |- context [bind (get health) ?f ?W] =>
      rewrite (bind_ret (get health) f W (health w1) W eq_refl);
      destruct (display_num_lit (health w1) W)
        as (ev4 & dt4 & k4 & E4 & Hd4 & He4 & L)
  end.
  rewrite E4. eexists. exists (ev4 ++ ev3 ++ ev2 ++ ev1).
  split; [reflexivity|]. cbn [trace now health shields_remaining after].
  split; [rewrite <- !app_assoc; reflexivity|].
  split; [|split; [cbn [length ten_down] in Hd1; lia|]].
  - unfold screen_log. rewrite !map_app, He1, He2, He3, He4.
    rewrite !rev_app_distr, !rev_involutive. cbn [rev app].
    rewrite !filter_app, screen_frames. cbn [filter on_screen].
    rewrite !screen_digit_writes. reflexivity.
  - split; [reflexivity|]. split; [reflexivity|].
    intros Hh. destruct (bcd_of_digits _ Hh) as (_ & D1 & D2).
    rewrite D1, D2 in L. exact L.
Qed.

Lemma dashes_written i :
  0 <= i < 7 ->
  pin_written
    (rev (flat_map (fun i => [DigitalWrite (idx pinMap_digit1 i)
                                (negb (Z.land (Z.shiftr 64 i) 1 =? 0));
                              DigitalWrite (idx pinMap_digit2 i)
                                (negb (Z.land (Z.shiftr 64 i) 1 =? 0))]) seven))
    (idx pinMap_digit1 i) = Some (i =? 6) /\
  pin_written
    (rev (flat_map (fun i => [DigitalWrite (idx pinMap_digit1 i)
                                (negb (Z.land (Z.shiftr 64 i) 1 =? 0));
                              DigitalWrite (idx pinMap_digit2 i)
                                (negb (Z.land (Z.shiftr 64 i) 1 =? 0))]) seven))
    (idx pinMap_digit2 i) = Some (i =? 6).
Proof.
  intros Hi.
  assert (Hc : i = 0 \/ i = 1 \/ i = 2 \/ i = 3 \/ i = 4 \/ i = 5 \/ i = 6)
    by lia.
  destruct Hc as [-> | [-> | [-> | [-> | [-> | [-> | ->]]]]]];
    split; reflexivity.
Qed.

(** X9. When Shield is held at power-on, both digits show a dash (segment G
    alone) and keep showing it for as long as the sketch waits for the
    button to be released. *)
Theorem dashes_until_release fuel w :
  let r := (show_dashes jitter ;;
            while fuel (button_is_pressed level jitter Shield_Pin) skip) w in
  halted r = false /\
  forall i, 0 <= i < 7 ->
    pin_level (trace (final r)) (idx pinMap_digit1 i) = (i =? 6) /\
    pin_level (trace (final r)) (idx pinMap_digit2 i) = (i =? 6).
Proof.
  cbv zeta. unfold show_dashes.
  pose proof (runs_segments (fun i => Z.land (Z.shiftr 64 i) 1)
                            (fun i => Z.land (Z.shiftr 64 i) 1)) as R.
  cbv beta in R. destruct (R w) as ([] & ev & dt & k & E & _ & Hev).
  rewrite (bind_ret _ _ _ _ _ E).
  pose proof (wait_keeps_pins fuel Shield_Pin (after ev dt k w)) as K.
  pose proof (stays_up_button Shield_Pin) as Hb.
  pose proof (stays_up_while fuel _ skip Hb (stays_up_here tt) (after ev dt k w))
    as (Hup & _).
  split; [exact Hup|].
  intros i Hi. rewrite !K. cbn [trace after]. rewrite !pin_level_app, Hev.
  destruct (dashes_written i Hi) as (P1 & P2). rewrite P1, P2.
  split; reflexivity.
Qed.

(* ===================================================================== *)
(** ** Power-down leaves the display off *)
(* ===================================================================== *)

Lemma halts_dark_bind {A B} (m : M A) (f : A -> M B) :
  halts_dark m -> (forall a, halts_dark (f a)) -> halts_dark (bind m f).
Proof.
  intros Hm Hf w. apply wp_bind.
  eapply wp_weaken; [apply Hm | | auto | auto].
  intros a w' _. apply Hf.
Qed.

Lemma halts_dark_while fuel cond body :
  halts_dark cond -> halts_dark body -> halts_dark (while fuel cond body).
Proof.
  intros Hc Hb w.
  apply wp_while with (I := fun _ => True); [auto | | exact I].
  intros w1 _. eapply wp_weaken; [apply Hc | | auto | auto].
  intros [|] w2 _; [|exact I].
  eapply wp_weaken; [apply Hb | | auto | auto]. auto.
Qed.

Lemma halts_dark_shutdown_now : halts_dark (shutdown_now jitter).
Proof.
  intros w. apply wp_shutdown_now. intros ev dt k _ Hev.
  split; [reflexivity|].
  intros i Hi. cbn [trace emit after pin_level]. rewrite !pin_level_app, Hev.
  destruct (pin_written_low i Hi) as (P1 & P2). rewrite P1, P2.
  split; reflexivity.
Qed.

Ltac hdk :=
  cbv zeta;
  lazymatch goal with
  | |- halts_dark (bind _ _) => apply halts_dark_bind; [hdk | intros ?; hdk]
  | |- halts_dark (while _ _ _) => apply halts_dark_while; [hdk | hdk]
  | |- halts_dark (if ?b then _ else _) => destruct b; hdk
  | |- halts_dark (shutdown_now _) => apply halts_dark_shutdown_now
  | |- _ => first [assumption | intros ?; exact I]
  end.

Ltac open_to_shutdown :=
  unfold sketch, setup, advanced_setup, normal_setup, normal_poll,
    startup_animation, loop, await_beacon, depleted, shield_handler,
    held_above, update_shield, advanced_mode, number_entry, entry_poll,
    fast_select, inc_health, inc_shield, load_settings, show_dashes,
    display_num, button_is_pressed;
  cbn [for_each seven ten_down].

(** X10. However the device comes to be powered down (start-up timeout or
    depleted health), it is with all fourteen segment lines low and the
    sleep request as its last effect: no segment stays lit in sleep. *)
Theorem powered_down_is_dark fuel w w' :
  setup level jitter fuel w = Halt w' \/
  loop level jitter fuel w = Halt w' \/
  sketch level jitter fuel w = Halt w' ->
  hd_error (map snd (trace w')) = Some Sleep /\ blank w'.
Proof.
  assert (H1 : halts_dark (setup level jitter fuel)) by (open_to_shutdown; hdk).
  assert (H2 : halts_dark (loop level jitter fuel)) by (open_to_shutdown; hdk).
  assert (H3 : halts_dark (sketch level jitter fuel)) by (open_to_shutdown; hdk).
  specialize (H1 w). specialize (H2 w). specialize (H3 w). unfold wp in *.
  intros [E | [E | E]]; rewrite E in *; assumption.
Qed.

(* ===================================================================== *)
(** ** Hits *)
(* ===================================================================== *)

Lemma button_false_last p w w' :
  button_is_pressed level jitter p w = Ret false w' ->
  hd_error (map snd (trace w')) = Some (DigitalRead p false).
Proof.
  unfold button_is_pressed, bind, digitalRead, delay.
  destruct (level p (now w)) eqn:L0.
  - match goal with
    | |- context [level p ?t] => destruct (level p t) eqn:L1
    end; intros E; [discriminate|]. injection E as <-. reflexivity.
  - intros E. injection E as <-. reflexivity.
Qed.

Lemma button_adds p w b w' :
  button_is_pressed level jitter p w = Ret b w' ->
  exists ev dt k, w' = after ev dt k w /\ 0 <= dt <= 58.
Proof.
  intros E. destruct (io_button_is_pressed p w) as (b' & ev & dt & k & E' & Hdt & _).
  rewrite E in E'. injection E' as _ ->. eauto.
Qed.

(** X11. A hit taken with health left costs exactly one health point: when
    the beacon is seen lit and health is positive, loop renders and keeps
    health - 1, leaves the shield count alone, does not power down, and
    returns only once a read of the beacon line has found it dark. *)
Theorem hit_costs_one_health fuel w w1 :
  await_beacon level jitter fuel w = Ret tt w1 ->
  0 < health w1 <= 32767 ->
  let r := loop level jitter fuel w in
  halted r = false /\
  health (final r) = health w1 - 1 /\
  shields_remaining (final r) = shields_remaining w1 /\
  In (Shown (health w1 - 1)) (map snd (trace (final r))) /\
  (forall w', r = Ret tt w' ->
     hd_error (map snd (trace w')) = Some (DigitalRead Hit_Beacon_Pin false)).
Proof.
  intros E Hh. cbv zeta. unfold loop. rewrite (bind_ret _ _ _ _ _ E).
  rewrite (bind_ret (get health) _ w1 (health w1) w1 eq_refl).
  destruct (Z.gtb_spec (health w1) 0) as [_ | ?]; [|lia].
  rewrite s16_id by lia.
  rewrite (bind_ret (modify (put_health (health w1 - 1))) _ w1 tt
             (put_health (health w1 - 1) w1) eq_refl).
  rewrite (bind_ret (get health) _ (put_health (health w1 - 1) w1)
             (health w1 - 1) (put_health (health w1 - 1) w1) eq_refl).
  destruct (runs_display_num (health w1 - 1) (put_health (health w1 - 1) w1))
    as ([] & ev & dt & k & E1 & _ & Hev).
  rewrite (bind_ret _ _ _ _ _ E1).
  set (w2 := after ev dt k (put_health (health w1 - 1) w1)).
  set (I := fun w' : World =>
              health w' = health w1 - 1 /\
              shields_remaining w' = shields_remaining w1 /\
              In (Shown (health w1 - 1)) (map snd (trace w'))).
  assert (H2 : I w2).
  { unfold I, w2. cbn [health shields_remaining trace after put_health].
    split; [reflexivity|]. split; [reflexivity|].
    rewrite map_app. apply in_or_app. left. rewrite Hev.
    apply in_or_app. right. left. reflexivity. }
  assert (Hwp : wp (while fuel (button_is_pressed level jitter Hit_Beacon_Pin) skip)
                   (fun _ w' => I w' /\ hd_error (map snd (trace w'))
                                        = Some (DigitalRead Hit_Beacon_Pin false))
                   (fun _ => False) I w2).
  { apply wp_while with (I := I); [auto | | exact H2].
    intros w3 (A1 & A2 & A3). unfold wp.
    destruct (button_is_pressed level jitter Hit_Beacon_Pin w3) as [b w4 | w4 | w4] eqn:Eb.
    - destruct (button_adds _ _ _ _ Eb) as (ev' & dt' & k' & -> & _).
      assert (I (after ev' dt' k' w3)).
      { unfold I. cbn [health shields_remaining trace after].
        split; [exact A1|]. split; [exact A2|].
        rewrite map_app. apply in_or_app. right. exact A3. }
      destruct b; [exact H|]. split; [exact H|].
      apply (button_false_last _ _ _ Eb).
    - pose proof (stays_up_button Hit_Beacon_Pin w3) as (Hup & _).
      rewrite Eb in Hup. discriminate.
    - destruct (io_button_is_pressed Hit_Beacon_Pin w3)
        as (? & ? & ? & ? & E' & _). rewrite Eb in E'. discriminate. }
  unfold wp in Hwp.
  destruct (while fuel (button_is_pressed level jitter Hit_Beacon_Pin) skip w2)
    as [[] w5 | w5 | w5]; cbn [halted final].
  - destruct Hwp as ((A1 & A2 & A3) & A4). repeat split; auto.
    intros w' Ew. injection Ew as <-. exact A4.
  - contradiction.
  - destruct Hwp as (A1 & A2 & A3). repeat split; auto. discriminate.
Qed.

(* ===================================================================== *)
(** ** In play the counters only go down *)
(* ===================================================================== *)

Lemma capped_after H S ev dt k w :
  0 <= dt -> capped H S w -> capped H S (after ev dt k w).
Proof.
  unfold capped, horizon. wsimpl. intros Hdt Hw Hh.
  destruct Hw as (A & B & C); [lia|]. repeat split; lia.
Qed.

Lemma capped_shield_handler H S fuel w :
  S <= 32767 -> capped H S w ->
  wp (shield_handler level jitter fuel)
     (fun _ => capped H S) (capped H S) (capped H S) w.
Proof.
  intros HS Hw.
  assert (Hcase : now w < horizon \/ horizon <= now w) by lia.
  destruct Hcase as [Hlt | Hge].
  - destruct (Hw Hlt) as (Hn & Hhe & Hsh).
    assert (HF : forall w',
               Fin w (Z.max (shields_remaining w - 10) 0)
                   (shields_remaining w) w' -> capped H S w').
    { intros w' HF Hh.
      destruct (HF Hh) as (Hm & Ehh & Hs & _).
      repeat split; lia. }
    eapply wp_weaken; [apply shield_handler_logged; lia | | |]; auto.
  - destruct (stays_up_shield_handler fuel w) as (_ & _ & Hclock).
    unfold wp.
    destruct (shield_handler level jitter fuel w); simpl in Hclock;
      intros Hh; lia.
Qed.

Lemma capped_wait H S p fuel w (Q : unit -> World -> Prop) QH :
  (forall w', capped H S w' -> Q tt w') ->
  capped H S w ->
  wp (while fuel (button_is_pressed level jitter p) skip) Q QH (capped H S) w.
Proof.
  intros HQ Hw. apply wp_while with (I := capped H S); [auto | | exact Hw].
  intros w1 H1. wp_step.
  assert (H2 : capped H S (after ev dt k w1)) by (apply capped_after; [lia | exact H1]).
  destruct b; [wp_step; exact H2 | apply HQ, H2].
Qed.

Lemma capped_loop H S fuel w :
  H <= 32767 -> S <= 32767 -> capped H S w ->
  wp (loop level jitter fuel) (fun _ => capped H S) (capped H S) (capped H S) w.
Proof.
  intros HH HS Hw. unfold loop, await_beacon. wp_step.
  apply wp_while with (I := capped H S); [auto | | exact Hw].
  intros w1 H1. wp_step. wp_step. wp_step.
  assert (H2 : capped H S (after ev dt k w1)) by (apply capped_after; [lia | exact H1]).
  destruct b; cbn [negb].
  2:{ apply capped_shield_handler; assumption. }
  wp_step. wp_step. wp_if.
  - repeat wp_step. apply capped_wait; [auto|].
    apply capped_after; [lia|].
    unfold capped, horizon in *. wsimpl. wsimpl_in H2. wsimpl_in H0. intros Hh.
    destruct H2 as (A & B & C); [lia|].
    rewrite s16_id by lia. repeat split; lia.
  - unfold depleted. repeat wp_step.
    eapply wp_io; [apply (io_delay is_pin_io 60000); [lia | exact I] |].
    intros _ ev1 dt1 k1 Hdt1 _. cbv beta.
    apply wp_shutdown_now. intros ev2 dt2 k2 Hdt2 _.
    unfold capped, horizon in *. wsimpl. wsimpl_in H2. intros Hh.
    destruct H2 as (A & B & C); [lia|]. repeat split; lia.
Qed.

(** X12. In play neither counter ever goes up: however many passes of loop
    a run makes and whatever the inputs, health is at most what it was when
    play began, and shields_remaining is at most what it was and not
    negative (for runs that end before the clock horizon). *)
Theorem play_never_gains fuel w :
  0 <= now w -> health w <= 32767 -> 0 <= shields_remaining w <= 32767 ->
  now (final (while fuel (ret true) (loop level jitter fuel) w)) < horizon ->
  health (final (while fuel (ret true) (loop level jitter fuel) w)) <= health w /\
  0 <= shields_remaining (final (while fuel (ret true) (loop level jitter fuel) w))
    <= shields_remaining w.
Proof.
  intros Hn Hh Hs Hz.
  assert (H0 : capped (health w) (shields_remaining w) w)
    by (intros _; repeat split; lia).
  assert (Hwp : wp (while fuel (ret true) (loop level jitter fuel))
                   (fun _ => capped (health w) (shields_remaining w))
                   (capped (health w) (shields_remaining w))
                   (capped (health w) (shields_remaining w)) w).
  { apply wp_while with (I := capped (health w) (shields_remaining w));
      [auto | | exact H0].
    intros w1 H1. wp_step. apply capped_loop; [lia | lia | exact H1]. }
  unfold wp in Hwp.
  destruct (while fuel (ret true) (loop level jitter fuel) w);
    cbn [final] in *; destruct (Hwp Hz) as (_ & A & B); split; lia.
Qed.

(* ===================================================================== *)
(** ** What a shield activation costs *)
(* ===================================================================== *)

Lemma button_pressed_adds p w w1 :
  button_is_pressed level jitter p w = Ret true w1 ->
  exists ev dt k,
    w1 = after ev dt k w /\ 55 <= dt <= 58 /\
    Forall (fun te => is_pin_io (snd te)) ev.
Proof.
  intros E. destruct (button_frame _ _ _ _ E) as (_ & _ & _ & _ & _ & Hlo).
  destruct (io_button_is_pressed p w) as (b & ev & dt & k & E' & Hdt & Hev).
  rewrite E in E'. injection E' as _ ->. specialize (Hlo eq_refl).
  cbn [now after] in Hlo. exists ev, dt, k. repeat split; auto; lia.
Qed.

(** A debounced press starts an activation; the handler then ends, if it
    ends, with the floor respected and at least one point spent. *)
Lemma activation_pressed fuel w0 w1 :
  button_is_pressed level jitter Shield_Pin w0 = Ret true w1 ->
  0 <= now w0 -> 0 <= shields_remaining w0 <= 32767 ->
  wp (shield_handler level jitter fuel)
     (fun _ w' =>
        now w' < horizon ->
        Logged w0 (Z.max (shields_remaining w0 - 10) 0) (shields_remaining w0) w' /\
        (shields_remaining w' < shields_remaining w0 \/ shields_remaining w0 = 0))
     (fun _ => False) (fun _ => True) w0.
Proof.
  intros E Hnow Hp.
  set (p := shields_remaining w0) in *. set (f := Z.max (p - 10) 0).
  assert (Hf : 0 <= f <= p) by lia.
  assert (H0 : Logged w0 f p w0)
    by (split; [lia | apply Logged'_start; lia]).
  unfold shield_handler. apply wp_bind. unfold wp at 1. rewrite E.
  destruct (button_pressed_adds _ _ _ E) as (ev & dt & k & -> & Hdt & Hev).
  repeat wp_step. cbn -[Z.sub Z.add Z.div horizon Z.gtb] in Hev0 |- *.
  fold p in Hev0 |- *.
  assert (Hmin : (if s16 (p - 10) >? 0 then s16 (p - 10) else 0) = f).
  { rewrite s16_id by lia. destruct (Z.gtb_spec (p - 10) 0); lia. }
  rewrite Hmin.
  eapply wp_post;
    [apply wp_shield_countdown with (w0 := w0) (p := p) (d := 0);
     auto; try lia |].
  { unfold Act, Logged, Timed, horizon. cbn -[Z.sub Z.add Z.div].
    intros Hh. jits. unwrap. split; [split; [lia|] | lia].
    apply Logged'_io with (n := p); [| exact Hev0 | left; lia].
    apply Logged'_pin; [apply H0 | exact Hev]. }
  intros u w2 H2. cbv beta in H2. wp_step.
  eapply wp_post;
    [apply wp_shield_countdown with (w0 := w0) (p := p) (d := 58);
     auto; try lia |].
  intros u' w3 H3. cbv beta in H3. repeat wp_step.
  apply wp_wait_release with (w0 := w0) (p := p); auto.
  + intros w4 H4. repeat wp_step.
    lazymatch goal with
    | |- wp (if ?c then _ else _) _ _ _ _ => destruct c eqn:C
    end.
    * wp_step. cbn in C. apply Z.gtb_lt in C.
      unfold horizon. cbn -[Z.sub Z.add Z.div]. intros Hh.
      assert (HL : Logged w0 f p w4) by (apply H4; unfold horizon; lia).
      destruct HL as (Hm & HL). pose proof HL as (Hhh & Hsp & _).
      unfold Logged. cbn -[Z.sub Z.add Z.div]. unwrap.
      split; [|left; lia]. split; [lia|].
      apply Logged'_set with (s := shields_remaining w4); [|lia].
      apply Logged'_io with (n := health w4);
        [exact HL | exact Hev1 | right; exact Hhh].
    * wp_step. cbn in C.
      unfold horizon. cbn -[Z.sub Z.add Z.div]. intros Hh.
      assert (HL : Logged w0 f p w4) by (apply H4; unfold horizon; lia).
      destruct HL as (Hm & HL). pose proof HL as (Hhh & Hsp & _).
      unfold Logged. cbn -[Z.sub Z.add Z.div].
      split.
      -- split; [lia|].
         apply Logged'_io with (n := health w4);
           [exact HL | exact Hev1 | right; exact Hhh].
      -- destruct (Z.gtb_spec (shields_remaining w4) f); [discriminate|].
         lia.
  + apply (Fin_recount w0 f p w3); auto; lia.
Qed.

(** X13. Before the clock reaches [horizon] (2^30 ms) a debounced press of
    Shield costs something: when the handler returns, with the clock still
    below the horizon, from an activation started with a positive count,
    the count is lower than it was, by ten at most, and health is
    untouched; with the count at 0 it stays at 0.  A call that finds Shield
    not pressed changes nothing at all, whatever the clock. *)
Theorem activation_costs_at_least_one fuel w :
  (forall w1 w',
     button_is_pressed level jitter Shield_Pin w = Ret true w1 ->
     0 <= now w -> 0 <= shields_remaining w <= 32767 ->
     shield_handler level jitter fuel w = Ret tt w' -> now w' < horizon ->
     Z.max (shields_remaining w - 10) 0 <= shields_remaining w' /\
     (0 < shields_remaining w -> shields_remaining w' < shields_remaining w) /\
     (shields_remaining w = 0 -> shields_remaining w' = 0) /\
     health w' = health w) /\
  (forall w1,
     button_is_pressed level jitter Shield_Pin w = Ret false w1 ->
     shield_handler level jitter fuel w = Ret tt w1).
Proof.
  split.
  - intros w1 w' E Hn Hs Er Hh.
    pose proof (activation_pressed fuel w w1 E Hn Hs) as H.
    unfold wp in H. rewrite Er in H.
    destruct (H Hh) as ((_ & Ehh & Hb & _) & Hc). repeat split; lia.
  - intros w1 E. unfold shield_handler. rewrite (bind_ret _ _ _ _ _ E).
    reflexivity.
Qed.

(* ===================================================================== *)
(** ** Holding the Shield button down *)
(* ===================================================================== *)

Lemma wp_conj {A} (m : M A) (Q1 Q2 : A -> World -> Prop)
  (QH1 QH2 QS1 QS2 : World -> Prop) w :
  wp m Q1 QH1 QS1 w -> wp m Q2 QH2 QS2 w ->
  wp m (fun a w' => Q1 a w' /\ Q2 a w') (fun w' => QH1 w' /\ QH2 w')
       (fun w' => QS1 w' /\ QS2 w') w.
Proof. unfold wp. destruct (m w); auto. Qed.

Lemma wp_stays_up {A} (m : M A) (Q : A -> World -> Prop) QH QS w :
  stays_up m ->
  (forall a w', now w <= now w' -> Q a w') ->
  (forall w', now w <= now w' -> QS w') ->
  wp m Q QH QS w.
Proof.
  intros Hm HQ HS. destruct (Hm w) as (Hup & _ & Hclock). unfold wp.
  destruct (m w); cbn [final halted] in *; auto. discriminate.
Qed.

Lemma stays_up_update_shield : stays_up (update_shield jitter).
Proof. unfold update_shield. su. Qed.

(** A debounced read of a button that is held until [T]. *)
Lemma button_held_until p w T :
  (forall t, now w <= t <= T -> level p t = true) ->
  exists b ev dt k,
    button_is_pressed level jitter p w = Ret b (after ev dt k w) /\
    0 <= dt <= 58 /\ Forall (fun te => is_pin_io (snd te)) ev /\
    (now w + dt <= T -> b = true).
Proof.
  intros Hheld.
  destruct (io_button_is_pressed p w) as (b & ev & dt & k & E & Hdt & Hev).
  exists b, ev, dt, k. split; [exact E|]. split; [exact Hdt|].
  split; [exact Hev|]. intros HT.
  revert E. unfold button_is_pressed, bind, digitalRead, delay.
  rewrite (Hheld (now w)) by lia.
  match goal with
  | |- context [level p ?t] => destruct (level p t) eqn:L1
  end; intros E.
  - apply (f_equal returned) in E. unfold ret in E. cbn [returned] in E.
    injection E as <-. reflexivity.
  - exfalso. apply (f_equal (fun r => now (final r))) in E.
    unfold ret in E. cbn [final] in E. revert L1 E. wsimpl. intros L1 E. jits.
    rewrite Hheld in L1; [discriminate | lia].
Qed.

Lemma wp_held_above_until T (want : bool) m (Q : bool -> World -> Prop) QH QS w :
  (forall t, now w <= t <= T -> level Shield_Pin t = true) ->
  (forall b ev dt k, 0 <= dt <= 58 ->
     Forall (fun te => is_pin_io (snd te)) ev ->
     (now w + dt <= T ->
        b = (if want then shields_remaining w >? m else false)) ->
     Q b (after ev dt k w)) ->
  wp (held_above level jitter want m) Q QH QS w.
Proof.
  intros Hheld HQ. unfold held_above. apply wp_bind. unfold wp at 1.
  destruct (button_held_until Shield_Pin w T Hheld)
    as (b & ev & dt & k & E & Hdt & Hev & Hb).
  rewrite E. destruct (Bool.eqb b want) eqn:Eq.
  - repeat wp_step. apply HQ; auto. cbn [shields_remaining after].
    intros HT. rewrite (Hb HT) in Eq. destruct want; [reflexivity|discriminate].
  - wp_step. apply HQ; auto.
    intros HT. rewrite (Hb HT) in Eq. destruct want; [discriminate|reflexivity].
Qed.

(** The two countdown loops while the button is held until [T]: the first
    can only be left with the floor reached, and the second is left at
    once. *)
Lemma wp_countdown_until T w0 f want fuel w QH :
  (forall t, now w0 <= t <= T -> level Shield_Pin t = true) ->
  now w0 <= now w ->
  (want = false -> now w <= T -> shields_remaining w <= f) ->
  wp (while fuel (held_above level jitter want f) (update_shield jitter))
     (fun _ w' => now w0 <= now w' /\ (now w' <= T -> shields_remaining w' <= f))
     QH (fun _ => True) w.
Proof.
  intros Hheld Hn Hs.
  apply wp_while with
    (I := fun w1 => now w0 <= now w1 /\
                    (want = false -> now w1 <= T -> shields_remaining w1 <= f));
    [auto | | auto].
  intros w1 (H1 & H2).
  apply (wp_held_above_until T).
  { intros t Ht. apply Hheld. lia. }
  intros b ev dt k Hdt Hev Hb. destruct b.
  - apply wp_stays_up; [apply stays_up_update_shield | | auto].
    intros _ w2 Hclock. cbn [now after] in Hclock. split; [lia|].
    intros -> HT. specialize (Hb ltac:(lia)). discriminate.
  - cbn [now shields_remaining after]. split; [lia|].
    intros HT. specialize (Hb HT). destruct want.
    + symmetry in Hb. destruct (Z.gtb_spec (shields_remaining w1) f);
        [discriminate | lia].
    + apply H2; [reflexivity | lia].
Qed.

Lemma wp_release_until T w0 f fuel w QH :
  now w0 <= now w -> (now w <= T -> shields_remaining w <= f) ->
  wp (while fuel (held_above level jitter true f) skip)
     (fun _ w' => now w0 <= now w' /\ (now w' <= T -> shields_remaining w' <= f))
     QH (fun _ => True) w.
Proof.
  intros Hn Hs.
  apply wp_while with
    (I := fun w1 => now w0 <= now w1 /\
                    (now w1 <= T -> shields_remaining w1 <= f));
    [auto | | auto].
  intros w1 (H1 & H2). apply wp_held_above. intros b ev dt k Hdt Hev _.
  assert (H3 : now w0 <= now (after ev dt k w1) /\
               (now (after ev dt k w1) <= T ->
                shields_remaining (after ev dt k w1) <= f)).
  { cbn [now shields_remaining after]. split; [lia|]. intros HT. apply H2. lia. }
  destruct b; [wp_step|]; exact H3.
Qed.

Lemma activation_held T fuel w0 :
  (forall t, now w0 <= t <= T -> level Shield_Pin t = true) ->
  T < horizon -> 0 <= now w0 -> 0 <= shields_remaining w0 <= 32767 ->
  wp (shield_handler level jitter fuel)
     (fun _ w' =>
        now w' <= T ->
        shields_remaining w' = Z.max (shields_remaining w0 - 10) 0 /\
        health w' = health w0)
     (fun _ => False) (fun _ => True) w0.
Proof.
  intros Hheld HT Hnow Hp.
  set (p := shields_remaining w0) in *. set (f := Z.max (p - 10) 0).
  assert (Hf : 0 <= f <= p) by lia.
  assert (H0 : Logged w0 f p w0)
    by (split; [lia | apply Logged'_start; lia]).
  unfold shield_handler. apply wp_bind. unfold wp at 1.
  destruct (button_held_until Shield_Pin w0 T)
    as (b & ev & dt & k & E & Hdt & Hev & Hb).
  { intros t Ht. apply Hheld. lia. }
  rewrite E. destruct b.
  2:{ wp_step. cbn [now after]. intros Hle. specialize (Hb Hle). discriminate. }
  repeat wp_step. cbn -[Z.sub Z.add Z.div horizon Z.gtb] in Hev0 |- *.
  fold p in Hev0 |- *.
  assert (Hmin : (if s16 (p - 10) >? 0 then s16 (p - 10) else 0) = f).
  { rewrite s16_id by lia. destruct (Z.gtb_spec (p - 10) 0); lia. }
  rewrite Hmin.
  eapply wp_weaken;
    [ apply wp_conj;
        [ apply wp_shield_countdown
            with (w0 := w0) (p := p) (d := 0)
                 (QH := fun _ => False) (QS := fun _ => True);
          auto; try lia
        | apply wp_countdown_until
            with (T := T) (w0 := w0) (QH := fun _ => False);
          [exact Hheld | | discriminate] ]
    | | intros ? []; assumption | auto ].
  { unfold Act, Logged, Timed, horizon. cbn -[Z.sub Z.add Z.div].
    intros Hh. jits. unwrap. split; [split; [lia|] | lia].
    apply Logged'_io with (n := p); [| exact Hev0 | left; lia].
    apply Logged'_pin; [apply H0 | exact Hev]. }
  { wsimpl. jits. lia. }
  intros u w2 (A2 & N2 & S2). cbv beta. wp_step.
  eapply wp_weaken;
    [ apply wp_conj;
        [ apply wp_shield_countdown
            with (w0 := w0) (p := p) (d := 58)
                 (QH := fun _ => False) (QS := fun _ => True);
          auto; try lia
        | apply wp_countdown_until
            with (T := T) (w0 := w0) (QH := fun _ => False);
          [exact Hheld | exact N2 | intros _; exact S2] ]
    | | intros ? []; assumption | auto ].
  intros u' w3 (A3 & N3 & S3). cbv beta. repeat wp_step.
  match goal with
  | |- wp _ _ _ _ ?W =>
      assert (F4 : Fin w0 f p W) by (apply (Fin_recount w0 f p w3); auto; lia);
      assert (S4 : now W <= T -> shields_remaining W <= f)
  end.
  { cbn -[Z.sub Z.add Z.div]. intros Hle. jits.
    destruct A3 as ((Hm & HL) & Ht1 & Ht2 & Ht3); [unfold horizon in *; lia|].
    destruct HL as (_ & Hsp & _).
    assert (Es : shields_remaining w3 = f) by lia.
    specialize (Ht3 Es). unfold horizon in *. unwrap. lia. }
  eapply wp_weaken;
    [ apply wp_conj;
        [ apply wp_wait_release
            with (w0 := w0) (p := p) (Q := fun _ => Fin w0 f p)
                 (QH := fun _ => False) (QS := fun _ => True);
          auto
        | apply wp_release_until
            with (T := T) (w0 := w0) (QH := fun _ => False);
          [wsimpl; jits; lia | exact S4] ]
    | | intros ? []; assumption | auto ].
  intros u'' w4 (F5 & N5 & S5). cbv beta. repeat wp_step.
  lazymatch goal with
  | |- wp (if ?c then _ else _) _ _ _ _ => destruct c eqn:C
  end.
  - wp_step. cbn in C. apply Z.gtb_lt in C. cbn -[Z.sub Z.add Z.div].
    intros Hle. lia.
  - wp_step. cbn in C. cbn -[Z.sub Z.add Z.div]. intros Hle.
    destruct F5 as (_ & Hhh & Hsp & _); [unfold horizon in *; lia|].
    split; [lia | exact Hhh].
Qed.

(** X14. Holding Shield down spends the whole allowance and no more: if the
    button is held from the call of the handler until the handler returns,
    and it returns before the clock reaches [horizon] (2^30 ms), the
    activation ends with shields_remaining at exactly max (prior - 10) 0
    and health untouched. *)
Theorem held_shield_drains_to_floor fuel w w' :
  (forall t, now w <= t <= now w' -> level Shield_Pin t = true) ->
  0 <= now w -> 0 <= shields_remaining w <= 32767 ->
  shield_handler level jitter fuel w = Ret tt w' -> now w' < horizon ->
  shields_remaining w' = Z.max (shields_remaining w - 10) 0 /\
  health w' = health w.
Proof.
  intros Hheld Hn Hs Er Hh.
  pose proof (activation_held (now w') fuel w Hheld Hh Hn Hs) as H.
  unfold wp in H. rewrite Er in H. apply H. lia.
Qed.

(* ===================================================================== *)
(** ** Number entry saves what was selected *)
(* ===================================================================== *)

Section NumberEntry.

(** An invariant that pin traffic and the passing of time do not disturb,
    and that the increment in use preserves. *)
Variable Inv : World -> Prop.
Hypothesis Inv_after : forall ev dt k w, Inv w -> Inv (after ev dt k w).
Hypothesis Inv_tick : forall w, Inv w -> Inv (tick jitter w).
Variable inc : M unit.
Hypothesis Inv_inc :
  forall w (Q : unit -> World -> Prop) QH QS,
    Inv w -> (forall w', Inv w' -> Q tt w') -> wp inc Q QH QS w.

Lemma wp_wait_inv p fuel w (Q : unit -> World -> Prop) QH QS :
  (forall w', Inv w' -> Q tt w') -> (forall w', Inv w' -> QS w') -> Inv w ->
  wp (while fuel (button_is_pressed level jitter p) skip) Q QH QS w.
Proof.
  intros HQ HS Hw. apply wp_while with (I := Inv); [exact HS | | exact Hw].
  intros w1 H1. wp_step. destruct b; [wp_step|apply HQ]; apply Inv_after, H1.
Qed.

Lemma wp_number_entry fuel w (Q : unit -> World -> Prop) QH QS :
  (forall w', Inv w' -> Q tt w') -> (forall w', Inv w' -> QS w') -> Inv w ->
  wp (number_entry level jitter fuel inc) Q QH QS w.
Proof.
  intros HQ HS Hw. unfold number_entry.
  apply wp_while with (I := Inv); [exact HS | | exact Hw].
  intros w1 H1. wp_step. wp_step. wp_step. destruct b; cbn [negb].
  { apply HQ, Inv_after, H1. }
  unfold entry_poll. wp_step. wp_step. destruct b.
  2:{ wp_step. apply Inv_after, Inv_after, H1. }
  wp_step. apply Inv_inc; [apply Inv_after, Inv_after, H1|].
  intros w2 H2. wp_step. wp_step.
  apply wp_while with (I := Inv); [exact HS | | apply Inv_tick, H2].
  intros w3 H3. wp_step. destruct b.
  2:{ apply Inv_after, H3. }
  unfold fast_select. wp_step. wp_step. wp_if.
  - wp_step. apply Inv_inc; [apply Inv_tick, Inv_after, H3|].
    intros w4 H4.
    eapply wp_io; [apply (io_delay is_pin_io 100); [lia | exact I] |].
    intros _ ? ? ? _ _. apply Inv_after, H4.
  - wp_step. apply Inv_tick, Inv_after, H3.
Qed.

End NumberEntry.

Lemma in_range_inc_health w (Q : unit -> World -> Prop) QH QS :
  in_range w -> (forall w', in_range w' -> Q tt w') ->
  wp (inc_health jitter) Q QH QS w.
Proof.
  intros (Hh & Hs) HQ. unfold wp. rewrite inc_health_unfold. cbv zeta.
  match goal with
  | |- context [display_num jitter ?v ?W] =>
      destruct (runs_display_num v W) as ([] & ev & dt & k & E & _ & _)
  end.
  rewrite E. apply HQ. split; cbn [health shields_remaining after put_health].
  - destruct (Z.ltb_spec (health w) 99); [rewrite s16_id by lia|]; lia.
  - exact Hs.
Qed.

Lemma shield_entry_inc_shield h w (Q : unit -> World -> Prop) QH QS :
  (in_range w /\ health w = h /\ eeprom w ADVANCED_HEALTH_ADDRESS = h) ->
  (forall w', in_range w' /\ health w' = h /\
              eeprom w' ADVANCED_HEALTH_ADDRESS = h -> Q tt w') ->
  wp (inc_shield jitter) Q QH QS w.
Proof.
  intros ((Hh & Hs) & Eh & Er) HQ. unfold wp. rewrite inc_shield_unfold.
  cbv zeta.
  match goal with
  | |- context [display_num jitter ?v ?W] =>
      destruct (runs_display_num v W) as ([] & ev & dt & k & E & _ & _)
  end.
  rewrite E. apply HQ. unfold in_range.
  cbn [health shields_remaining eeprom after put_shields].
  split; [split; [exact Hh|] | split; assumption].
  destruct (Z.ltb_spec (shields_remaining w) 99); [rewrite s16_id by lia|]; lia.
Qed.

(** What [advanced_mode] returns with. *)
Lemma advanced_mode_saved fuel w :
  in_range w ->
  wp (advanced_mode level jitter fuel)
     (fun _ w' => in_range w' /\ saved w') (fun _ => False) (fun _ => True) w.
Proof.
  intros Hw. unfold advanced_mode. wp_step.
  apply (wp_number_entry in_range);
    [ intros ? ? ? ? H; exact H | intros ? H; exact H
    | intros; apply in_range_inc_health; assumption
    | | auto | exact Hw ].
  intros w1 H1. wp_step.
  apply (wp_wait_inv in_range);
    [ intros ? ? ? ? H; exact H | | auto | exact H1 ].
  intros w2 H2. wp_step. wp_step. wp_step.
  unfold EEPROM_write at 1. unfold wp at 1. cbv beta iota.
  wp_step. wp_step. wp_step. wp_step. wp_step.
  set (h := health w2) in *.
  set (J := fun w' : World =>
              in_range w' /\ health w' = h /\
              eeprom w' ADVANCED_HEALTH_ADDRESS = h).
  apply (wp_number_entry J);
    [ intros ? ? ? ? H; exact H | intros ? H; exact H
    | intros; apply (shield_entry_inc_shield h); assumption
    | | auto | ].
  2:{ unfold J. wsimpl. destruct H2 as (Hh & Hs).
      split; [split; assumption|]. split; [reflexivity|].
      cbn. apply u8_id. fold h in Hh. lia. }
  intros w3 H3. wp_step.
  apply (wp_wait_inv J);
    [ intros ? ? ? ? H; exact H | | auto | exact H3 ].
  intros w4 ((Hh & Hs) & Eh & Er). wp_step. wp_step.
  unfold EEPROM_write, wp. unfold saved. wsimpl.
  split; [split; assumption|]. cbn.
  split; [rewrite Er, Eh; reflexivity | apply u8_id; lia].
Qed.

(** X15. Number entry ends with what was selected saved: when advanced_mode
    returns, both counters are in [0,99], cell 46 holds health and cell 47
    holds shields_remaining; so the boot-time load of the next
    advanced-mode start, reading that EEPROM, restores exactly these two
    values. *)
Theorem advanced_mode_saves_selection fuel w w' :
  0 <= health w <= 99 -> 0 <= shields_remaining w <= 99 ->
  advanced_mode level jitter fuel w = Ret tt w' ->
  (0 <= health w' <= 99 /\ 0 <= shields_remaining w' <= 99) /\
  eeprom w' ADVANCED_HEALTH_ADDRESS = health w' /\
  eeprom w' ADVANCED_SHIELD_ADDRESS = shields_remaining w' /\
  exists w'',
    load_settings jitter (boot (eeprom w')) = Ret tt w'' /\
    health w'' = health w' /\ shields_remaining w'' = shields_remaining w' /\
    eeprom w'' ADVANCED_HEALTH_ADDRESS = health w' /\
    eeprom w'' ADVANCED_SHIELD_ADDRESS = shields_remaining w'.
Proof.
  intros Hh Hs E.
  pose proof (advanced_mode_saved fuel w (conj Hh Hs)) as H.
  unfold wp in H. rewrite E in H. destruct H as ((Hh' & Hs') & E1 & E2).
  split; [split; assumption|]. split; [exact E1|]. split; [exact E2|].
  eexists. split.
  - unfold load_settings, EEPROM_write, EEPROM_read, bind, modify.
    cbn [eeprom tick count_op elapse emit store put_health put_shields
         load_health load_shields boot].
    rewrite E1, E2. rewrite !u8_id by lia.
    replace (health w' >? 99) with false
      by (symmetry; rewrite Z.gtb_ltb; apply Z.ltb_ge; lia).
    replace (shields_remaining w' >? 99) with false
      by (symmetry; rewrite Z.gtb_ltb; apply Z.ltb_ge; lia).
    cbn [orb]. reflexivity.
  - cbn. auto.
Qed.

(* ===================================================================== *)
(** ** The mode chosen at power-on *)
(* ===================================================================== *)

#[local] Instance settled_chains : Chains settled.
Proof.
  split.
  - intros w. repeat split; reflexivity.
  - intros w1 w2 w3 (A1 & B1 & C1) (A2 & B2 & C2).
    split; [congruence|]. split; [congruence|].
    intros a. rewrite C2. apply C1.
Qed.

Ltac settled_leaf := intros ?; repeat split; reflexivity.

Lemma startup_animation_settled fuel :
  respects settled (startup_animation level jitter fuel).
Proof. open_sketch. rs settled_leaf. Qed.

Lemma normal_setup_rom fuel :
  respects (rom_kept []) (normal_setup level jitter fuel).
Proof. open_sketch. rs rom_leaf. Qed.

Lemma stays_up_advanced_branch fuel :
  stays_up (advanced_setup level jitter fuel ;;
            startup_animation level jitter fuel).
Proof.
  pose proof (stays_up_advanced_mode fuel).
  assert (stays_up (show_dashes jitter)).
  { apply (stays_up_io 14 is_pin_io); [intros e He ->; exact He|].
    apply io_segments. intros; exact I. }
  unfold advanced_setup, startup_animation, load_settings.
  cbn [for_each ten_down]. su.
Qed.

(** The world in which [setup] makes its first read: the seventeen pin
    directions are set, at most 17 ms have passed, and nothing else has
    changed but the two timeout variables. *)
Lemma setup_choice fuel w :
  exists ev dt k,
    0 <= dt <= 17 /\
    setup level jitter fuel w
    = (b <- button_is_pressed level jitter Shield_Pin ;;
       (if (b : bool) then advanced_setup level jitter fuel
        else normal_setup level jitter fuel) ;;
       startup_animation level jitter fuel)
        (after ev dt k (put_timeout_max 61000 (put_startup_timeout 0 w))).
Proof.
  unfold setup.
  rewrite (bind_ret (modify (put_startup_timeout 0)) _ w tt _ eq_refl).
  rewrite (bind_ret (modify (put_timeout_max 61000)) _ _ tt _ eq_refl).
  destruct (io_pin_directions (put_timeout_max 61000 (put_startup_timeout 0 w)))
    as ([] & ev & dt & k & E & Hdt & _).
  rewrite (bind_ret _ _ _ _ _ E).
  destruct (io_pinMode is_pin_io Hit_Beacon_Pin false I
              (after ev dt k (put_timeout_max 61000 (put_startup_timeout 0 w))))
    as ([] & ev1 & dt1 & k1 & E1 & Hdt1 & _).
  rewrite (bind_ret _ _ _ _ _ E1).
  match goal with
  | |- context [bind (pinMode jitter Shield_Pin false) _ ?W] =>
      destruct (io_pinMode is_pin_io Shield_Pin false I W)
        as ([] & ev2 & dt2 & k2 & E2 & Hdt2 & _)
  end.
  rewrite (bind_ret _ _ _ _ _ E2).
  match goal with
  | |- context [bind (pinMode jitter Fire_Pin false) _ ?W] =>
      destruct (io_pinMode is_pin_io Fire_Pin false I W)
        as ([] & ev3 & dt3 & k3 & E3 & Hdt3 & _)
  end.
  rewrite (bind_ret _ _ _ _ _ E3). rewrite !after_after.
  eexists _, _, _. split; [|reflexivity]. lia.
Qed.

(** X16. The mode is chosen by the level of Shield at power-on.  Held
    through the first 75 ms, set-up continues as advanced set-up, in which
    nothing can power the device down.  Low during the first 17 ms, set-up
    continues as normal set-up: it ends (whichever way) with one of the two
    game types in the counters and every cell of the EEPROM as it was.  In
    both cases the branch starts with the counters and the EEPROM
    untouched. *)
Theorem setup_mode_selection fuel w :
  ((forall t, now w <= t <= now w + 75 -> level Shield_Pin t = true) ->
   exists w1,
     setup level jitter fuel w
       = (advanced_setup level jitter fuel ;;
          startup_animation level jitter fuel) w1 /\
     settled w w1 /\
     halted (setup level jitter fuel w) = false) /\
  ((forall t, now w <= t <= now w + 17 -> level Shield_Pin t = false) ->
   exists w1,
     setup level jitter fuel w
       = (normal_setup level jitter fuel ;;
          startup_animation level jitter fuel) w1 /\
     settled w w1 /\
     game_type (final (setup level jitter fuel w)) /\
     forall a, eeprom (final (setup level jitter fuel w)) a = eeprom w a).
Proof.
  destruct (setup_choice fuel w) as (ev & dt & k & Hdt & E).
  set (w0 := after ev dt k (put_timeout_max 61000 (put_startup_timeout 0 w))) in *.
  split.
  - intros Hheld.
    destruct (button_held_until Shield_Pin w0 (now w + 75))
      as (b & ev1 & dt1 & k1 & Eb & Hdt1 & _ & Hb).
    { intros t Ht. apply Hheld. revert Ht. unfold w0. wsimpl. lia. }
    rewrite Hb in Eb by (unfold w0; wsimpl; lia).
    rewrite (bind_ret _ _ _ _ _ Eb) in E.
    exists (after ev1 dt1 k1 w0). split; [exact E|].
    split; [repeat split; reflexivity|].
    rewrite E. apply (stays_up_advanced_branch fuel).
  - intros Hlow.
    assert (Eb : button_is_pressed level jitter Shield_Pin w0
                 = Ret false (tick jitter (emit (DigitalRead Shield_Pin false) w0))).
    { unfold button_is_pressed, bind, digitalRead.
      rewrite Hlow by (unfold w0; wsimpl; lia). reflexivity. }
    rewrite (bind_ret _ _ _ _ _ Eb) in E.
    set (w1 := tick jitter (emit (DigitalRead Shield_Pin false) w0)) in *.
    exists w1. split; [exact E|]. split; [repeat split; reflexivity|].
    assert (H1 : forall a, eeprom w1 a = eeprom w a) by reflexivity.
    set (P := fun w' : World =>
                game_type w' /\ forall a, eeprom w' a = eeprom w a).
    assert (Hwp : wp (normal_setup level jitter fuel ;;
                      startup_animation level jitter fuel)
                     (fun _ => P) P P w1).
    { apply wp_bind.
      eapply wp_weaken;
        [ apply wp_conj;
            [ apply wp_normal_setup_game_type
            | apply (wp_respects _ _ (fun _ w' => rom_kept [] w1 w')
                       (rom_kept [] w1) (rom_kept [] w1) _
                       (normal_setup_rom fuel)); auto ]
        | | | ].
      + intros _ w2 (G & K).
        apply (wp_respects _ _ _ _ _ _ (startup_animation_settled fuel));
          [ intros _ w3 (A & B & C) | intros w3 (A & B & C)
          | intros w3 (A & B & C) ];
          (split;
            [ unfold game_type in *; rewrite A, B; exact G
            | intros a; rewrite C, (K a eq_refl); apply H1 ]).
      + intros w2 (G & K). split; [exact G|].
        intros a. rewrite (K a eq_refl). apply H1.
      + intros w2 (G & K). split; [exact G|].
        intros a. rewrite (K a eq_refl). apply H1. }
    unfold wp in Hwp. rewrite E.
    destruct ((normal_setup level jitter fuel;;
               startup_animation level jitter fuel) w1); exact Hwp.
Qed.

(* ===================================================================== *)
(** ** A shield activation shields *)
(* ===================================================================== *)

#[local] Instance health_kept_chains : Chains health_kept.
Proof.
  split; [reflexivity|]. unfold health_kept. intros; congruence.
Qed.

Ltac health_leaf := intros ?; reflexivity.

(** X17. While the shield handler runs no hit can register: it reads no pin
    but Shield's (the beacon line is not sampled), it assigns nothing to
    health, and it cannot power the device down. *)
Theorem shield_handler_shields fuel w :
  halted (shield_handler level jitter fuel w) = false /\
  health (final (shield_handler level jitter fuel w)) = health w /\
  exists ev,
    trace (final (shield_handler level jitter fuel w)) = ev ++ trace w /\
    forallb (fun te => shield_only (snd te)) ev = true.
Proof.
  assert (H1 : respects health_kept (shield_handler level jitter fuel))
    by (open_sketch; rs health_leaf).
  assert (H2 : respects (logs_only shield_only) (shield_handler level jitter fuel))
    by (open_sketch; rs log_leaf).
  destruct (stays_up_shield_handler fuel w) as (Hup & _).
  split; [exact Hup|]. split; [exact (H1 w) | exact (H2 w)].
Qed.

(* ===================================================================== *)
(** ** EEPROM wear *)
(* ===================================================================== *)

#[local] Instance no_write_chains : Chains no_write.
Proof.
  split; [reflexivity|]. unfold no_write. intros; congruence.
Qed.

Ltac write_leaf := intros ?; reflexivity.

Lemma writes_none {A} (m : M A) : respects no_write m -> writes_at_most 0 m.
Proof. intros H w. rewrite (H w). lia. Qed.

Lemma writes_bind {A B} a b (m : M A) (f : A -> M B) :
  writes_at_most a m -> (forall x, writes_at_most b (f x)) ->
  writes_at_most (a + b) (bind m f).
Proof.
  intros Hm Hf w. specialize (Hm w). unfold bind.
  destruct (m w) as [x w1 | w1 | w1]; cbn [final] in *; try lia.
  specialize (Hf x w1). lia.
Qed.

Lemma writes_weaken {A} a b (m : M A) :
  writes_at_most a m -> (a <= b)%nat -> writes_at_most b m.
Proof. intros Hm Hab w. specialize (Hm w). lia. Qed.

Lemma writes_one a v : writes_at_most 1 (EEPROM_write jitter a v).
Proof.
  intros w. unfold rom_writes, EEPROM_write. cbn [final]. wsimpl.
  cbn [filter snd is_rom_write length]. lia.
Qed.

Lemma writes_if {A} n (b : bool) (m1 m2 : M A) :
  writes_at_most n m1 -> writes_at_most n m2 ->
  writes_at_most n (if b then m1 else m2).
Proof. destruct b; auto. Qed.

(** Count the writes of a sequence: the loops and the renderings make
    none, each call of [EEPROM.write] makes one. *)
Ltac count_writes :=
  lazymatch goal with
  | |- writes_at_most _ (bind _ _) =>
      eapply writes_bind; [count_writes | intros ?; count_writes]
  | |- writes_at_most _ (EEPROM_write _ _ _) => apply writes_one
  | |- writes_at_most _ _ =>
      first [ eassumption | apply writes_none; open_sketch; rs write_leaf ]
  end.

Lemma advanced_mode_writes fuel :
  writes_at_most 2 (advanced_mode level jitter fuel).
Proof.
  unfold advanced_mode.
  eapply writes_weaken; [count_writes | cbn; lia].
Qed.

Lemma load_settings_writes : writes_at_most 2 (load_settings jitter).
Proof.
  unfold load_settings.
  eapply writes_weaken.
  - eapply writes_bind; [count_writes | intros ?].
    eapply writes_bind; [count_writes | intros ?].
    eapply writes_bind; [count_writes | intros ?].
    eapply writes_bind; [count_writes | intros ?].
    apply (writes_if 2).
    + eapply writes_weaken; [count_writes | cbn; lia].
    + apply writes_weaken with (a := 0%nat); [|lia].
      apply writes_none. rs write_leaf.
  - cbn. lia.
Qed.

(** X18. EEPROM wear is bounded: from power-on the sketch writes the EEPROM
    at most four times (two by the boot-time reset of unknown settings, two
    to save the selection), however long it runs; number entry itself
    writes at most twice, and a pass of the game loop never. *)
Theorem eeprom_writes_bounded fuel w :
  (rom_writes (final (sketch level jitter fuel w)) <= rom_writes w + 4)%nat /\
  (rom_writes (final (advanced_mode level jitter fuel w)) <= rom_writes w + 2)%nat /\
  rom_writes (final (loop level jitter fuel w)) = rom_writes w.
Proof.
  pose proof (advanced_mode_writes fuel) as Ha.
  pose proof load_settings_writes as Hl.
  split; [|split].
  - assert (H : writes_at_most 4 (sketch level jitter fuel)).
    { unfold sketch, setup.
      eapply writes_weaken.
      - eapply writes_bind; [|intros ?; count_writes].
        do 7 (eapply writes_bind; [count_writes | intros ?]).
        eapply writes_bind; [|intros ?; count_writes].
        apply (writes_if 4).
        + unfold advanced_setup.
          eapply writes_weaken; [count_writes | cbn; lia].
        + apply writes_weaken with (a := 0%nat); [count_writes | lia].
      - cbn. lia. }
    apply H.
  - apply Ha.
  - assert (H : respects no_write (loop level jitter fuel))
      by (open_sketch; rs write_leaf).
    apply H.
Qed.

(* ===================================================================== *)
(** ** Between events the display shows the health *)
(* ===================================================================== *)

#[local] Instance screen_kept_chains : Chains screen_kept.
Proof.
  split.
  - intros w. split; [reflexivity | intros p; reflexivity].
  - intros w1 w2 w3 (A1 & B1) (A2 & B2). split; [congruence|].
    intros p. rewrite (B2 p). apply B1.
Qed.

Ltac screen_leaf := intros ?; split; [reflexivity | intros ?; reflexivity].

Lemma shows_health_kept w w' :
  screen_kept w w' -> shows_health w -> shows_health w'.
Proof.
  intros (A & B) (Hh & Hd). split; [rewrite A; exact Hh|].
  rewrite A. intros i Hi. rewrite !B. apply Hd, Hi.
Qed.

Lemma button_screen_kept p :
  respects screen_kept (button_is_pressed level jitter p).
Proof. open_sketch. rs screen_leaf. Qed.

Lemma wait_screen_kept p fuel :
  respects screen_kept (while fuel (button_is_pressed level jitter p) skip).
Proof. open_sketch. rs screen_leaf. Qed.

Lemma countdown_health_kept fuel want m :
  respects health_kept
    (while fuel (held_above level jitter want m) (update_shield jitter)).
Proof. open_sketch. rs health_leaf. Qed.

Lemma release_health_kept fuel want m :
  respects health_kept (while fuel (held_above level jitter want m) skip).
Proof. open_sketch. rs health_leaf. Qed.

(** The handler hands the display back showing the health. *)
Lemma shield_handler_shows_health fuel w :
  shows_health w ->
  wp (shield_handler level jitter fuel)
     (fun _ w' => shows_health w' /\ health w' = health w)
     (fun _ => True) (fun _ => True) w.
Proof.
  intros Hw. unfold shield_handler. wp_step.
  apply (wp_respects _ _ _ _ _ _ (button_screen_kept Shield_Pin)); auto.
  intros b w1 K1. pose proof K1 as (E1 & _). destruct b.
  2:{ wp_step. split; [exact (shows_health_kept _ _ K1 Hw) | exact E1]. }
  repeat wp_step.
  apply (wp_respects _ _ _ _ _ _ (countdown_health_kept fuel true _)); auto.
  intros _ w2 E2. wp_step.
  apply (wp_respects _ _ _ _ _ _ (countdown_health_kept fuel false _)); auto.
  intros _ w3 E3. repeat wp_step.
  apply (wp_respects _ _ _ _ _ _ (release_health_kept fuel true _)); auto.
  intros _ w4 E4. wp_step. wp_step. wp_step.
  assert (Eh : health w4 = health w).
  { unfold health_kept in *. rewrite E4. revert E3. wsimpl. intros ->.
    rewrite E2. wsimpl. exact E1. }
  assert (Hr : 0 <= health w4 <= 99) by (rewrite Eh; apply Hw).
  unfold wp at 1.
  destruct (display_num_displays (health w4) w4 Hr)
    as (ev' & dt' & k' & E' & _ & D).
  rewrite E'. wp_step. wp_step.
  assert (S5 : shows_health (after ev' dt' k' w4) /\
               health (after ev' dt' k' w4) = health w).
  { split; [split; [exact Hr | exact D] | exact Eh]. }
  wp_if; wp_step; exact S5.
Qed.

(** X19. In play the display follows the health: if a pass of loop starts
    with the display showing the health (in [0,99]) and returns, a hit was
    taken, the health is one less, and the display shows the new health;
    shield activations on the way borrow the display for the shield count
    and hand it back showing the health. *)
Theorem loop_keeps_health_on_display fuel w w' :
  0 <= health w <= 99 -> displays (health w) w ->
  loop level jitter fuel w = Ret tt w' ->
  health w' = health w - 1 /\ 0 <= health w' <= 99 /\
  displays (health w') w'.
Proof.
  intros Hh Hd E.
  assert (Hwp : wp (loop level jitter fuel)
                   (fun _ w' => shows_health w' /\ health w' = health w - 1)
                   (fun _ => True) (fun _ => True) w).
  { unfold loop, await_beacon. wp_step.
    apply wp_while with
      (I := fun w1 => shows_health w1 /\ health w1 = health w);
      [auto | | split; [split; assumption | reflexivity]].
    intros w1 (S1 & E1). wp_step.
    apply (wp_respects _ _ _ _ _ _ (button_screen_kept Hit_Beacon_Pin)); auto.
    intros b w2 K2. wp_step. pose proof K2 as (E2 & _).
    pose proof (shows_health_kept _ _ K2 S1) as S2.
    destruct b; cbn [negb].
    2:{ eapply wp_post; [apply shield_handler_shows_health, S2|].
        intros _ w3 (S3 & E3). split; [exact S3 | congruence]. }
    wp_step. wp_step. wp_if; [|exact I].
    wp_step. wp_step. wp_step. wp_step. wp_step.
    assert (Hr : 0 <= health w2 - 1 <= 99) by (destruct S2; lia).
    rewrite s16_id by lia. cbn [health put_health].
    unfold wp at 1.
    destruct (display_num_displays (health w2 - 1)
                (put_health (health w2 - 1) w2) Hr)
      as (ev' & dt' & k' & E' & _ & D).
    rewrite E'.
    apply (wp_respects _ _ _ _ _ _ (wait_screen_kept Hit_Beacon_Pin fuel)); auto.
    intros _ w3 K3. split.
    - apply (shows_health_kept _ _ K3). split; [exact Hr | exact D].
    - destruct K3 as (-> & _). cbn [health after put_health]. lia. }
  unfold wp in Hwp. rewrite E in Hwp. destruct Hwp as ((A & B) & C).
  rewrite C in *. auto.
Qed.

(* ===================================================================== *)
(** ** A held button: the activation ends by itself *)
(* ===================================================================== *)

(** A loop whose measure drops with every pass ends before the fuel does. *)
Lemma wp_while_total (Inv : World -> Prop) (mu : World -> nat) cond body
  (Q : unit -> World -> Prop) QH QS :
  (forall w, Inv w ->
     wp cond (fun b w' =>
                if (b : bool)
                then wp body (fun _ w'' => Inv w'' /\ (mu w'' < mu w)%nat) QH QS w'
                else Q tt w') QH QS w) ->
  forall fuel w, Inv w -> (mu w < fuel)%nat -> wp (while fuel cond body) Q QH QS w.
Proof.
  intros Hstep. induction fuel as [|n IH]; intros w Hw Hlt; [lia|].
  cbn [while]. apply wp_bind.
  eapply wp_weaken; [apply Hstep, Hw | | auto | auto].
  intros [|] w1 H1.
  - apply wp_bind. eapply wp_weaken; [exact H1 | | auto | auto].
    intros _ w2 (I2 & Hmu). apply IH; [exact I2 | lia].
  - exact H1.
Qed.

Lemma button_held p w :
  (forall t, now w <= t <= now w + 58 -> level p t = true) ->
  exists ev dt k,
    button_is_pressed level jitter p w = Ret true (after ev dt k w) /\
    55 <= dt <= 58.
Proof.
  intros Hheld.
  destruct (button_held_until p w (now w + 58) Hheld)
    as (b & ev & dt & k & E & Hdt & _ & Hb).
  rewrite Hb in E by lia.
  destruct (button_pressed_adds _ _ _ E) as (ev' & dt' & k' & Ew & Hdt' & _).
  rewrite Ew in E. eauto.
Qed.

Lemma held_above_held (want : bool) m w :
  (forall t, now w <= t <= now w + 58 -> level Shield_Pin t = true) ->
  exists ev dt k,
    held_above level jitter want m w
      = Ret (if want then shields_remaining w >? m else false) (after ev dt k w) /\
    55 <= dt <= 58.
Proof.
  intros Hheld. destruct (button_held Shield_Pin w Hheld) as (ev & dt & k & E & Hdt).
  exists ev, dt, k. split; [|exact Hdt].
  unfold held_above. rewrite (bind_ret _ _ _ _ _ E).
  destruct want; reflexivity.
Qed.

(** One call of [update_shield], more than a millisecond-counter wrap away
    from trouble: nothing happens before the anchor is 999 ms old, and
    then exactly one point is taken and the anchor is renewed. *)
Lemma update_shield_exact w :
  0 <= shield_timing w <= now w -> now w < horizon ->
  now w - shield_timing w <= 1900 ->
  0 < shields_remaining w <= 32767 ->
  exists w',
    update_shield jitter w = Ret tt w' /\ health w' = health w /\
    ((now w < shield_timing w + 999 /\
      shields_remaining w' = shields_remaining w /\
      shield_timing w' = shield_timing w /\
      now w <= now w' <= now w + 1) \/
     (shield_timing w + 999 <= now w /\
      shields_remaining w' = shields_remaining w - 1 /\
      now w <= shield_timing w' <= now w + 2 /\
      shield_timing w' <= now w' <= shield_timing w' + 15)).
Proof.
  intros Ht Hh Hd Hs. unfold horizon in *.
  unfold update_shield, bind, millis, get, modify.
  cbn [shield_timing tick count_op elapse now ops shields_remaining].
  rewrite (s32_id (shield_timing w + 999)) by lia.
  rewrite (u32_id (shield_timing w + 999)) by lia.
  rewrite (u32_id (now w)) by lia.
  destruct (Z.leb_spec (shield_timing w + 999) (now w)) as [Hge | Hlt].
  - jits.
    match goal with
    | |- context [display_num jitter ?v ?W] =>
        destruct (runs_display_num v W) as ([] & ev & dt & k & E & Hdt & _)
    end.
    rewrite E. eexists. split; [reflexivity|].
    cbn -[Z.sub Z.add Z.div]. jits. unwrap.
    split; [reflexivity|]. right. repeat split; lia.
  - eexists. split; [reflexivity|]. wsimpl. jits.
    split; [reflexivity|]. left. repeat split; lia.
Qed.

Lemma passes_left_drop a w w' :
  now w + 55 <= now w' -> now w' <= a + 11000 ->
  (passes_left a w' < passes_left a w)%nat.
Proof.
  intros Hstep Hend. unfold passes_left.
  set (y := a + 11000 - now w'). set (x := a + 11000 - now w).
  assert (Hy : 0 <= y / 55) by (apply Z.div_pos; lia).
  assert (Hxy : y / 55 + 1 <= x / 55).
  { replace (y / 55 + 1) with ((y + 1 * 55) / 55)
      by (rewrite Z.div_add by lia; reflexivity).
    apply Z.div_le_mono; lia. }
  lia.
Qed.

Lemma while_exit cond body n w w1 :
  cond w = Ret false w1 -> while (S n) cond body w = Ret tt w1.
Proof. intros E. cbn [while]. rewrite (bind_ret _ _ _ _ _ E). reflexivity. Qed.

(** The first countdown loop with the button held: it ends, with the floor
    reached and the anchor at most 73 ms old. *)
Lemma held_countdown_ends a h f p fuel w :
  (forall t, a <= t <= a + 10700 -> level Shield_Pin t = true) ->
  0 <= f -> f <= p <= 32767 -> p - 10 <= f ->
  0 <= a -> a + 11000 < horizon -> (201 <= fuel)%nat ->
  draining a h f p w ->
  wp (while fuel (held_above level jitter true f) (update_shield jitter))
     (fun _ w' =>
        health w' = h /\ shields_remaining w' = f /\
        0 <= shield_timing w' <= now w' /\ now w' - shield_timing w' <= 73 /\
        a <= now w' <= a + 10673)
     (fun _ => False) (fun _ => False) w.
Proof.
  intros Hheld Hf Hp Hpf Ha Hz Hfuel Hw.
  apply wp_while_total with (Inv := draining a h f p) (mu := passes_left a);
    [| exact Hw |].
  2:{ destruct Hw as (_ & _ & (Ht0 & Ht1) & _ & _ & Ha0 & _).
      unfold passes_left.
      assert ((a + 11000 - now w) / 55 <= 200)
        by (apply Z.div_le_upper_bound; lia).
      lia. }
  intros w1 (Eh & Hs & Ht & Hd & Hd' & Hlo & Hhi). unfold wp at 1.
  destruct (held_above_held true f w1) as (ev & dt & k & E & Hdt).
  { intros t Htt. apply Hheld. nia. }
  rewrite E.
  destruct (Z.gtb_spec (shields_remaining w1) f) as [Hgt | Hle].
  - destruct (update_shield_exact (after ev dt k w1))
      as (w2 & E2 & Eh2 & Hcase).
    { cbn [shield_timing now after]. lia. }
    { cbn [now after]. unfold horizon in *. nia. }
    { cbn [shield_timing now after]. lia. }
    { cbn [shields_remaining after]. lia. }
    unfold wp. rewrite E2.
    cbn [health shields_remaining shield_timing now after] in Eh2, Hcase.
    split.
    + unfold draining.
      destruct Hcase as [(C1 & C2 & C3 & C4) | (C1 & C2 & C3 & C4)].
      * rewrite Eh2, C2, C3. repeat split; try lia.
      * rewrite Eh2, C2. repeat split; try lia.
    + apply passes_left_drop;
        destruct Hcase as [(C1 & C2 & C3 & C4) | (C1 & C2 & C3 & C4)]; nia.
  - cbn [health shields_remaining shield_timing now after].
    assert (Es : shields_remaining w1 = f) by lia.
    specialize (Hd' Es). repeat split; lia.
Qed.

(** X20. Holding Shield down ends the activation by itself: if the button
    stays down for 11 s from the call of the handler, the handler returns
    within those 11 s (given fuel for the 201 passes its first loop can
    make), with shields_remaining at exactly max (prior - 10) 0 and health
    untouched. *)
Theorem held_shield_returns fuel w :
  (forall t, now w <= t <= now w + 11000 -> level Shield_Pin t = true) ->
  0 <= now w -> now w + 11200 < horizon ->
  0 <= shields_remaining w <= 32767 -> (201 <= fuel)%nat ->
  exists w',
    shield_handler level jitter fuel w = Ret tt w' /\
    now w' <= now w + 11000 /\
    shields_remaining w' = Z.max (shields_remaining w - 10) 0 /\
    health w' = health w.
Proof.
  intros Hheld Hn Hz Hp Hfuel.
  set (p := shields_remaining w) in *. set (f := Z.max (p - 10) 0).
  set (P := fun w' : World =>
              now w' <= now w + 11000 /\ shields_remaining w' = f /\
              health w' = health w).
  assert (Hwp : wp (shield_handler level jitter fuel) (fun _ => P)
                   (fun _ => False) (fun _ => False) w).
  { unfold shield_handler. apply wp_bind. unfold wp at 1.
    destruct (button_held Shield_Pin w) as (ev & dt & k & E & Hdt).
    { intros t Ht. apply Hheld. lia. }
    rewrite E. repeat wp_step.
    cbn -[Z.sub Z.add Z.div horizon Z.gtb]. fold p.
    assert (Hmin : (if s16 (p - 10) >? 0 then s16 (p - 10) else 0) = f).
    { rewrite s16_id by lia. destruct (Z.gtb_spec (p - 10) 0); lia. }
    rewrite Hmin. unfold horizon in *.
    rewrite (u32_id (now w + dt)) by lia.
    rewrite (s32_id (now w + dt)) by lia.
    eapply wp_weaken;
      [ apply held_countdown_ends
          with (a := now w + dt) (h := health w) (p := p); try lia
      | | auto | auto ].
    { intros t Ht. apply Hheld. lia. }
    { unfold horizon. lia. }
    { unfold draining. cbn -[Z.sub Z.add Z.div]. jits. repeat split; try lia. }
    intros _ w2 (Eh & Es & Ht & Hd & Hend). cbv beta. wp_step.
    destruct fuel as [|n]; [lia|].
    destruct (held_above_held false f w2) as (ev2 & dt2 & k2 & E2 & Hdt2).
    { intros t Htt. apply Hheld. lia. }
    unfold wp at 1. rewrite (while_exit _ _ _ _ _ E2).
    repeat wp_step.
    cbn -[Z.sub Z.add Z.div Z.gtb].
    rewrite (u32_id (now w2 + dt2)) by lia.
    rewrite (div999_small (u32 (now w2 + dt2 - shield_timing w2)))
      by (rewrite u32_id by lia; lia).
    rewrite Z.sub_0_r, (u32_id (shields_remaining w2)) by lia.
    rewrite (s16_id (shields_remaining w2)) by lia.
    match goal with
    | |- wp _ _ _ _ ?W =>
        destruct (held_above_held true f W) as (ev3 & dt3 & k3 & E3 & Hdt3)
    end.
    { intros t Htt. apply Hheld. revert Htt. wsimpl. jits. lia. }
    assert (Hff : (f >? f) = false) by (rewrite Z.gtb_ltb; apply Z.ltb_irrefl).
    cbn [shields_remaining put_shields] in E3. rewrite Es in E3.
    rewrite Hff in E3.
    unfold wp at 1. rewrite Es. rewrite (bind_ret _ _ _ _ _ E3).
    unfold skip, ret. cbv iota.
    repeat wp_step. cbn -[Z.sub Z.add Z.div Z.gtb].
    rewrite Hff. unfold wp. cbv beta iota. unfold P. cbn -[Z.sub Z.add Z.div]. jits.
    repeat split; try lia. }
  unfold wp in Hwp.
  destruct (shield_handler level jitter fuel w) as [[] w' | w' | w'];
    try contradiction.
  exists w'. destruct Hwp as (A & B & C). auto.
Qed.

(* ===================================================================== *)
(** ** The rate of the countdown *)
(* ===================================================================== *)

Lemma paid_after a p ev dt k w : 0 <= dt -> paid a p w -> paid a p (after ev dt k w).
Proof.
  unfold paid, horizon. wsimpl. intros Hdt H Hh. apply H. lia.
Qed.

Lemma paid_by_now_after a p ev dt k w :
  0 <= dt -> paid_by_now a p w -> paid_by_now a p (after ev dt k w).
Proof.
  unfold paid_by_now, horizon. wsimpl. intros Hdt H Hh.
  assert (999 * (p - shields_remaining w) <= now w - a) by (apply H; lia). lia.
Qed.

Lemma update_shield_returns w :
  exists w', update_shield jitter w = Ret tt w' /\ now w <= now w'.
Proof.
  unfold update_shield, bind, millis, get, modify.
  match goal with |- context [if ?c then _ else _] => destruct c end.
  - match goal with
    | |- context [display_num jitter ?v ?W] =>
        destruct (runs_display_num v W) as ([] & ev & dt & k & E & Hdt & _)
    end.
    rewrite E. eexists. split; [reflexivity|]. wsimpl. jits. lia.
  - eexists. split; [reflexivity|]. wsimpl. jits. lia.
Qed.

(** One call of [update_shield] inside a countdown loop takes a point only
    for 999 ms of anchor. *)
Lemma wp_update_shield_paid a w0 f p d w QH QS :
  0 <= f -> p <= 32767 -> 0 <= d <= 900 ->
  (now w < horizon -> Logged w0 f p w /\ Timed f d w /\ f < shields_remaining w) ->
  paid a p w ->
  wp (update_shield jitter) (fun _ w' => paid a p w') QH QS w.
Proof.
  intros Hf Hp Hd Hpre Hpaid.
  destruct (update_shield_returns w) as (w' & EU & Hclock).
  unfold wp. rewrite EU. intros Hh.
  assert (Hw : now w < horizon) by lia.
  destruct (Hpre Hw) as ((_ & _ & Hsp & _) & (Ht1 & Ht2 & _) & Hs).
  destruct (Hpaid Hw) as (Ha & Hr).
  destruct (update_shield_exact w) as (w2 & E2 & _ & Hcase); try lia.
  rewrite EU in E2. injection E2 as <-.
  destruct Hcase as [(C1 & C2 & C3 & C4) | (C1 & C2 & C3 & C4)];
    rewrite C2; split; lia.
Qed.

Lemma wp_countdown_paid a w0 f p d fuel want w QH :
  0 <= f -> p <= 32767 -> 0 <= d <= 58 ->
  Act w0 f p d w -> paid a p w ->
  wp (while fuel (held_above level jitter want f) (update_shield jitter))
     (fun _ w' => Act w0 f p (d + 58) w' /\ paid a p w')
     QH (fun _ => True) w.
Proof.
  intros Hf Hp Hd HA HP.
  apply wp_while with (I := fun w1 => Act w0 f p d w1 /\ paid a p w1);
    [auto | | split; assumption].
  intros w1 (A1 & P1). apply wp_held_above. intros b ev dt k Hdt Hev Hb.
  destruct b.
  - assert (Hpre : now (after ev dt k w1) < horizon ->
                   Logged w0 f p (after ev dt k w1) /\
                   Timed f (d + 58) (after ev dt k w1) /\
                   f < shields_remaining (after ev dt k w1)).
    { intros Hh.
      pose proof (Act_after _ _ _ _ 58 _ _ k _ A1 Hdt Hev Hh) as (HL & HT).
      split; [exact HL|]. split; [exact HT|]. cbn. auto. }
    eapply wp_weaken;
      [ apply wp_conj;
          [ apply (wp_update_shield w0 f p (d + 58)) with (QH := QH)
                                                       (QS := fun _ => True);
            auto; lia
          | apply (wp_update_shield_paid a w0 f p (d + 58)) with (QH := QH)
                                                       (QS := fun _ => True);
            auto; try lia; apply paid_after; [lia | exact P1] ]
      | | intros ? []; assumption | auto ].
    intros _ w2 (A2 & P2). split; [|exact P2].
    apply Act_weaken with (d := 0); [lia | exact A2].
  - split; [apply (Act_after _ _ _ _ 58); auto | apply paid_after; [lia | exact P1]].
Qed.

Lemma wp_release_paid a p f fuel want w QH :
  paid_by_now a p w ->
  wp (while fuel (held_above level jitter want f) skip)
     (fun _ w' => paid_by_now a p w') QH (fun _ => True) w.
Proof.
  intros HP. apply wp_while with (I := paid_by_now a p); [auto | | exact HP].
  intros w1 H1. apply wp_held_above. intros b ev dt k Hdt Hev _.
  assert (H2 : paid_by_now a p (after ev dt k w1))
    by (apply paid_by_now_after; [lia | exact H1]).
  destruct b; [wp_step|]; exact H2.
Qed.

(** Line 504 charges the time since the last anchor at the same rate. *)
Lemma paid_recount a w0 f p w :
  0 <= f -> p <= 32767 -> Act w0 f p 116 w -> paid a p w ->
  paid_by_now a p
    (put_shields
       (s16 (u32 (shields_remaining w -
                  u32 (u32 (now w) - shield_timing w) / 999)))
       (tick jitter w)).
Proof.
  intros Hf Hp HA HP. unfold paid_by_now, horizon. cbn -[Z.sub Z.add Z.div Z.mul].
  intros Hh. jits.
  assert (Hw : now w < horizon) by (unfold horizon; lia).
  destruct (HA Hw) as ((Hm & HL) & Ht1 & Ht2 & Ht3).
  destruct (HP Hw) as (Ha & Hr).
  pose proof HL as (_ & Hsp & _). unfold horizon in *.
  destruct (Z.lt_ge_cases (now w - shield_timing w) 999) as [Hlt | Hge].
  - unwrap. lia.
  - assert (shields_remaining w <> f) by lia. unwrap. lia.
Qed.

Lemma activation_rate fuel w0 :
  0 <= now w0 -> 0 <= shields_remaining w0 <= 32767 ->
  wp (shield_handler level jitter fuel)
     (fun _ w' =>
        now w' < horizon ->
        999 * (shields_remaining w0 - shields_remaining w' - 1)
          <= now w' - now w0)
     (fun _ => True) (fun _ => True) w0.
Proof.
  intros Hnow Hp.
  set (p := shields_remaining w0) in *. set (f := Z.max (p - 10) 0).
  assert (Hf : 0 <= f <= p) by lia.
  assert (H0 : Logged w0 f p w0)
    by (split; [lia | apply Logged'_start; lia]).
  unfold shield_handler. repeat wp_step. destruct b.
  - repeat wp_step. cbn -[Z.sub Z.add Z.div Z.mul horizon Z.gtb] in Hev0 |- *.
    fold p in Hev0 |- *.
    assert (Hmin : (if s16 (p - 10) >? 0 then s16 (p - 10) else 0) = f).
    { rewrite s16_id by lia. destruct (Z.gtb_spec (p - 10) 0); lia. }
    rewrite Hmin.
    eapply wp_weaken;
      [ apply wp_countdown_paid
          with (a := now w0 + dt) (w0 := w0) (p := p) (d := 0)
               (QH := fun _ => True); auto; try lia
      | | auto | auto ].
    { unfold Act, Logged, Timed, horizon. cbn -[Z.sub Z.add Z.div Z.mul].
      intros Hh. jits. unwrap. split; [split; [lia|] | lia].
      apply Logged'_io with (n := p); [| exact Hev0 | left; lia].
      apply Logged'_pin; [apply H0 | exact Hev]. }
    { unfold paid, horizon. cbn -[Z.sub Z.add Z.div Z.mul]. intros Hh. jits.
      unwrap. fold p. lia. }
    intros u w2 (A2 & P2). cbv beta. wp_step.
    eapply wp_weaken;
      [ apply wp_countdown_paid
          with (a := now w0 + dt) (w0 := w0) (p := p) (d := 58)
               (QH := fun _ => True); auto; try lia
      | | auto | auto ].
    intros u' w3 (A3 & P3). cbv beta. repeat wp_step.
    match goal with
    | |- wp _ _ _ _ ?W =>
        assert (F4 : Fin w0 f p W) by (apply (Fin_recount w0 f p w3); auto; lia);
        assert (N4 : paid_by_now (now w0 + dt) p W)
          by (apply (paid_recount _ w0 f p w3); auto; lia)
    end.
    eapply wp_weaken;
      [ apply wp_conj;
          [ apply wp_wait_release
              with (w0 := w0) (p := p) (Q := fun _ => Fin w0 f p)
                   (QH := fun _ => True) (QS := fun _ => True);
            auto
          | apply wp_release_paid with (QH := fun _ => True); exact N4 ]
      | | auto | auto ].
    intros u'' w4 (F5 & N5). cbv beta. repeat wp_step.
    lazymatch goal with
    | |- wp (if ?c then _ else _) _ _ _ _ => destruct c eqn:C
    end.
    + wp_step. cbn in C. apply Z.gtb_lt in C.
      unfold horizon. cbn -[Z.sub Z.add Z.div Z.mul]. intros Hh.
      destruct F5 as (_ & _ & Hsp & _); [unfold horizon; lia|].
      assert (N6 : 999 * (p - shields_remaining w4) <= now w4 - (now w0 + dt))
        by (apply N5; unfold horizon; lia).
      unwrap. fold p. lia.
    + wp_step. unfold horizon. cbn -[Z.sub Z.add Z.div Z.mul]. intros Hh.
      assert (N6 : 999 * (p - shields_remaining w4) <= now w4 - (now w0 + dt))
        by (apply N5; unfold horizon; lia).
      fold p. lia.
  - wp_step. cbn -[Z.sub Z.add Z.div Z.mul]. intros _. fold p. lia.
Qed.

(** X21. An activation charges for time at the rate of the code: however
    the button is worked, when the handler returns the points it took are
    at most one for every full 999 ms it ran, and one more (the point for
    unused time). *)
Theorem shield_drain_rate fuel w w' :
  0 <= now w -> 0 <= shields_remaining w <= 32767 ->
  shield_handler level jitter fuel w = Ret tt w' -> now w' < horizon ->
  shields_remaining w - shields_remaining w' <= (now w' - now w) / 999 + 1.
Proof.
  intros Hn Hs Er Hh.
  pose proof (activation_rate fuel w Hn Hs) as H.
  unfold wp in H. rewrite Er in H. specialize (H Hh).
  assert (shields_remaining w - shields_remaining w' - 1 <= (now w' - now w) / 999)
    by (apply Z.div_le_lower_bound; lia).
  lia.
Qed.

(* ===================================================================== *)
(** ** A held button and the start-up timeout *)
(* ===================================================================== *)

Lemma button_low p w :
  level p (now w) = false ->
  button_is_pressed level jitter p w
  = Ret false (tick jitter (emit (DigitalRead p false) w)).
Proof.
  intros L. unfold button_is_pressed, bind, digitalRead. rewrite L. reflexivity.
Qed.

(** Waiting for the release of a button that stays down. *)
Lemma wait_spins_when_held p n w :
  (forall t, now w <= t -> level p t = true) ->
  exists w',
    while n (button_is_pressed level jitter p) skip w = Spin w' /\
    now w + 55 * Z.of_nat n <= now w' /\
    health w' = health w /\ shields_remaining w' = shields_remaining w.
Proof.
  revert w. induction n as [|n IH]; intros w Hheld.
  - exists w. split; [reflexivity|]. repeat split; lia.
  - destruct (button_held p w) as (ev & dt & k & E & Hdt).
    { intros t Ht. apply Hheld. lia. }
    destruct (IH (after ev dt k w)) as (w' & E' & Hn & Hh & Hs).
    { intros t Ht. apply Hheld. revert Ht. wsimpl. lia. }
    exists w'. cbn [while]. rewrite (bind_ret _ _ _ _ _ E).
    rewrite (bind_ret skip _ _ tt _ eq_refl). split; [exact E'|].
    revert Hn Hh Hs. wsimpl. intros Hn Hh Hs. repeat split; lia.
Qed.

(** X22. The start-up timeout is not checked while Shield is held: with
    Shield down from the call on and Fire never pressed, normal set-up
    switches once to 25/30 and then only waits for the release; however
    many polls the run lasts, at 55 ms or more each, the device is still
    polling and is not powered down. *)
Theorem held_shield_blocks_timeout fuel w :
  (forall t, now w <= t -> level Shield_Pin t = true) ->
  (forall t, now w <= t -> level Fire_Pin t = false) ->
  (1 <= fuel)%nat ->
  exists w',
    normal_setup level jitter fuel w = Spin w' /\
    now w + 55 * Z.of_nat fuel <= now w' /\
    health w' = 25 /\ shields_remaining w' = 30.
Proof.
  intros Hs Hf Hfuel. destruct fuel as [|n]; [lia|].
  set (P := fun w' : World =>
              now w + 55 * Z.of_nat (S n) <= now w' /\
              health w' = 25 /\ shields_remaining w' = 30).
  assert (Hwp : wp (normal_setup level jitter (S n))
                   (fun _ _ => False) (fun _ => False) P w).
  { unfold normal_setup. repeat wp_step. cbn [while].
    wp_step. wp_step. unfold wp at 1.
    rewrite button_low by (apply Hf; wsimpl; lia).
    wp_step. cbn [negb]. wp_step.
    unfold normal_poll. wp_step. unfold wp at 1.
    match goal with
    | |- context [button_is_pressed level jitter Shield_Pin ?W] =>
        destruct (button_held Shield_Pin W) as (ev1 & dt1 & k1 & E1 & Hdt1)
    end.
    { intros t Ht. apply Hs. revert Ht. wsimpl. jits. lia. }
    rewrite E1. wp_step. wp_step. wp_step. cbn [health after tick count_op
      elapse emit put_shields put_health].
    rewrite Z.eqb_refl. repeat wp_step. unfold wp.
    match goal with
    | |- context [while (S n) _ skip ?W] =>
        destruct (wait_spins_when_held Shield_Pin (S n) W)
          as (w' & E' & Hn & Hh & Hsh)
    end.
    { intros t Ht. apply Hs. revert Ht. wsimpl. jits. lia. }
    rewrite E'. unfold P. revert Hn Hh Hsh. wsimpl. jits.
    intros Hn Hh Hsh. repeat split; lia. }
  unfold wp in Hwp.
  destruct (normal_setup level jitter (S n) w) as [a w' | w' | w'];
    try contradiction.
  exists w'. split; [reflexivity | exact Hwp].
Qed.

(* ===================================================================== *)
(** ** Fire in play *)
(* ===================================================================== *)

(** X23. Once the game runs, Fire does nothing: neither a pass of loop nor
    the game as a whole ever reads the Fire pin. *)
Theorem play_ignores_fire fuel w :
  (exists ev,
     trace (final (loop level jitter fuel w)) = ev ++ trace w /\
     forallb (fun te => not_fire (snd te)) ev = true) /\
  (exists ev,
     trace (final (while fuel (ret true) (loop level jitter fuel) w))
       = ev ++ trace w /\
     forallb (fun te => not_fire (snd te)) ev = true).
Proof.
  assert (H1 : respects (logs_only not_fire) (loop level jitter fuel))
    by (open_sketch; rs log_leaf).
  assert (H2 : respects (logs_only not_fire)
                 (while fuel (ret true) (loop level jitter fuel)))
    by (apply respects_while; [typeclasses eauto | rs log_leaf | exact H1]).
  split; [exact (H1 w) | exact (H2 w)].
Qed.

(* ===================================================================== *)
(** ** Repeated increments *)
(* ===================================================================== *)

Lemma count_after_one c : 0 <= c <= 99 -> count_after c 1 = next_count c.
Proof.
  intros Hc. unfold count_after, next_count.
  replace (c - 1 + Z.of_nat 1) with c by lia.
  destruct (Z.ltb_spec c 99).
  - rewrite Z.mod_small by lia. reflexivity.
  - replace c with 99 by lia. reflexivity.
Qed.

Lemma count_after_next c n :
  0 <= c <= 99 -> count_after (next_count c) (S n) = count_after c (S (S n)).
Proof.
  intros Hc. unfold count_after, next_count.
  destruct (Z.ltb_spec c 99).
  - f_equal. f_equal. lia.
  - replace c with 99 by lia. f_equal.
    replace (99 - 1 + Z.of_nat (S (S n))) with (1 - 1 + Z.of_nat (S n) + 1 * 99)
      by lia.
    rewrite Z.mod_add by lia. reflexivity.
Qed.

Lemma next_count_range c : 0 <= c <= 99 -> 1 <= next_count c <= 99.
Proof. intros Hc. unfold next_count. destruct (Z.ltb_spec c 99); lia. Qed.

Lemma inc_health_n n : forall w,
  0 <= health w <= 99 ->
  exists w',
    repeat_call (S n) (inc_health jitter) w = Ret tt w' /\
    health w' = count_after (health w) (S n) /\
    shields_remaining w' = shields_remaining w.
Proof.
  induction n as [|n IH]; intros w Hh;
    destruct (inc_health_run w) as (ev & dt & k & E & _ & _); try lia.
  - eexists. cbn [repeat_call]. rewrite (bind_ret _ _ _ _ _ E).
    split; [reflexivity|]. cbn [health shields_remaining after put_health].
    split; [symmetry; apply count_after_one, Hh | reflexivity].
  - destruct (IH (after ev dt k (put_health (next_count (health w)) w)))
      as (w' & E' & Eh & Es).
    { cbn [health after put_health]. pose proof (next_count_range _ Hh). lia. }
    exists w'. change (repeat_call (S (S n)) (inc_health jitter))
      with (inc_health jitter ;; repeat_call (S n) (inc_health jitter)).
    rewrite (bind_ret _ _ _ _ _ E). split; [exact E'|].
    cbn [health shields_remaining after put_health] in Eh, Es.
    split; [rewrite Eh; apply count_after_next, Hh | exact Es].
Qed.

Lemma inc_shield_n n : forall w,
  0 <= shields_remaining w <= 99 ->
  exists w',
    repeat_call (S n) (inc_shield jitter) w = Ret tt w' /\
    shields_remaining w' = count_after (shields_remaining w) (S n) /\
    health w' = health w.
Proof.
  induction n as [|n IH]; intros w Hh;
    destruct (inc_shield_run w) as (ev & dt & k & E & _ & _); try lia.
  - eexists. cbn [repeat_call]. rewrite (bind_ret _ _ _ _ _ E).
    split; [reflexivity|]. cbn [health shields_remaining after put_shields].
    split; [symmetry; apply count_after_one, Hh | reflexivity].
  - destruct (IH (after ev dt k (put_shields (next_count (shields_remaining w)) w)))
      as (w' & E' & Eh & Es).
    { cbn [shields_remaining after put_shields].
      pose proof (next_count_range _ Hh). lia. }
    exists w'. change (repeat_call (S (S n)) (inc_shield jitter))
      with (inc_shield jitter ;; repeat_call (S n) (inc_shield jitter)).
    rewrite (bind_ret _ _ _ _ _ E). split; [exact E'|].
    cbn [health shields_remaining after put_shields] in Eh, Es.
    split; [rewrite Eh; apply count_after_next, Hh | exact Es].
Qed.

(** X24. Increments compose to a cycle through 1..99: from a counter c in
    [0,99], n calls of inc_health in a row (n at least 1) leave health at
    (c - 1 + n) mod 99 + 1 and shields_remaining as it was, and likewise
    inc_shield; so every value from 1 to 99 is reached within 99 presses,
    99 presses from a value in [1,99] give it back, and 0 is never
    reached. *)
Theorem increments_cycle n w :
  (1 <= n)%nat ->
  (0 <= health w <= 99 ->
   exists w',
     repeat_call n (inc_health jitter) w = Ret tt w' /\
     health w' = count_after (health w) n /\
     1 <= health w' <= 99 /\
     shields_remaining w' = shields_remaining w /\
     (n = 99%nat -> 1 <= health w -> health w' = health w)) /\
  (0 <= shields_remaining w <= 99 ->
   exists w',
     repeat_call n (inc_shield jitter) w = Ret tt w' /\
     shields_remaining w' = count_after (shields_remaining w) n /\
     1 <= shields_remaining w' <= 99 /\
     health w' = health w /\
     (n = 99%nat -> 1 <= shields_remaining w ->
      shields_remaining w' = shields_remaining w)).
Proof.
  intros Hn. destruct n as [|n]; [lia|].
  assert (Hr : forall c, 1 <= count_after c (S n) <= 99).
  { intros c. unfold count_after.
    pose proof (Z.mod_pos_bound (c - 1 + Z.of_nat (S n)) 99 ltac:(lia)). lia. }
  assert (Hc : forall c, S n = 99%nat -> 1 <= c <= 99 -> count_after c (S n) = c).
  { intros c -> Hc1. unfold count_after.
    replace (c - 1 + Z.of_nat 99) with (c - 1 + 1 * 99) by lia.
    rewrite Z.mod_add by lia. rewrite Z.mod_small by lia. lia. }
  split; intros Hh.
  - destruct (inc_health_n n w Hh) as (w' & E & Eh & Es).
    exists w'. split; [exact E|]. split; [exact Eh|].
    split; [rewrite Eh; apply Hr|]. split; [exact Es|].
    intros E99 H1. rewrite Eh. apply Hc; [exact E99 | lia].
  - destruct (inc_shield_n n w Hh) as (w' & E & Eh & Es).
    exists w'. split; [exact E|]. split; [exact Eh|].
    split; [rewrite Eh; apply Hr|]. split; [exact Es|].
    intros E99 H1. rewrite Eh. apply Hc; [exact E99 | lia].
Qed.

End Proofs.

(* ===================================================================== *)
(** ** Concrete runs *)
(* ===================================================================== *)


Example shield_twice_values :
  shield_values (trace (final (shield_handler shield_twice busy 1000 mid_game)))
  = [10; 11; 11; 12; 13; 14].
Proof. vm_compute. reflexivity. Qed.


(** The same presses a little after power-on, for comparison: the count
    goes down once a second and stops at the floor. *)
Example floor_kept_early :
  let l := fun p t => play_over_wrap p (t + (clock_wrap - 1069 - 5000)) in
  let r := shield_handler l busy 1000 (elapse 5000 mid_game) in
  (returned r, shield_values (trace (final r)))
  = (Some tt, [5; 5; 6; 7; 8; 9; 10; 11; 12; 13; 14]).
Proof. vm_compute. reflexivity. Qed.

(** The pass of [loop] in which those presses fall, from the poll of the
    beacon 1 ms earlier: the renderings are 15 (first press), the health
    (second press), -15 (the activation that the second press starts), the
    health again, and 9 once the beacon has lit. *)
Example renderings_over_wrap :
  let r := loop play_over_wrap busy 1000 (elapse (-1) late_game) in
  (returned r, health (final r), shields_remaining (final r),
   map (fun tn => (fst tn - clock_wrap, snd tn))
       (rev (shown_log (trace (final r)))))
  = (Some tt, 9, -15,
     [(-1010, 15); (29148, 10); (29222, -15); (29354, 10); (29990, 9)]).
Proof. vm_compute. reflexivity. Qed.

(** *** From power-on to the wrap of the clock *)












Example normal_setup_at_60s :
  (let r := setup quiet busy (Z.to_nat 20000) (boot (fun _ => 255)) in
   (halted r, spinning r, now (final r)) = (false, true, 60032)) /\
  (let r := setup shield_once busy (Z.to_nat 36000) (boot (fun _ => 255)) in
   (halted r, spinning r, startup_timeout (final r), timeout_max (final r),
    now (final r)) = (false, true, 1074, 110000, 108277)).
Proof. split; vm_compute; reflexivity. Qed.



Example normal_setup_61s :
  let r := setup quiet busy (Z.to_nat 20400) (boot (fun _ => 255)) in
  (halted r, now (final r)) = (true, 61015).
Proof. vm_compute. reflexivity. Qed.

(** Beyond the clock bound of C3 a toggle need not open a window at all.
    Shield is pressed for 200 ms; 50 s before the clock wraps the new
    deadline, the clock reading + 110000, is past the wrap and compares as
    already reached: the device powers down 265 ms after the press.  The
    same press 200 s after power-on leaves it polling. *)
Example toggle_before_wrap :
  let run := fun t =>
    let r := while 3000 (b <- button_is_pressed (pressed Shield_Pin t 200) busy
                               Fire_Pin ;; ret (negb b))
                   (normal_poll (pressed Shield_Pin t 200) busy 3000)
                   (choosing_at t) in
    (halted r, spinning r, health (final r), now (final r) - t) in
  run (clock_wrap - 50000) = (true, false, 25, 265) /\
  run 200000 = (false, true, 25, 9245).
Proof. split; vm_compute; reflexivity. Qed.


Lemma display_num_renders_witness :
  0 <= 42 <= 99 /\
  bcd_of 42 = 42 / 10 * 16 + 42 mod 10 /\
  exists w',
    display_num busy 42 mid_game = Ret tt w' /\
    rev (map snd (trace w')) =
      rev (map snd (trace mid_game)) ++
      Shown 42 :: digit_writes (drawn_pattern (42 / 10)) (drawn_pattern (42 mod 10)) /\
    forall i, 0 <= i < 7 ->
      pin_level (trace w') (idx pinMap_digit1 i)
        = Z.testbit (drawn_pattern (42 / 10)) i /\
      pin_level (trace w') (idx pinMap_digit2 i)
        = Z.testbit (drawn_pattern (42 mod 10)) i.
Proof.
  assert (H : 0 <= 42 <= 99) by lia.
  split; [exact H|]. exact (display_num_renders busy 42 mid_game H).
Defined.

(** The standard patterns are the usual hex table, and the table of the
    sketch differs from it in one entry, that of 9. *)
Example standard_hex_table :
  map standard_pattern [0; 1; 2; 3; 4; 5; 6; 7; 8; 9]
    = [63; 6; 91; 79; 102; 109; 125; 7; 127; 111] /\
  map (idx seg_array) [0; 1; 2; 3; 4; 5; 6; 7; 8; 9]
    = [63; 6; 91; 79; 102; 109; 125; 7; 127; 103].
Proof. split; reflexivity. Qed.

(** Against C4 as the specification words it. The standard pattern of 9
    lights the bottom segment D; display_num 9 drives line 2D (entry 3 of
    pinMap_digit2, pin 2) low: the units digit does not carry the standard
    pattern of 9. *)
Lemma nine_lacks_bottom_segment :
  let w' := final (display_num busy 9 (boot (fun _ => 255))) in
  Z.testbit (standard_pattern (9 mod 10)) (segment_bit SegD) = true /\
  pin_level (trace w') (idx pinMap_digit2 (segment_bit SegD)) = false /\
  ~ (forall i, 0 <= i < 7 ->
       pin_level (trace w') (idx pinMap_digit2 i)
         = Z.testbit (standard_pattern (9 mod 10)) i).
Proof.
  cbv zeta.
  assert (H1 : Z.testbit (standard_pattern (9 mod 10)) (segment_bit SegD) = true)
    by reflexivity.
  assert (H2 : pin_level (trace (final (display_num busy 9 (boot (fun _ => 255)))))
                 (idx pinMap_digit2 (segment_bit SegD)) = false)
    by (vm_compute; reflexivity).
  split; [exact H1|]. split; [exact H2|].
  intros H. specialize (H (segment_bit SegD) ltac:(cbn; lia)).
  rewrite H1, H2 in H. discriminate.
Qed.

Lemma settings_round_trip_witness :
  0 <= 25 <= 99 /\ 0 <= 40 <= 99 /\
  (exists w',
     (EEPROM_write busy ADVANCED_HEALTH_ADDRESS 25 ;;
      EEPROM_write busy ADVANCED_SHIELD_ADDRESS 40 ;;
      load_settings busy) mid_game = Ret tt w' /\
     health w' = 25 /\ shields_remaining w' = 40 /\
     eeprom w' ADVANCED_HEALTH_ADDRESS = 25 /\
     eeprom w' ADVANCED_SHIELD_ADDRESS = 40) /\
  (exists w',
     load_settings busy mid_game = Ret tt w' /\
     health w' = 30 /\ shields_remaining w' = 10 /\
     eeprom w' ADVANCED_HEALTH_ADDRESS = 30 /\
     eeprom w' ADVANCED_SHIELD_ADDRESS = 10).
Proof.
  assert (H1 : 0 <= 25 <= 99) by lia. assert (H2 : 0 <= 40 <= 99) by lia.
  assert (H3 : 99 < u8 (eeprom mid_game ADVANCED_HEALTH_ADDRESS) \/
               99 < u8 (eeprom mid_game ADVANCED_SHIELD_ADDRESS))
    by (left; vm_compute; reflexivity).
  split; [exact H1|]. split; [exact H2|].
  split; [exact (proj1 (settings_round_trip busy 25 40 mid_game H1 H2))|].
  exact (proj2 (settings_round_trip busy 25 40 mid_game H1 H2) mid_game H3).
Defined.

Example ten_hits_run :
  let r := sketch ten_hits busy (Z.to_nat 31000) (boot (fun _ => 255)) in
  (halted r, spinning r, health (final r),
   zero_health_times (trace (final r)), now (final r))
  = (false, true, 0, [21059], 83247).
Proof. vm_compute. reflexivity. Qed.

Lemma not_down_in_time {A} (r : Res A) (t0 t : Z) :
  (halted r, zero_health_times (trace (final r)), now (final r))
    = (false, [t0], t) ->
  t0 + 60029 < t ->
  ~ (forall z, In z (zero_health_times (trace (final r))) ->
               halted r = true \/ now (final r) <= z + 60029).
Proof.
  intros E Hlt H. injection E as E1 E2 E3.
  destruct (H t0) as [Hh | Hn].
  - rewrite E2. left. reflexivity.
  - rewrite E1 in Hh. discriminate.
  - lia.
Qed.

(** Against C6 as the specification words it. Were the device powered
    down 60 s (and the 29 ms the sequence may take on top) after health
    reached 0, no run could be found still up later than that.  Ten hits
    take health to 0 at 21.059 s; with no further input the device is still
    polling at 83.247 s. *)
Lemma zero_health_keeps_polling :
  ~ (forall z,
       In z (zero_health_times
               (trace (final (sketch ten_hits busy (Z.to_nat 31000)
                                (boot (fun _ => 255)))))) ->
       halted (sketch ten_hits busy (Z.to_nat 31000) (boot (fun _ => 255)))
         = true \/
       now (final (sketch ten_hits busy (Z.to_nat 31000) (boot (fun _ => 255))))
         <= z + 60029).
Proof.
  apply not_down_in_time with (t0 := 21059) (t := 83247);
    [vm_compute; reflexivity | lia].
Qed.

Lemma depleted_after_next_hit_witness :
  await_beacon beacon_lit busy 5 spent
    = Ret tt (final (await_beacon beacon_lit busy 5 spent)) /\
  health (final (await_beacon beacon_lit busy 5 spent)) <= 0 /\
  exists w',
    loop beacon_lit busy 5 spent = Halt w' /\
    rev (map snd (trace w')) =
      rev (map snd (trace (final (await_beacon beacon_lit busy 5 spent)))) ++
      Shown 0 :: digit_writes 63 63 ++
      Delay 60000 :: digit_writes 0 0 ++ [Sleep] /\
    now (final (await_beacon beacon_lit busy 5 spent)) + 60000 <= now w'
      <= now (final (await_beacon beacon_lit busy 5 spent)) + 60029 /\
    forall i, 0 <= i < 7 ->
      pin_level (trace w') (idx pinMap_digit1 i) = false /\
      pin_level (trace w') (idx pinMap_digit2 i) = false.
Proof.
  assert (E : await_beacon beacon_lit busy 5 spent
              = Ret tt (final (await_beacon beacon_lit busy 5 spent)))
    by (vm_compute; reflexivity).
  assert (H : health (final (await_beacon beacon_lit busy 5 spent)) <= 0)
    by (vm_compute; discriminate).
  split; [exact E|]. split; [exact H|].
  exact (proj2 (depleted_after_next_hit beacon_lit busy 5 spent) _ E H).
Defined.

Lemma button_is_pressed_debounce_witness :
  (forall t, now (boot (fun _ => 255)) <= t <= now (boot (fun _ => 255)) + 57 ->
             fire_held Fire_Pin t = true) /\
  returned (button_is_pressed fire_held calm Fire_Pin (boot (fun _ => 255)))
  = Some true.
Proof.
  assert (H : forall t,
             now (boot (fun _ => 255)) <= t <= now (boot (fun _ => 255)) + 57 ->
             fire_held Fire_Pin t = true).
  { intros t Ht. cbn [now boot] in Ht. unfold fire_held, Fire_Pin.
    rewrite Z.eqb_refl.
    replace (0 <=? t) with true by (symmetry; apply Z.leb_le; lia).
    replace (t <? 2000) with true by (symmetry; apply Z.ltb_lt; lia).
    reflexivity. }
  split; [exact H|].
  exact (proj2 (proj2 (proj2 (proj2
           (button_is_pressed_debounce fire_held calm Fire_Pin
              (boot (fun _ => 255)))))) H).
Defined.

Example fire_held_renderings :
  rev (shown_log (trace (final (advanced_mode fire_held calm 60 entering))))
  = [(55, 31); (1100, 32); (1255, 33); (1410, 34); (1565, 35); (1720, 36);
     (1875, 37)].
Proof. vm_compute. reflexivity. Qed.



(** Beyond the clock bound of C8 the 1 s threshold is not kept.  Fire is
    pressed for 700 ms; 500 ms before the clock wraps button_down_time
    + 1000 is past the wrap and compares as already exceeded: the press
    gives four increments.  The same press 5 s after power-on gives one. *)
Example hold_before_wrap :
  let run := fun t =>
    map snd (rev (shown_log (trace (final
      (number_entry (pressed Fire_Pin t 700) busy 400 (inc_health busy)
         (entering_at t)))))) in
  run (clock_wrap - 500) = [31; 32; 33; 34] /\ run 5000 = [31].
Proof. split; vm_compute; reflexivity. Qed.


Lemma inc_stays_in_range_witness :
  0 <= health spent /\ 0 <= shields_remaining spent /\
  (exists w', inc_health busy spent = Ret tt w' /\
     1 <= health w' <= 99 /\ (health spent = 0 -> health w' = 1)) /\
  (exists w', inc_shield busy spent = Ret tt w' /\
     1 <= shields_remaining w' <= 99 /\
     (shields_remaining spent = 0 -> shields_remaining w' = 1)).
Proof.
  assert (H1 : 0 <= health spent) by (simpl; lia).
  assert (H2 : 0 <= shields_remaining spent) by (simpl; lia).
  split; [exact H1|]. split; [exact H2|].
  exact (inc_stays_in_range busy spent H1 H2).
Defined.

(* ===================================================================== *)
(** ** Concrete runs for the results on the sketch as a whole *)
(* ===================================================================== *)

Lemma eeprom_other_cells_untouched_witness :
  100 <> ADVANCED_HEALTH_ADDRESS /\ 100 <> ADVANCED_SHIELD_ADDRESS /\
  eeprom (final (sketch shield_at_boot busy 20 (boot (fun a => a)))) 100
  = eeprom (boot (fun a => a)) 100.
Proof.
  assert (H1 : 100 <> ADVANCED_HEALTH_ADDRESS) by discriminate.
  assert (H2 : 100 <> ADVANCED_SHIELD_ADDRESS) by discriminate.
  split; [exact H1|]. split; [exact H2|].
  exact (eeprom_other_cells_untouched shield_at_boot busy 20
           (boot (fun a => a)) 100 H1 H2).
Defined.

(** A Shield press at 1.0 s in normal set-up switches 10/15 to 25/30. *)
Lemma normal_setup_game_types_witness :
  button_is_pressed shield_once busy Shield_Pin choosing
    = Ret true (final (button_is_pressed shield_once busy Shield_Pin choosing)) /\
  halted (normal_poll shield_once busy 5 choosing) = false /\
  health (final (normal_poll shield_once busy 5 choosing))
    = (if health choosing =? 10 then 25 else 10) /\
  shields_remaining (final (normal_poll shield_once busy 5 choosing))
    = (if health choosing =? 10 then 30 else 15).
Proof.
  assert (E : button_is_pressed shield_once busy Shield_Pin choosing
              = Ret true (final (button_is_pressed shield_once busy
                                   Shield_Pin choosing)))
    by (vm_compute; reflexivity).
  split; [exact E|].
  exact (proj2 (normal_setup_game_types shield_once busy 5 choosing) _ E).
Defined.

(** 123 shows as C3: entry 12 of the table in the tens place. *)
Lemma display_num_any_int_witness :
  0 <= 123 <= 20479 /\
  exists w',
    display_num busy 123 mid_game = Ret tt w' /\
    lit (idx seg_array ((123 / 10) mod 16)) (idx seg_array (123 mod 10)) w'.
Proof.
  assert (H : 0 <= 123 <= 20479) by lia.
  split; [exact H|].
  exact (proj2 (display_num_any_int busy 123 mid_game) H).
Defined.

Lemma display_num_unambiguous_witness :
  0 <= 42 <= 99 /\
  (forall i, 0 <= i < 7 ->
     pin_level (trace (final (display_num busy 42 mid_game))) (idx pinMap_digit1 i)
     = pin_level (trace (final (display_num busy 42 spent))) (idx pinMap_digit1 i) /\
     pin_level (trace (final (display_num busy 42 mid_game))) (idx pinMap_digit2 i)
     = pin_level (trace (final (display_num busy 42 spent))) (idx pinMap_digit2 i)) /\
  42 = 42.
Proof.
  assert (H : 0 <= 42 <= 99) by lia.
  assert (Hp : forall i, 0 <= i < 7 ->
     pin_level (trace (final (display_num busy 42 mid_game))) (idx pinMap_digit1 i)
     = pin_level (trace (final (display_num busy 42 spent))) (idx pinMap_digit1 i) /\
     pin_level (trace (final (display_num busy 42 mid_game))) (idx pinMap_digit2 i)
     = pin_level (trace (final (display_num busy 42 spent))) (idx pinMap_digit2 i)).
  { intros i Hi.
    assert (Hc : i = 0 \/ i = 1 \/ i = 2 \/ i = 3 \/ i = 4 \/ i = 5 \/ i = 6)
      by lia.
    destruct Hc as [-> | [-> | [-> | [-> | [-> | [-> | ->]]]]]];
      split; reflexivity. }
  split; [exact H|]. split; [exact Hp|].
  exact (display_num_unambiguous busy 42 42 mid_game spent H H Hp).
Defined.

(** The beacon is dark at power-on: the countdown starts at once. *)
Lemma startup_countdown_witness :
  while 1 (button_is_pressed quiet busy Hit_Beacon_Pin) skip mid_game
    = Ret tt (tick busy (emit (DigitalRead Hit_Beacon_Pin false) mid_game)) /\
  exists w' ev,
    startup_animation quiet busy 1 mid_game = Ret tt w' /\
    trace w' = ev ++ trace (tick busy (emit (DigitalRead Hit_Beacon_Pin false) mid_game)) /\
    screen_log ev
      = countdown_log
          (health (tick busy (emit (DigitalRead Hit_Beacon_Pin false) mid_game))) /\
    11000 <= now w'
             - now (tick busy (emit (DigitalRead Hit_Beacon_Pin false) mid_game))
          <= 11179 /\
    health w'
      = health (tick busy (emit (DigitalRead Hit_Beacon_Pin false) mid_game)) /\
    shields_remaining w'
      = shields_remaining
          (tick busy (emit (DigitalRead Hit_Beacon_Pin false) mid_game)) /\
    (0 <= health (tick busy (emit (DigitalRead Hit_Beacon_Pin false) mid_game))
       <= 99 ->
     displays
       (health (tick busy (emit (DigitalRead Hit_Beacon_Pin false) mid_game))) w').
Proof.
  assert (E : while 1 (button_is_pressed quiet busy Hit_Beacon_Pin) skip mid_game
              = Ret tt (tick busy (emit (DigitalRead Hit_Beacon_Pin false) mid_game)))
    by reflexivity.
  split; [exact E|].
  exact (startup_countdown quiet busy 1 mid_game _ E).
Defined.

(** The beacon lights with health at 0: the device ends asleep and dark. *)
Lemma powered_down_is_dark_witness :
  loop beacon_lit busy 5 spent = Halt (final (loop beacon_lit busy 5 spent)) /\
  hd_error (map snd (trace (final (loop beacon_lit busy 5 spent)))) = Some Sleep /\
  blank (final (loop beacon_lit busy 5 spent)).
Proof.
  assert (E : loop beacon_lit busy 5 spent
              = Halt (final (loop beacon_lit busy 5 spent)))
    by (vm_compute; reflexivity).
  split; [exact E|].
  exact (powered_down_is_dark beacon_lit busy 5 spent _ (or_intror (or_introl E))).
Defined.

(** A hit with health at 10. *)
Lemma hit_costs_one_health_witness :
  await_beacon beacon_lit busy 5 mid_game
    = Ret tt (final (await_beacon beacon_lit busy 5 mid_game)) /\
  0 < health (final (await_beacon beacon_lit busy 5 mid_game)) <= 32767 /\
  halted (loop beacon_lit busy 5 mid_game) = false /\
  health (final (loop beacon_lit busy 5 mid_game))
    = health (final (await_beacon beacon_lit busy 5 mid_game)) - 1.
Proof.
  assert (E : await_beacon beacon_lit busy 5 mid_game
              = Ret tt (final (await_beacon beacon_lit busy 5 mid_game)))
    by (vm_compute; reflexivity).
  assert (H : 0 < health (final (await_beacon beacon_lit busy 5 mid_game)) <= 32767)
    by (vm_compute; split; [reflexivity | discriminate]).
  split; [exact E|]. split; [exact H|].
  pose proof (hit_costs_one_health beacon_lit busy 5 mid_game _ E H) as R.
  cbv zeta in R. split; [exact (proj1 R) | exact (proj1 (proj2 R))].
Defined.

Lemma play_never_gains_witness :
  0 <= now mid_game /\ health mid_game <= 32767 /\
  0 <= shields_remaining mid_game <= 32767 /\
  now (final (while 3 (ret true) (loop beacon_lit busy 3) mid_game)) < horizon /\
  health (final (while 3 (ret true) (loop beacon_lit busy 3) mid_game))
    <= health mid_game /\
  0 <= shields_remaining
         (final (while 3 (ret true) (loop beacon_lit busy 3) mid_game))
    <= shields_remaining mid_game.
Proof.
  assert (H1 : 0 <= now mid_game) by (simpl; lia).
  assert (H2 : health mid_game <= 32767) by (simpl; lia).
  assert (H3 : 0 <= shields_remaining mid_game <= 32767) by (simpl; lia).
  assert (H4 : now (final (while 3 (ret true) (loop beacon_lit busy 3) mid_game))
               < horizon) by (vm_compute; reflexivity).
  split; [exact H1|]. split; [exact H2|]. split; [exact H3|]. split; [exact H4|].
  exact (play_never_gains beacon_lit busy 3 mid_game H1 H2 H3 H4).
Defined.

(** Shield held for 3.5 s and pressed again at 5 s: 15 becomes 10. *)
Lemma activation_costs_at_least_one_witness :
  button_is_pressed shield_twice busy Shield_Pin mid_game
    = Ret true (final (button_is_pressed shield_twice busy Shield_Pin mid_game)) /\
  shield_handler shield_twice busy 1000 mid_game
    = Ret tt (final (shield_handler shield_twice busy 1000 mid_game)) /\
  Z.max (shields_remaining mid_game - 10) 0
    <= shields_remaining (final (shield_handler shield_twice busy 1000 mid_game)) /\
  (0 < shields_remaining mid_game ->
   shields_remaining (final (shield_handler shield_twice busy 1000 mid_game))
     < shields_remaining mid_game).
Proof.
  assert (E : button_is_pressed shield_twice busy Shield_Pin mid_game
              = Ret true (final (button_is_pressed shield_twice busy
                                   Shield_Pin mid_game)))
    by (vm_compute; reflexivity).
  assert (Er : shield_handler shield_twice busy 1000 mid_game
               = Ret tt (final (shield_handler shield_twice busy 1000 mid_game)))
    by (vm_compute; reflexivity).
  assert (H1 : 0 <= now mid_game) by (simpl; lia).
  assert (H2 : 0 <= shields_remaining mid_game <= 32767) by (simpl; lia).
  assert (H3 : now (final (shield_handler shield_twice busy 1000 mid_game))
               < horizon) by (vm_compute; reflexivity).
  split; [exact E|]. split; [exact Er|].
  pose proof (proj1 (activation_costs_at_least_one shield_twice busy 1000 mid_game)
                _ _ E H1 H2 Er H3) as R.
  split; [exact (proj1 R) | exact (proj1 (proj2 R))].
Defined.

(** Shield held down: 15 becomes 5 and the handler returns. *)
Lemma held_shield_drains_to_floor_witness :
  (forall t,
     now mid_game <= t <= now (final (shield_handler shield_down busy 400 mid_game)) ->
     shield_down Shield_Pin t = true) /\
  shield_handler shield_down busy 400 mid_game
    = Ret tt (final (shield_handler shield_down busy 400 mid_game)) /\
  shields_remaining (final (shield_handler shield_down busy 400 mid_game))
    = Z.max (shields_remaining mid_game - 10) 0 /\
  health (final (shield_handler shield_down busy 400 mid_game)) = health mid_game.
Proof.
  assert (Hheld : forall t,
             now mid_game <= t
               <= now (final (shield_handler shield_down busy 400 mid_game)) ->
             shield_down Shield_Pin t = true) by (intros t _; reflexivity).
  assert (Er : shield_handler shield_down busy 400 mid_game
               = Ret tt (final (shield_handler shield_down busy 400 mid_game)))
    by (vm_compute; reflexivity).
  assert (H1 : 0 <= now mid_game) by (simpl; lia).
  assert (H2 : 0 <= shields_remaining mid_game <= 32767) by (simpl; lia).
  assert (H3 : now (final (shield_handler shield_down busy 400 mid_game))
               < horizon) by (vm_compute; reflexivity).
  split; [exact Hheld|]. split; [exact Er|].
  exact (held_shield_drains_to_floor shield_down busy 400 mid_game _
           Hheld H1 H2 Er H3).
Defined.

(** Shield, one press of Fire, Shield: health stays 30, shields become 11,
    and both are saved. *)
Lemma advanced_mode_saves_selection_witness :
  0 <= health entering <= 99 /\ 0 <= shields_remaining entering <= 99 /\
  advanced_mode pick_shield busy 1000 entering
    = Ret tt (final (advanced_mode pick_shield busy 1000 entering)) /\
  eeprom (final (advanced_mode pick_shield busy 1000 entering))
         ADVANCED_HEALTH_ADDRESS
    = health (final (advanced_mode pick_shield busy 1000 entering)) /\
  eeprom (final (advanced_mode pick_shield busy 1000 entering))
         ADVANCED_SHIELD_ADDRESS
    = shields_remaining (final (advanced_mode pick_shield busy 1000 entering)).
Proof.
  assert (H1 : 0 <= health entering <= 99) by (simpl; lia).
  assert (H2 : 0 <= shields_remaining entering <= 99) by (simpl; lia).
  assert (E : advanced_mode pick_shield busy 1000 entering
              = Ret tt (final (advanced_mode pick_shield busy 1000 entering)))
    by (vm_compute; reflexivity).
  split; [exact H1|]. split; [exact H2|]. split; [exact E|].
  pose proof (advanced_mode_saves_selection pick_shield busy 1000 entering _
                H1 H2 E) as R.
  split; [exact (proj1 (proj2 R)) | exact (proj1 (proj2 (proj2 R)))].
Defined.

Example pick_shield_selection :
  let w := final (advanced_mode pick_shield busy 1000 entering) in
  (health w, shields_remaining w,
   eeprom w ADVANCED_HEALTH_ADDRESS, eeprom w ADVANCED_SHIELD_ADDRESS)
  = (30, 11, 30, 11).
Proof. vm_compute. reflexivity. Qed.

Lemma setup_mode_selection_witness :
  ((forall t, now (boot (fun _ => 255)) <= t <= now (boot (fun _ => 255)) + 75 ->
              shield_at_boot Shield_Pin t = true) /\
   halted (setup shield_at_boot busy 20 (boot (fun _ => 255))) = false) /\
  ((forall t, now (boot (fun _ => 255)) <= t <= now (boot (fun _ => 255)) + 17 ->
              quiet Shield_Pin t = false) /\
   game_type (final (setup quiet busy 20 (boot (fun _ => 255))))).
Proof.
  assert (H1 : forall t,
             now (boot (fun _ => 255)) <= t <= now (boot (fun _ => 255)) + 75 ->
             shield_at_boot Shield_Pin t = true).
  { intros t Ht. cbn [now boot] in Ht. unfold shield_at_boot, Shield_Pin.
    rewrite Z.eqb_refl.
    replace (0 <=? t) with true by (symmetry; apply Z.leb_le; lia).
    replace (t <? 500) with true by (symmetry; apply Z.ltb_lt; lia).
    reflexivity. }
  assert (H2 : forall t,
             now (boot (fun _ => 255)) <= t <= now (boot (fun _ => 255)) + 17 ->
             quiet Shield_Pin t = false) by (intros t _; reflexivity).
  split.
  - split; [exact H1|].
    destruct (proj1 (setup_mode_selection shield_at_boot busy 20
                       (boot (fun _ => 255))) H1) as (w1 & _ & _ & R).
    exact R.
  - split; [exact H2|].
    destruct (proj2 (setup_mode_selection quiet busy 20
                       (boot (fun _ => 255))) H2) as (w1 & _ & _ & R & _).
    exact R.
Defined.

(** A hit while the display shows 10: it then shows 9. *)
Lemma loop_keeps_health_on_display_witness :
  0 <= health showing_ten <= 99 /\
  displays (health showing_ten) showing_ten /\
  loop beacon_lit busy 20 showing_ten
    = Ret tt (final (loop beacon_lit busy 20 showing_ten)) /\
  health (final (loop beacon_lit busy 20 showing_ten)) = health showing_ten - 1 /\
  displays (health (final (loop beacon_lit busy 20 showing_ten)))
           (final (loop beacon_lit busy 20 showing_ten)).
Proof.
  assert (H1 : 0 <= health showing_ten <= 99)
    by (vm_compute; split; discriminate).
  assert (H2 : displays (health showing_ten) showing_ten).
  { intros i Hi.
    assert (Hc : i = 0 \/ i = 1 \/ i = 2 \/ i = 3 \/ i = 4 \/ i = 5 \/ i = 6)
      by lia.
    destruct Hc as [-> | [-> | [-> | [-> | [-> | [-> | ->]]]]]];
      split; vm_compute; reflexivity. }
  assert (E : loop beacon_lit busy 20 showing_ten
              = Ret tt (final (loop beacon_lit busy 20 showing_ten)))
    by (vm_compute; reflexivity).
  split; [exact H1|]. split; [exact H2|]. split; [exact E|].
  pose proof (loop_keeps_health_on_display beacon_lit busy 20 showing_ten _
                H1 H2 E) as R.
  split; [exact (proj1 R) | exact (proj2 (proj2 R))].
Defined.

(** Shield held down for 11 s: the handler returns by itself, at 5. *)
Lemma held_shield_returns_witness :
  (forall t, now mid_game <= t <= now mid_game + 11000 ->
             shield_down Shield_Pin t = true) /\
  exists w',
    shield_handler shield_down busy 201 mid_game = Ret tt w' /\
    now w' <= now mid_game + 11000 /\
    shields_remaining w' = Z.max (shields_remaining mid_game - 10) 0 /\
    health w' = health mid_game.
Proof.
  assert (Hheld : forall t, now mid_game <= t <= now mid_game + 11000 ->
                            shield_down Shield_Pin t = true)
    by (intros t _; reflexivity).
  assert (H1 : 0 <= now mid_game) by (simpl; lia).
  assert (H2 : now mid_game + 11200 < horizon) by (vm_compute; reflexivity).
  assert (H3 : 0 <= shields_remaining mid_game <= 32767) by (simpl; lia).
  assert (H4 : (201 <= 201)%nat) by lia.
  split; [exact Hheld|].
  exact (held_shield_returns shield_down busy 201 mid_game Hheld H1 H2 H3 H4).
Defined.

Example held_shield_run :
  let w := final (shield_handler shield_down busy 201 mid_game) in
  (halted (shield_handler shield_down busy 201 mid_game),
   shields_remaining w, health w, now w)
  = (false, 5, 10, 10452).
Proof. vm_compute. reflexivity. Qed.

(** Shield held for 3.5 s and pressed again at 5 s: five points in 5.2 s. *)
Lemma shield_drain_rate_witness :
  0 <= now mid_game /\ 0 <= shields_remaining mid_game <= 32767 /\
  shield_handler shield_twice busy 1000 mid_game
    = Ret tt (final (shield_handler shield_twice busy 1000 mid_game)) /\
  now (final (shield_handler shield_twice busy 1000 mid_game)) < horizon /\
  shields_remaining mid_game
    - shields_remaining (final (shield_handler shield_twice busy 1000 mid_game))
  <= (now (final (shield_handler shield_twice busy 1000 mid_game))
      - now mid_game) / 999 + 1.
Proof.
  assert (H1 : 0 <= now mid_game) by (simpl; lia).
  assert (H2 : 0 <= shields_remaining mid_game <= 32767) by (simpl; lia).
  assert (Er : shield_handler shield_twice busy 1000 mid_game
               = Ret tt (final (shield_handler shield_twice busy 1000 mid_game)))
    by (vm_compute; reflexivity).
  assert (H3 : now (final (shield_handler shield_twice busy 1000 mid_game))
               < horizon) by (vm_compute; reflexivity).
  split; [exact H1|]. split; [exact H2|]. split; [exact Er|]. split; [exact H3|].
  exact (shield_drain_rate shield_twice busy 1000 mid_game _ H1 H2 Er H3).
Defined.

(** Shield stuck down from power-on: two minutes later, well past both
    timeouts, normal set-up is still waiting for the release. *)
Lemma held_shield_blocks_timeout_witness :
  (forall t, now (boot (fun _ => 255)) <= t -> shield_down Shield_Pin t = true) /\
  (forall t, now (boot (fun _ => 255)) <= t -> shield_down Fire_Pin t = false) /\
  exists w',
    normal_setup shield_down busy 2200 (boot (fun _ => 255)) = Spin w' /\
    now (boot (fun _ => 255)) + 55 * Z.of_nat 2200 <= now w' /\
    health w' = 25 /\ shields_remaining w' = 30.
Proof.
  assert (H1 : forall t, now (boot (fun _ => 255)) <= t ->
                         shield_down Shield_Pin t = true)
    by (intros t _; reflexivity).
  assert (H2 : forall t, now (boot (fun _ => 255)) <= t ->
                         shield_down Fire_Pin t = false)
    by (intros t _; reflexivity).
  assert (H3 : (1 <= 2200)%nat) by lia.
  split; [exact H1|]. split; [exact H2|].
  exact (held_shield_blocks_timeout shield_down busy 2200
           (boot (fun _ => 255)) H1 H2 H3).
Defined.

Example shield_stuck_run :
  let r := normal_setup shield_down busy 2200 (boot (fun _ => 255)) in
  (halted r, spinning r, 121000 <=? now (final r)) = (false, true, true).
Proof. vm_compute. reflexivity. Qed.

(** Seventy presses of Fire from 30 pass 99 and end at 1. *)
Lemma increments_cycle_witness :
  (1 <= 70)%nat /\ 0 <= health entering <= 99 /\
  exists w',
    repeat_call 70 (inc_health busy) entering = Ret tt w' /\
    health w' = count_after (health entering) 70 /\
    1 <= health w' <= 99 /\
    shields_remaining w' = shields_remaining entering /\
    (70%nat = 99%nat -> 1 <= health entering -> health w' = health entering).
Proof.
  assert (H1 : (1 <= 70)%nat) by lia.
  assert (H2 : 0 <= health entering <= 99) by (simpl; lia).
  split; [exact H1|]. split; [exact H2|].
  exact (proj1 (increments_cycle busy 70 entering H1) H2).
Defined.

Example seventy_presses :
  health (final (repeat_call 70 (inc_health busy) entering)) = 1.
Proof. vm_compute. reflexivity. Qed.
